(** * The Librarian catalog: files, instances, events, deletion interlock

    A shallow embedding of [librarian_server/file.py] (both snapshots of the
    module) and of [hera_librarian/async_transfers/rsync.py].

    Python code that talks to the database session, the stores, the logger
    or the clock is written in a small state-and-exception monad; the
    collaborators that are not part of these modules (the store back end,
    the database engine's commit, the clock, the time zone, [sysrsync]) are
    oracles collected in an environment record. *)

From Stdlib Require Import ZArith Ascii String.
From stdpp Require Import gmap strings list pretty.



(** ** Python values, exceptions and the monad *)

(** The values that travel through JSON-like dictionaries here. *)
Inductive PyVal : Type :=
| PyNone
| PyStr (s : string)
| PyInt (z : Z).

Global Instance PyVal_eq_dec : EqDecision PyVal.
Proof. solve_decision. Defined.

(** Exception classes.  [ServerError] keeps its format string and the
    arguments it is raised with; [OtherException] stands for every other
    subclass of [Exception] a collaborator may raise. *)
Inductive exn : Type :=
| ServerError (fmt : string) (args : list PyVal)
| ValueError (fmt : string) (args : list PyVal)
| SQLAlchemyError
| RsyncError
| OtherException (cls : string).

Global Instance exn_eq_dec : EqDecision exn.
Proof. solve_decision. Defined.

Inductive result (A : Type) : Type :=
| Return (a : A)
| Raise (e : exn).
Arguments Return {A} a.
Arguments Raise {A} e.

(** A computation over a state [S]: the state survives an exception, as
    Python's heap and the outside world do. *)
Definition M (S A : Type) : Type := S -> result A * S.

Definition ret {S A : Type} (a : A) : M S A := fun s => (Return a, s).

Definition raise {S A : Type} (e : exn) : M S A := fun s => (Raise e, s).

Definition bind {S A B : Type} (m : M S A) (k : A -> M S B) : M S B :=
  fun s =>
    match m s with
    | (Return a, s') => k a s'
    | (Raise e, s') => (Raise e, s')
    end.

(** [try: m except <classes>: h]; [catches] says which classes the
    [except] clause names. *)
Definition try_except {S A : Type}
    (m : M S A) (catches : exn -> bool) (h : exn -> M S A) : M S A :=
  fun s =>
    match m s with
    | (Raise e, s') => if catches e then h e s' else (Raise e, s')
    | r => r
    end.

Notation "x <- c ;; k" := (bind c (fun x => k))
  (at level 20, c at level 99, k at level 200, only parsing).
Notation "c ;; k" := (bind c (fun _ => k))
  (at level 100, k at level 200, right associativity, only parsing).

(** [for x in l: acc = body x acc], the loop-carried locals being [acc]. *)
Fixpoint for_each {S A B : Type}
    (body : A -> B -> M S B) (l : list A) (acc : B) : M S B :=
  match l with
  | [] => ret acc
  | x :: l' => acc' <- body x acc ;; for_each body l' acc'
  end.

(** [except Exception] *)
Definition any_Exception (e : exn) : bool := true.

(** [except SQLAlchemyError] *)
Definition is_SQLAlchemyError (e : exn) : bool :=
  match e with SQLAlchemyError => true | _ => false end.

(** [isinstance(e, RsyncError)] *)
Definition is_RsyncError (e : exn) : bool :=
  match e with RsyncError => true | _ => false end.

(** [try: m except <expression> as e: h].  Python evaluates the
    expression of the clause when the body has raised, not before; an
    exception of that evaluation leaves the statement in place of the one
    in flight.  An exception that is no instance of the class found goes
    on. *)
Definition try_except_eval {S A : Type}
    (m : M S A) (cls : M S (exn -> bool)) (h : exn -> M S A) : M S A :=
  fun s =>
    match m s with
    | (Raise e, s') =>
        match cls s' with
        | (Return catches, s'') => if catches e then h e s'' else (Raise e, s'')
        | (Raise e', s'') => (Raise e', s'')
        end
    | r => r
    end.

(** ** Strings *)

(** [c in s] for a one-character [c]. *)
Fixpoint contains_char (c : ascii) (s : string) : bool :=
  match s with
  | EmptyString => false
  | String d s' => if decide (c = d) then true else contains_char c s'
  end.

Definition ends_with_char (c : ascii) (s : string) : bool :=
  match String.length s with
  | O => false
  | S n => match String.get n s with
           | Some d => bool_decide (c = d)
           | None => false
           end
  end.

Definition starts_with_char (c : ascii) (s : string) : bool :=
  match s with
  | String d _ => bool_decide (c = d)
  | EmptyString => false
  end.

(** [s.lower()], on ASCII letters. *)
Definition lower_char (c : ascii) : ascii :=
  let n := nat_of_ascii c in
  if (65 <=? n)%nat && (n <=? 90)%nat then ascii_of_nat (n + 32) else c.

Fixpoint lower (s : string) : string :=
  match s with
  | EmptyString => EmptyString
  | String c s' => String (lower_char c) (lower s')
  end.

(** [s.split(sep)] for a one-character separator: never an empty list. *)
Fixpoint split (sep : ascii) (s : string) : list string :=
  match s with
  | EmptyString => [EmptyString]
  | String c s' =>
      if decide (c = sep) then EmptyString :: split sep s'
      else match split sep s' with
           | [] => [String c EmptyString]
           | w :: ws => String c w :: ws
           end
  end.

(** [sep.join(l)] *)
Fixpoint join (sep : string) (l : list string) : string :=
  match l with
  | [] => EmptyString
  | [w] => w
  | w :: ws => w +:+ sep +:+ join sep ws
  end.

(** [os.path.join(a, b)] of [posixpath]. *)
Definition path_join (a b : string) : string :=
  if starts_with_char "/"%char b then b
  else if (bool_decide (a = EmptyString) || ends_with_char "/"%char a)%bool
       then a +:+ b
       else a +:+ "/" +:+ b.

(** ** The data model *)

(** A naive [datetime.datetime]: whole seconds counted from
    1970-01-01T00:00:00 on the object's own calendar, and the microsecond
    field. *)
Record datetime : Type := mk_datetime {
  dt_seconds : Z;
  dt_microsecond : Z
}.

Global Instance datetime_eq_dec : EqDecision datetime.
Proof. solve_decision. Defined.

Record Store : Type := mk_Store {
  store_id : Z;
  store_name : string;
  path_prefix : string;
  ssh_host : string
}.

Global Instance Store_eq_dec : EqDecision Store.
Proof. solve_decision. Defined.

Module File.
Record t : Type := mk {
  name : string;
  type : string;
  create_time : datetime;
  obsid : option Z;
  size : Z;
  md5 : string;
  source : string
}.
End File.

Global Instance File_eq_dec : EqDecision File.t.
Proof. solve_decision. Defined.

(** class DeletionPolicy *)
Definition DISALLOWED : Z := 0.
Definition ALLOWED : Z := 1.

Module FileInstance.
(** The three key columns, the policy column, and the [store_object]
    relationship (the [Store] row that [store] refers to). *)
Record t : Type := mk {
  store : Z;
  parent_dirs : string;
  name : string;
  deletion_policy : Z;
  store_object : Store
}.
End FileInstance.

Global Instance FileInstance_eq_dec : EqDecision FileInstance.t.
Proof. solve_decision. Defined.

Module FileEvent.
(** [payload] holds the structure that the constructor hands to
    [json.dumps]; the [id] column is assigned by the database. *)
Record t : Type := mk {
  name : string;
  time : datetime;
  type : string;
  payload : gmap string PyVal
}.
End FileEvent.

Global Instance FileEvent_eq_dec : EqDecision FileEvent.t.
Proof. solve_decision. Defined.

(** The primary key of a [file_instance] row. *)
Definition inst_key (i : FileInstance.t) : Z * string * string :=
  (FileInstance.store i, FileInstance.parent_dirs i, FileInstance.name i).

(** FileInstance.store_name *)
Definition inst_store_name (i : FileInstance.t) : string :=
  store_name (FileInstance.store_object i).

(** FileInstance.store_path *)
Definition store_path (i : FileInstance.t) : string :=
  path_join (FileInstance.parent_dirs i) (FileInstance.name i).

(** FileInstance.descriptive_name *)
Definition descriptive_name (i : FileInstance.t) : string :=
  inst_store_name i +:+ ":" +:+ store_path i.

(** ** The world: committed tables, the session, and the calls made *)

Record Database : Type := mk_Database {
  db_stores : list Store;
  db_files : list File.t;
  db_instances : list FileInstance.t;
  db_events : list FileEvent.t
}.

(** What a session holds between two commits. *)
Inductive SessionOp : Type :=
| SessAdd (e : FileEvent.t)
| SessDelete (i : FileInstance.t)
| SessSetPolicy (i : FileInstance.t) (policy : Z).

(** What a log call is given to format. *)
Inductive LogArg : Type :=
| ArgStr (s : string)
| ArgExn (e : exn).

Global Instance LogArg_eq_dec : EqDecision LogArg.
Proof. solve_decision. Defined.

(** Calls on the collaborators, in the order they are made.
    [chmod_before] is [None] where the caller does not pass it. *)
Inductive Effect : Type :=
| StoreDelete (s : Store) (path : string) (chmod_before : option bool)
| LogInfo (fmt : string) (args : list LogArg)
| LogWarn (fmt : string) (args : list LogArg)
| LogException
| Commit
| Rollback.

Global Instance SessionOp_eq_dec : EqDecision SessionOp.
Proof. solve_decision. Defined.

Global Instance Effect_eq_dec : EqDecision Effect.
Proof. solve_decision. Defined.

Record World : Type := mk_World {
  db : Database;
  session : list SessionOp;
  trace : list Effect
}.

(** The oracles of one request. *)
Record Env : Type := mk_Env {
  (** app.config *)
  config : gmap string string;
  (** [store._delete(path, chmod_before)]: [None] when it returns,
      [Some e] when it raises [e]. *)
  store_delete : Store -> string -> option bool -> option exn;
  (** whether [db.session.commit()] raises [SQLAlchemyError] *)
  commit_fails : bool;
  (** [datetime.datetime.utcnow().replace(microsecond=0)], in seconds:
      the reading of the clock during the request *)
  utcnow : Z;
  (** the offset of local time from UTC, in seconds, at a POSIX time *)
  utcoffset : Z -> Z;
  (** [int(floor(Time(float(text), format='jd', scale='utc').gps))] *)
  astropy_gps : string -> result Z;
  (** [datetime.datetime.fromtimestamp(t)] raising for a POSIX time that
      the platform or [datetime] cannot convert ([ValueError],
      [OverflowError] or [OSError], by the size of [t] and the platform):
      [Some e] when it raises [e] *)
  fromtimestamp_raises : Z -> option exn;
  (** the database engine behind [db.session], as far as [LIKE] goes:
      whether it compares ASCII letters without regard to case (SQLite
      does, and MySQL under its default collations; PostgreSQL does
      not) *)
  like_folds_case : bool;
  (** and whether the backslash is the escape character of a [LIKE] that
      names none (it is in PostgreSQL and MySQL, not in SQLite) *)
  like_backslash_escapes : bool
}.

(** ** Primitives on the world *)

Definition set_session (w : World) (s : list SessionOp) : World :=
  {| db := db w; session := s; trace := trace w |}.

Definition emit (e : Effect) : M World unit :=
  fun w => (Return tt, {| db := db w; session := session w; trace := trace w ++ [e] |}).

Definition logger_info (fmt : string) (args : list LogArg) : M World unit :=
  emit (LogInfo fmt args).

Definition logger_warn (fmt : string) (args : list LogArg) : M World unit :=
  emit (LogWarn fmt args).

(** app.log_exception(sys.exc_info()) *)
Definition log_exception : M World unit := emit LogException.

Definition session_push (op : SessionOp) : M World unit :=
  fun w => (Return tt, set_session w (session w ++ [op])).

(** db.session.add(event) *)
Definition session_add (e : FileEvent.t) : M World unit :=
  session_push (SessAdd e).

(** db.session.delete(inst) *)
Definition session_delete (i : FileInstance.t) : M World unit :=
  session_push (SessDelete i).

(** inst.deletion_policy = policy, on an object the session tracks *)
Definition set_deletion_policy (i : FileInstance.t) (policy : Z) : M World unit :=
  session_push (SessSetPolicy i policy).

Definition with_policy (i : FileInstance.t) (policy : Z) : FileInstance.t :=
  {| FileInstance.store := FileInstance.store i;
     FileInstance.parent_dirs := FileInstance.parent_dirs i;
     FileInstance.name := FileInstance.name i;
     FileInstance.deletion_policy := policy;
     FileInstance.store_object := FileInstance.store_object i |}.

(** What the database does with one flushed operation: rows are found by
    primary key. *)
Definition apply_op (d : Database) (op : SessionOp) : Database :=
  match op with
  | SessAdd e =>
      {| db_stores := db_stores d; db_files := db_files d;
         db_instances := db_instances d;
         db_events := db_events d ++ [e] |}
  | SessDelete i =>
      {| db_stores := db_stores d; db_files := db_files d;
         db_instances := filter (fun j => inst_key j ≠ inst_key i) (db_instances d);
         db_events := db_events d |}
  | SessSetPolicy i policy =>
      {| db_stores := db_stores d; db_files := db_files d;
         db_instances :=
           (fun j => if decide (inst_key j = inst_key i)
                     then with_policy j policy else j) <$> db_instances d;
         db_events := db_events d |}
  end.

Definition apply_ops (ops : list SessionOp) (d : Database) : Database :=
  foldl apply_op d ops.

(** db.session.commit(): all pending operations reach the tables, or the
    call raises [SQLAlchemyError] and none does. *)
Definition session_commit (env : Env) : M World unit :=
  emit Commit ;;
  if commit_fails env then raise SQLAlchemyError
  else fun w =>
    (Return tt, {| db := apply_ops (session w) (db w); session := []; trace := trace w |}).

(** db.session.rollback() *)
Definition session_rollback : M World unit :=
  emit Rollback ;;
  fun w => (Return tt, set_session w []).

(** self.instances: the rows of [file_instance] whose [name] is the file's. *)
Definition instances_of (self : File.t) (d : Database) : list FileInstance.t :=
  filter (fun i => FileInstance.name i = File.name self) (db_instances d).

Definition instances (self : File.t) : M World (list FileInstance.t) :=
  fun w => (Return (instances_of self (db w)), w).

(** File.query.get(name) *)
Definition File_query_get (name : string) : M World (option File.t) :=
  fun w => (Return (snd <$> list_find (fun f => File.name f = name) (db_files (db w))), w).

(** The double-quote character, for messages that quote a name. *)
Definition dq : string := String (ascii_of_nat 34) EmptyString.

Definition msg_illegal_file_name : string :=
  "illegal file name " +:+ dq +:+ "%s" +:+ dq +:+ ": names may not contain " +:+ dq +:+ "/" +:+ dq.

Definition msg_no_known_file : string :=
  "no known file " +:+ dq +:+ "%s" +:+ dq.

Definition msg_no_instances : string :=
  "no instances of file " +:+ dq +:+ "%s" +:+ dq +:+ " on this librarian".

Definition msg_consistency_broken : string :=
  "deleted instances but failed to update database! DB/FS consistency broken!".

Definition msg_commit_failed : string :=
  "failed to commit changes to the database".

(** FileEvent.__init__ *)
Definition FileEvent_init (env : Env) (name type : string)
    (payload_struct : gmap string PyVal) : M World FileEvent.t :=
  if contains_char "/"%char name
  then raise (ValueError msg_illegal_file_name [PyStr name])
  else ret {| FileEvent.name := name;
              FileEvent.time := {| dt_seconds := utcnow env; dt_microsecond := 0 |};
              FileEvent.type := type;
              FileEvent.payload := payload_struct |}.

(** File.make_generic_event *)
Definition make_generic_event (env : Env) (self : File.t) (type : string)
    (kwargs : gmap string PyVal) : M World FileEvent.t :=
  FileEvent_init env (File.name self) type kwargs.

(** File.make_instance_deletion_event *)
Definition make_instance_deletion_event (env : Env) (self : File.t)
    (instance : FileInstance.t) (store : Store) : M World FileEvent.t :=
  make_generic_event env self "delete_instance"
    (<["store_name" := PyStr (store_name store)]>
       (<["parent_dirs" := PyStr (FileInstance.parent_dirs instance)]> ∅)).

(** store._delete(path, chmod_before=...) *)
Definition store__delete (env : Env) (store : Store) (path : string)
    (chmod_before : option bool) : M World unit :=
  emit (StoreDelete store path chmod_before) ;;
  match store_delete env store path chmod_before with
  | None => ret tt
  | Some e => raise e
  end.

(** ** File.delete_instances, the deletion interlock *)

(** The dictionary that [delete_instances] returns has exactly these
    keys. *)
Record Counts : Type := mk_Counts {
  n_deleted : Z;
  n_kept : Z;
  n_error : Z
}.

Global Instance Counts_eq_dec : EqDecision Counts.
Proof. solve_decision. Defined.

Definition incr_deleted (c : Counts) : Counts :=
  {| n_deleted := n_deleted c + 1; n_kept := n_kept c; n_error := n_error c |}.

Definition incr_kept (c : Counts) : Counts :=
  {| n_deleted := n_deleted c; n_kept := n_kept c + 1; n_error := n_error c |}.

Definition incr_error (c : Counts) : Counts :=
  {| n_deleted := n_deleted c; n_kept := n_kept c; n_error := n_error c + 1 |}.

Definition zero_counts : Counts :=
  {| n_deleted := 0; n_kept := 0; n_error := 0 |}.

(** restrict_to_store is not None and inst.store != restrict_to_store.id *)
Definition other_store (restrict_to_store : option Store) (inst : FileInstance.t) : bool :=
  match restrict_to_store with
  | None => false
  | Some s => bool_decide (FileInstance.store inst ≠ store_id s)
  end.

Definition msg_noop_matched : string :=
  "NOOP-delete call matched instance " +:+ dq +:+ "%s" +:+ dq.

Definition msg_attempting : string :=
  "attempting to delete instance " +:+ dq +:+ "%s" +:+ dq.

Definition msg_failed_delete : string :=
  "failed to delete instance " +:+ dq +:+ "%s" +:+ dq +:+ ": %s".

(** One turn of the loop of [delete_instances] (the later snapshot).  The
    [try] block yields [true] when it runs to its end and [false] when its
    handler ran; the counters are the loop-carried locals. *)
Definition delete_instances_body (env : Env) (self : File.t)
    (noop need_chmod : bool) (restrict_to_store : option Store)
    (inst : FileInstance.t) (c : Counts) : M World Counts :=
  if decide (FileInstance.deletion_policy inst ≠ ALLOWED) then
    ret (incr_kept c)
  else if other_store restrict_to_store inst then
    ret (incr_kept c)
  else
    let store := FileInstance.store_object inst in
    ok <- try_except
      ((if noop then
          logger_info msg_noop_matched [ArgStr (descriptive_name inst)]
        else
          logger_info msg_attempting [ArgStr (descriptive_name inst)] ;;
          store__delete env store (store_path inst) (Some need_chmod)) ;;
       ret true)
      any_Exception
      (fun e =>
         logger_warn msg_failed_delete [ArgStr (descriptive_name inst); ArgExn e] ;;
         ret false) ;;
    if ok then
      (if negb noop then
         ev <- make_instance_deletion_event env self inst store ;;
         session_add ev ;;
         session_delete inst
       else ret tt) ;;
      ret (incr_deleted c)
    else
      ret (incr_error c).

Definition delete_instances_loop (env : Env) (self : File.t)
    (noop need_chmod : bool) (restrict_to_store : option Store)
    (insts : list FileInstance.t) (c : Counts) : M World Counts :=
  for_each (delete_instances_body env self noop need_chmod restrict_to_store) insts c.

(** app.config.get('permissions_mode', 'readonly') == 'readonly' *)
Definition need_chmod_of (env : Env) : bool :=
  bool_decide (default "readonly" (config env !! "permissions_mode") = "readonly").

(** File.delete_instances(self, mode='standard', restrict_to_store=None) *)
Definition delete_instances (env : Env) (self : File.t) (mode : string)
    (restrict_to_store : option Store) : M World Counts :=
  noop <- (if decide (mode = "standard") then ret false
           else if decide (mode = "noop") then ret true
           else raise (ServerError "unexpected deletion operations mode %r" [PyStr mode])) ;;
  let need_chmod := need_chmod_of env in
  insts <- instances self ;;
  c <- delete_instances_loop env self noop need_chmod restrict_to_store insts zero_counts ;;
  (if negb noop then
     try_except (session_commit env) is_SQLAlchemyError
       (fun _ =>
          session_rollback ;;
          log_exception ;;
          raise (ServerError msg_consistency_broken []))
   else ret tt) ;;
  ret c.

Module Old.
(** The earlier snapshot, [server/librarian_server/file.py]: no mode, no
    store filter, [store._delete] without [chmod_before], and a bare
    [db.session.commit()]. *)

Definition delete_instances_body (env : Env) (self : File.t)
    (inst : FileInstance.t) (c : Counts) : M World Counts :=
  if decide (FileInstance.deletion_policy inst ≠ ALLOWED) then
    ret (incr_kept c)
  else
    let store := FileInstance.store_object inst in
    ok <- try_except
      (logger_info msg_attempting [ArgStr (descriptive_name inst)] ;;
       store__delete env store (store_path inst) None ;;
       ret true)
      any_Exception
      (fun e =>
         logger_warn msg_failed_delete [ArgStr (descriptive_name inst); ArgExn e] ;;
         ret false) ;;
    if ok then
      ev <- make_instance_deletion_event env self inst store ;;
      session_add ev ;;
      session_delete inst ;;
      ret (incr_deleted c)
    else
      ret (incr_error c).

Definition delete_instances_loop (env : Env) (self : File.t)
    (insts : list FileInstance.t) (c : Counts) : M World Counts :=
  for_each (delete_instances_body env self) insts c.

Definition delete_instances (env : Env) (self : File.t) : M World Counts :=
  insts <- instances self ;;
  c <- delete_instances_loop env self insts zero_counts ;;
  session_commit env ;;
  ret c.

End Old.

(** ** Request arguments *)

(** Modelled from the spec: [webutil.required_arg] is not among the
    sources.  The operations of the interface section take named arguments
    of a stated type; a request that lacks one, or carries it with another
    type, fails with a [ServerError] before anything else happens.  This is
    [required_arg(args, str, name)]. *)
Definition required_arg_str (args : gmap string PyVal) (name : string) : M World string :=
  match args !! name with
  | Some (PyStr s) => ret s
  | Some PyNone | None =>
      raise (ServerError "required parameter %s not provided" [PyStr name])
  | Some v =>
      raise (ServerError "parameter %s should be of type %s, but got %s" [PyStr name; PyStr "str"; v])
  end.

(** Modelled from the spec: [required_arg(args, int, name)], as above. *)
Definition required_arg_int (args : gmap string PyVal) (name : string) : M World Z :=
  match args !! name with
  | Some (PyInt z) => ret z
  | Some PyNone | None =>
      raise (ServerError "required parameter %s not provided" [PyStr name])
  | Some v =>
      raise (ServerError "parameter %s should be of type %s, but got %s" [PyStr name; PyStr "int"; v])
  end.

(** Modelled from the spec: [webutil.optional_arg(args, str, name)] with
    its default [None]: as [required_arg], but an absent argument is
    [None]. *)
Definition optional_arg_str (args : gmap string PyVal) (name : string) : M World (option string) :=
  match args !! name with
  | Some (PyStr s) => ret (Some s)
  | Some PyNone | None => ret None
  | Some v =>
      raise (ServerError "parameter %s should be of type %s, but got %s" [PyStr name; PyStr "str"; v])
  end.

(** Modelled from the spec: [Store.get_by_name] is not among the sources;
    its callers note that it raises [ServerError] if the lookup fails. *)
Definition Store_get_by_name (name : string) : M World Store :=
  fun w =>
    match list_find (fun s => store_name s = name) (db_stores (db w)) with
    | Some (_, s) => (Return s, w)
    | None => (Raise (ServerError "No such store %r" [PyStr name]), w)
    end.

(** ** DeletionPolicy and set_one_file_deletion_policy *)

(** DeletionPolicy.parse_safe *)
Definition parse_safe (text : string) : M World Z :=
  if decide (text = "disallowed") then ret DISALLOWED
  else if decide (text = "allowed") then ret ALLOWED
  else
    logger_warn "unrecognized deletion policy %r; using DISALLOWED" [ArgStr text] ;;
    ret DISALLOWED.

(** DeletionPolicy.textualize *)
Definition textualize (value : Z) : string :=
  if decide (value = DISALLOWED) then "disallowed"
  else if decide (value = ALLOWED) then "allowed"
  else "???(" +:+ pretty value +:+ ")".

(** The [for ... break ... else] of [set_one_file_deletion_policy]: the
    instance the loop stops at, or [None] when it runs into its [else]. *)
Fixpoint first_instance (restrict_to_store : option Store)
    (insts : list FileInstance.t) : option FileInstance.t :=
  match insts with
  | [] => None
  | inst :: rest =>
      if other_store restrict_to_store inst
      then first_instance restrict_to_store rest
      else Some inst
  end.

(** set_one_file_deletion_policy(args) *)
Definition set_one_file_deletion_policy (env : Env) (args : gmap string PyVal)
    : M World (gmap string PyVal) :=
  file_name <- required_arg_str args "file_name" ;;
  deletion_policy <- required_arg_str args "deletion_policy" ;;
  restrict_to_store <- optional_arg_str args "restrict_to_store" ;;
  restrict_to_store <-
    match restrict_to_store with
    | Some n => s <- Store_get_by_name n ;; ret (Some s)
    | None => ret None
    end ;;
  file <- File_query_get file_name ;;
  match file with
  | None => raise (ServerError msg_no_known_file [PyStr file_name])
  | Some file =>
      deletion_policy <- parse_safe deletion_policy ;;
      insts <- instances file ;;
      match first_instance restrict_to_store insts with
      | None => raise (ServerError msg_no_instances [PyStr file_name])
      | Some inst =>
          set_deletion_policy inst deletion_policy ;;
          ev <- make_generic_event env file "instance_deletion_policy_changed"
                  (<["store_name" := PyStr (store_name (FileInstance.store_object inst))]>
                     (<["parent_dirs" := PyStr (FileInstance.parent_dirs inst)]>
                        (<["new_policy" := PyInt deletion_policy]> ∅))) ;;
          session_add ev ;;
          try_except (session_commit env) is_SQLAlchemyError
            (fun _ =>
               session_rollback ;;
               log_exception ;;
               raise (ServerError msg_commit_failed [])) ;;
          ret ∅
      end
  end.

(** ** infer_file_obsid *)

(** How [LIKE] compares a character of the pattern that stands for itself
    with a character of the text. *)
Definition like_char_eq (fold : bool) (c d : ascii) : bool :=
  if fold then bool_decide (lower_char c = lower_char d) else bool_decide (c = d).

Definition backslash : ascii := ascii_of_nat 92.

(** [text LIKE pattern], for an engine that folds ASCII case or not and
    takes the backslash as escape character or not: [%] matches any run of
    characters and [_] any one character; the escape character makes the
    character after it stand for itself; every other character stands for
    itself.  (A pattern that ends in the escape character, which the
    engines treat each in its own way, matches nothing here: the patterns
    of [infer_file_obsid] end in [.%].) *)
Fixpoint sql_like (fold escape : bool) (pattern text : string) : bool :=
  match pattern with
  | EmptyString => bool_decide (text = EmptyString)
  | String c pattern' =>
      if escape && bool_decide (c = backslash) then
        match pattern', text with
        | String c' pattern'', String d text' =>
            like_char_eq fold c' d && sql_like fold escape pattern'' text'
        | _, _ => false
        end
      else if decide (c = "%"%char) then
        (fix any_suffix (t : string) : bool :=
           sql_like fold escape pattern' t
           || match t with
              | EmptyString => false
              | String _ t' => any_suffix t'
              end) text
      else
        match text with
        | EmptyString => false
        | String d text' =>
            (bool_decide (c = "_"%char) || like_char_eq fold c d)
            && sql_like fold escape pattern' text'
        end
  end.

(** db.session.query(File.obsid).filter(File.name.like(pattern))
      .group_by(File.obsid):
    one row per distinct value of the column among the matching files,
    NULL being a value of its own.  SQLAlchemy renders [like] without an
    [ESCAPE] clause, so the engine's own rules apply. *)
Definition query_obsid_like_grouped (env : Env) (pattern : string)
    : M World (list (option Z)) :=
  fun w =>
    (Return (remove_dups
               (File.obsid
                  <$> filter (fun f => sql_like (like_folds_case env)
                                         (like_backslash_escapes env)
                                         pattern (File.name f) = true)
                             (db_files (db w)))), w).

(** What [infer_file_obsid] hands back: a row of the one-column query in
    the hera mode, an integer in the testing mode. *)
Inductive Inferred : Type :=
| InferredRow (obsid : option Z)
| InferredInt (z : Z).

Global Instance Inferred_eq_dec : EqDecision Inferred.
Proof. solve_decision. Defined.

Definition msg_refusing : string :=
  "refusing to try to infer the obsid of candidate new file " +:+ dq +:+ "%s" +:+ dq.

Definition msg_looks_weird (kind : string) : string :=
  "need to infer obsid of " +:+ kind +:+ " file " +:+ dq +:+ "%s" +:+ dq
  +:+ ", but its name looks weird".

Definition msg_candidates : string :=
  "need to infer obsid of HERA file " +:+ dq +:+ "%s" +:+ dq
  +:+ ", but got %d candidate obsids from similarly-named files".

Definition msg_unknown_mode : string :=
  "configuration problem: unknown " +:+ dq +:+ "obsid_inference_mode" +:+ dq +:+ " setting %r".

(** infer_file_obsid(parent_dirs, name, info) *)
Definition infer_file_obsid (env : Env) (parent_dirs name : string)
    (info : gmap string PyVal) : M World Inferred :=
  let mode := default "none" (config env !! "obsid_inference_mode") in
  if decide (mode = "none") then
    raise (ServerError msg_refusing [PyStr name])
  else if decide (mode = "hera") then
    let bits := split "."%char name in
    if decide (length bits < 4) then
      raise (ServerError (msg_looks_weird "HERA") [PyStr name])
    else
      let prefix := join "." (take 3 bits) in
      obsids <- query_obsid_like_grouped env (prefix +:+ ".%") ;;
      if decide (length obsids ≠ 1) then
        raise (ServerError msg_candidates [PyStr name; PyInt (Z.of_nat (length obsids))])
      else
        match obsids !! 0 with
        | Some row => ret (InferredRow row)
        | None => raise (OtherException "IndexError")
        end
  else if decide (mode = "_testing") then
    let bits := split "."%char name in
    if decide (length bits < 4) then
      raise (ServerError (msg_looks_weird "_testing") [PyStr name])
    else
      match bits !! 1, bits !! 2 with
      | Some b1, Some b2 =>
          match astropy_gps env (b1 +:+ "." +:+ b2) with
          | Return z => ret (InferredInt z)
          | Raise e => raise e
          end
      | _, _ => raise (OtherException "IndexError")
      end
  else
    raise (ServerError msg_unknown_mode [PyStr mode]).

(** ** File records: construction, validation, export and import *)

Definition is_lower_hex (c : ascii) : bool :=
  let n := nat_of_ascii c in
  ((48 <=? n)%nat && (n <=? 57)%nat) || ((97 <=? n)%nat && (n <=? 102)%nat).

Fixpoint all_chars (p : ascii -> bool) (s : string) : bool :=
  match s with
  | EmptyString => true
  | String c s' => p c && all_chars p s'
  end.

(** Modelled from the spec: [hera_librarian.utils.normalize_and_validate_md5]
    is not among the sources.  A content digest is a normalized, validated
    checksum: canonical lowercase hex of a fixed length (32 digits, the
    width of the [md5] column); anything else is rejected. *)
Definition normalize_and_validate_md5 (text : string) : M World string :=
  let norm_text := lower text in
  if decide (String.length norm_text ≠ 32) then
    raise (ValueError "MD5 sum %r has the wrong length" [PyStr text])
  else if negb (all_chars is_lower_hex norm_text) then
    raise (ValueError "MD5 sum %r is not hexadecimal" [PyStr text])
  else ret norm_text.

Definition msg_illegal_size : string :=
  "illegal size %d of file " +:+ dq +:+ "%s" +:+ dq +:+ ": negative".

(** File._validate *)
Definition _validate (self : File.t) : M World unit :=
  if contains_char "/"%char (File.name self) then
    raise (ValueError msg_illegal_file_name [PyStr (File.name self)])
  else
    normalize_and_validate_md5 (File.md5 self) ;;
    if negb (0 <=? File.size self)%Z then
      raise (ValueError msg_illegal_size [PyInt (File.size self); PyStr (File.name self)])
    else ret tt.

(** File.__init__(name, type, obsid, source, size, md5, create_time=None) *)
Definition File_init (env : Env) (name type : string) (obsid : option Z)
    (source : string) (size : Z) (md5 : string) (create_time : option datetime)
    : M World File.t :=
  let create_time :=
    match create_time with
    | None => {| dt_seconds := utcnow env; dt_microsecond := 0 |}
    | Some t => t
    end in
  md5 <- normalize_and_validate_md5 md5 ;;
  let self :=
    {| File.name := name; File.type := type; File.create_time := create_time;
       File.obsid := obsid; File.source := source; File.size := size;
       File.md5 := md5 |} in
  _validate self ;;
  ret self.

(** File.create_time_unix: [calendar.timegm] reads the fields of
    [create_time] as UTC and drops the microseconds. *)
Definition create_time_unix (self : File.t) : Z :=
  dt_seconds (File.create_time self).

(** The first and the last second that a [datetime] holds,
    0001-01-01T00:00:00 and 9999-12-31T23:59:59, counted from
    1970-01-01T00:00:00. *)
Definition datetime_min_seconds : Z := -62135596800.
Definition datetime_max_seconds : Z := 253402300799.

(** The naive local time of the POSIX time [t]. *)
Definition local_time (env : Env) (t : Z) : datetime :=
  {| dt_seconds := t + utcoffset env t; dt_microsecond := 0 |}.

(** datetime.datetime.fromtimestamp(t): the naive local time of the POSIX
    time [t], when the platform converts [t] and the local time is of the
    years 1 to 9999; an exception otherwise. *)
Definition fromtimestamp (env : Env) (t : Z) : M World datetime :=
  match fromtimestamp_raises env t with
  | Some e => raise e
  | None =>
      if decide (datetime_min_seconds <= dt_seconds (local_time env t)
                 <= datetime_max_seconds)%Z
      then ret (local_time env t)
      else raise (OtherException "ValueError")
  end.

Definition msg_obsid_not_provided : string :=
  "required parameter " +:+ dq +:+ "obsid" +:+ dq +:+ " not provided".

Definition msg_obsid_not_integer : string :=
  "parameter " +:+ dq +:+ "obsid" +:+ dq
  +:+ " should be an integer or None, but got %r".

Definition py_of_obsid (o : option Z) : PyVal :=
  match o with
  | None => PyNone
  | Some z => PyInt z
  end.

(** File.to_dict *)
Definition to_dict (self : File.t) : gmap string PyVal :=
  <["name" := PyStr (File.name self)]>
    (<["type" := PyStr (File.type self)]>
       (<["create_time" := PyInt (create_time_unix self)]>
          (<["obsid" := py_of_obsid (File.obsid self)]>
             (<["size" := PyInt (File.size self)]>
                (<["md5" := PyStr (File.md5 self)]> ∅))))).

(** File.from_dict(source, info) *)
Definition from_dict (env : Env) (source : string) (info : gmap string PyVal)
    : M World File.t :=
  name <- required_arg_str info "name" ;;
  type <- required_arg_str info "type" ;;
  ctime_unix <- required_arg_int info "create_time" ;;
  size <- required_arg_int info "size" ;;
  md5 <- required_arg_str info "md5" ;;
  obsid <-
    match info !! "obsid" with
    | None => raise (ServerError msg_obsid_not_provided [])
    | Some PyNone => ret None
    | Some (PyInt z) => ret (Some z)
    | Some v => raise (ServerError msg_obsid_not_integer [v])
    end ;;
  create_time <- fromtimestamp env ctime_unix ;;
  File_init env name type obsid source size md5 (Some create_time).

(** The invariants of a [File] row, as [File._validate] checks them, and
    the whole-second creation time that the constructor produces. *)
Definition valid_file (f : File.t) : Prop :=
  contains_char "/"%char (File.name f) = false
  ∧ lower (File.md5 f) = File.md5 f
  ∧ String.length (File.md5 f) = 32
  ∧ all_chars is_lower_hex (File.md5 f) = true
  ∧ (0 <= File.size f)%Z
  ∧ dt_microsecond (File.create_time f) = 0%Z.

(** ** RsyncAsyncTransferManager *)

Module Rsync.

Record RsyncAsyncTransferManager : Type := mk_manager {
  hostname : string;
  transfer_attempted : bool;
  transfer_complete : bool
}.

(** A call of [sysrsync.run]. *)
Record Run : Type := mk_Run {
  run_source : string;
  run_destination : string;
  run_destination_ssh : option string;
  run_strict : bool
}.

Global Instance Run_eq_dec : EqDecision Run.
Proof. solve_decision. Defined.

(** The manager object and the calls made on [sysrsync] so far. *)
Record State : Type := mk_State {
  self : RsyncAsyncTransferManager;
  runs : list Run
}.

Record Env : Type := mk_Env {
  (** socket.gethostname() *)
  gethostname : string;
  (** [sysrsync.run]: [None] when it returns, [Some e] when it raises *)
  sysrsync_run : Run -> option exn;
  (** whether the module [sysrsync] has an attribute [RsyncError].  The
      package keeps its exception classes in [sysrsync.exceptions]; its
      release 1.1.1 binds only [run] and [get_rsync_command] (and the
      submodules) at the top level, so there the answer is [false]. *)
  sysrsync_has_RsyncError : bool
}.

Inductive TransferStatus : Type := INITIATED | COMPLETED | FAILED.

Definition run (env : Env) (r : Run) : M State unit :=
  fun s =>
    let s' := {| self := self s; runs := runs s ++ [r] |} in
    match sysrsync_run env r with
    | None => (Return tt, s')
    | Some e => (Raise e, s')
    end.

Definition get_hostname : M State string :=
  fun s => (Return (hostname (self s)), s).

(** RsyncAsyncTransferManager.valid *)
Definition valid (env : Env) : M State bool :=
  h <- get_hostname ;;
  if decide (h = gethostname env) then ret true else ret false.

(** The expression [sysrsync.RsyncError]: an attribute lookup on the
    module, which raises [AttributeError] when the module has no such
    attribute. *)
Definition sysrsync_RsyncError (env : Env) : M State (exn -> bool) :=
  if sysrsync_has_RsyncError env then ret is_RsyncError
  else raise (OtherException "AttributeError").

(** RsyncAsyncTransferManager.transfer *)
Definition transfer (env : Env) (local_path remote_path : string) : M State bool :=
  try_except_eval
    (h <- get_hostname ;;
     run env {| run_source := local_path;
                run_destination := remote_path;
                run_destination_ssh :=
                  if decide (h ≠ gethostname env) then Some h else None;
                run_strict := true |} ;;
     ret true)
    (sysrsync_RsyncError env)
    (fun e => ret false).

Definition set_transfer_attempted (b : bool) : M State unit :=
  fun s =>
    (Return tt,
     {| self := {| hostname := hostname (self s);
                   transfer_attempted := b;
                   transfer_complete := transfer_complete (self s) |};
        runs := runs s |}).

Definition set_transfer_complete (b : bool) : M State unit :=
  fun s =>
    (Return tt,
     {| self := {| hostname := hostname (self s);
                   transfer_attempted := transfer_attempted (self s);
                   transfer_complete := b |};
        runs := runs s |}).

(** One turn of the loop:
    [copy_success = copy_success and self.transfer(...)]; Python's [and]
    evaluates its right operand only when the left one is true. *)
Definition batch_transfer_body (env : Env) (pair : string * string)
    (copy_success : bool) : M State bool :=
  let '(local_path, remote_path) := pair in
  if copy_success then transfer env local_path remote_path else ret false.

(** RsyncAsyncTransferManager.batch_transfer *)
Definition batch_transfer (env : Env) (paths : list (string * string)) : M State bool :=
  let copy_success := true in
  set_transfer_attempted true ;;
  copy_success <- for_each (batch_transfer_body env) paths copy_success ;;
  set_transfer_complete copy_success ;;
  ret copy_success.

(** RsyncAsyncTransferManager.transfer_status *)
Definition transfer_status : M State TransferStatus :=
  fun s =>
    (Return (if transfer_complete (self s) then COMPLETED
             else if negb (transfer_attempted (self s)) then INITIATED
             else FAILED), s).

End Rsync.

(** ** Vocabulary of the statements *)

(** [w] with more pending operations and more calls made. *)
Definition extend (w : World) (ops : list SessionOp) (t : list Effect) : World :=
  {| db := db w; session := session w ++ ops; trace := trace w ++ t |}.

(** How one turn of the deletion loop ends for an instance. *)
Inductive Outcome : Type :=
| Kept
| Deleted
| Errored (e : exn).

Definition classify (env : Env) (noop : bool) (chmod_before : option bool)
    (restrict_to_store : option Store) (i : FileInstance.t) : Outcome :=
  if decide (FileInstance.deletion_policy i ≠ ALLOWED) then Kept
  else if other_store restrict_to_store i then Kept
  else if noop then Deleted
  else match store_delete env (FileInstance.store_object i) (store_path i) chmod_before with
       | None => Deleted
       | Some e => Errored e
       end.

Definition bump (o : Outcome) (c : Counts) : Counts :=
  match o with
  | Kept => incr_kept c
  | Deleted => incr_deleted c
  | Errored _ => incr_error c
  end.

Definition tally (cl : FileInstance.t -> Outcome) (insts : list FileInstance.t)
    (c : Counts) : Counts :=
  foldl (fun c i => bump (cl i) c) c insts.

Definition total (c : Counts) : Z := n_deleted c + n_kept c + n_error c.

(** The event that [make_instance_deletion_event] builds for an instance
    of a file whose name has no slash. *)
Definition deletion_event (env : Env) (self : File.t) (i : FileInstance.t) : FileEvent.t :=
  {| FileEvent.name := File.name self;
     FileEvent.time := {| dt_seconds := utcnow env; dt_microsecond := 0 |};
     FileEvent.type := "delete_instance";
     FileEvent.payload :=
       <["store_name" := PyStr (store_name (FileInstance.store_object i))]>
         (<["parent_dirs" := PyStr (FileInstance.parent_dirs i)]> ∅) |}.

Definition event_fails (self : File.t) : bool :=
  contains_char "/"%char (File.name self).

Definition body_result (env : Env) (self : File.t) (noop : bool)
    (chmod_before : option bool) (restrict_to_store : option Store)
    (i : FileInstance.t) (c : Counts) : result Counts :=
  match classify env noop chmod_before restrict_to_store i with
  | Deleted =>
      if negb noop && event_fails self
      then Raise (ValueError msg_illegal_file_name [PyStr (File.name self)])
      else Return (incr_deleted c)
  | o => Return (bump o c)
  end.

Definition body_ops (env : Env) (self : File.t) (noop : bool)
    (chmod_before : option bool) (restrict_to_store : option Store)
    (i : FileInstance.t) : list SessionOp :=
  match classify env noop chmod_before restrict_to_store i with
  | Deleted =>
      if noop || event_fails self then []
      else [SessAdd (deletion_event env self i); SessDelete i]
  | _ => []
  end.

Definition body_effects (env : Env) (noop : bool)
    (chmod_before : option bool) (restrict_to_store : option Store)
    (i : FileInstance.t) : list Effect :=
  match classify env noop chmod_before restrict_to_store i with
  | Kept => []
  | Deleted =>
      if noop then [LogInfo msg_noop_matched [ArgStr (descriptive_name i)]]
      else [LogInfo msg_attempting [ArgStr (descriptive_name i)];
            StoreDelete (FileInstance.store_object i) (store_path i) chmod_before]
  | Errored e =>
      [LogInfo msg_attempting [ArgStr (descriptive_name i)];
       StoreDelete (FileInstance.store_object i) (store_path i) chmod_before;
       LogWarn msg_failed_delete [ArgStr (descriptive_name i); ArgExn e]]
  end.

(** The instances a deletion request goes on to remove physically:
    policy [ALLOWED], and on the store of the filter if there is one. *)
Definition attempted (restrict_to_store : option Store) (i : FileInstance.t) : Prop :=
  FileInstance.deletion_policy i = ALLOWED ∧ other_store restrict_to_store i = false.

Global Instance attempted_dec r i : Decision (attempted r i).
Proof. unfold attempted. apply _. Defined.

(** The store's answer for an instance: [_delete] returned. *)
Definition succeeded (env : Env) (chmod_before : option bool) (i : FileInstance.t) : Prop :=
  store_delete env (FileInstance.store_object i) (store_path i) chmod_before = None.

Global Instance succeeded_dec env c i : Decision (succeeded env c i).
Proof. unfold succeeded. apply _. Defined.

(** The [store._delete] calls among some calls. *)
Definition store_deletes (t : list Effect) : list (Store * string * option bool) :=
  omap (fun e => match e with
                 | StoreDelete s p c => Some (s, p, c)
                 | _ => None
                 end) t.

Definition delete_call_of (chmod_before : option bool) (i : FileInstance.t)
    : Store * string * option bool :=
  (FileInstance.store_object i, store_path i, chmod_before).

Definition commits (t : list Effect) : nat :=
  length (filter (fun e => e = Commit) t).

Definition is_LogInfo (e : Effect) : Prop :=
  match e with LogInfo _ _ => True | _ => False end.

(** The calls that a run adds to the trace of [w]. *)
Definition new_calls (w w' : World) : list Effect :=
  drop (length (trace w)) (trace w').

(** What [delete_instances] does once its loop is over: the final commit
    of the later snapshot, with its handler. *)
Definition finish_standard (env : Env) (r : result Counts * World) : result Counts * World :=
  match r with
  | (Return c, w1) =>
      if commit_fails env then
        (Raise (ServerError msg_consistency_broken []),
         {| db := db w1; session := [];
            trace := trace w1 ++ [Commit; Rollback; LogException] |})
      else
        (Return c,
         {| db := apply_ops (session w1) (db w1); session := [];
            trace := trace w1 ++ [Commit] |})
  | (Raise e, w1) => (Raise e, w1)
  end.

(** The bare commit of the earlier snapshot. *)
Definition finish_old (env : Env) (r : result Counts * World) : result Counts * World :=
  match r with
  | (Return c, w1) =>
      if commit_fails env then
        (Raise SQLAlchemyError,
         {| db := db w1; session := session w1; trace := trace w1 ++ [Commit] |})
      else
        (Return c,
         {| db := apply_ops (session w1) (db w1); session := [];
            trace := trace w1 ++ [Commit] |})
  | (Raise e, w1) => (Raise e, w1)
  end.

Global Instance Outcome_eq_dec : EqDecision Outcome.
Proof. solve_decision. Defined.

(** What the interlock promises of one deletion request that starts in
    [w] and ends with [out]: rows whose policy is not [ALLOWED] stay, every
    [store._delete] the request makes is the removal of an [ALLOWED]
    instance of the file, and the rows the policy protects are all among
    the kept. *)
Definition interlock_respected (self : File.t) (w : World)
    (out : result Counts * World) : Prop :=
  let insts := instances_of self (db w) in
  (forall i, i ∈ db_instances (db w) ->
             FileInstance.deletion_policy i ≠ ALLOWED ->
             i ∈ db_instances (db (snd out)))
  ∧ (∃ t, trace (snd out) = trace w ++ t
          ∧ forall s p c, StoreDelete s p c ∈ t ->
              ∃ j, j ∈ insts ∧ FileInstance.deletion_policy j = ALLOWED
                   ∧ s = FileInstance.store_object j ∧ p = store_path j)
  ∧ (forall c, fst out = Return c ->
       (Z.of_nat (length (filter (fun i => FileInstance.deletion_policy i ≠ ALLOWED) insts))
        <= n_kept c)%Z).

(** A deletion request, to either snapshot of [delete_instances]. *)
Inductive DeletionCall : Type :=
| CallDelete (env : Env) (self : File.t) (mode : string) (restrict_to_store : option Store)
| CallOldDelete (env : Env) (self : File.t).

(** Each request runs with a session of its own. *)
Definition run_call (w : World) (call : DeletionCall) : World :=
  match call with
  | CallDelete env self mode restrict_to_store =>
      snd (delete_instances env self mode restrict_to_store (set_session w []))
  | CallOldDelete env self =>
      snd (Old.delete_instances env self (set_session w []))
  end.

Definition run_calls (calls : list DeletionCall) (w : World) : World :=
  foldl run_call w calls.

(** The primary key of [file_instance] is unique: its columns [store],
    [parent_dirs] and [name] are all declared [primary_key=True]. *)
Definition unique_keys (d : Database) : Prop :=
  NoDup (inst_key <$> db_instances d).

(** What a deletion request in standard mode leaves behind when its
    commit goes through, for the instances it tried to remove: the request
    returns, with one error counted per failed removal; the row of an
    instance is gone exactly when the store removed it; one deletion event
    is added per removed instance and none for the others; and the store
    was called for every instance that passed the interlock, whatever
    happened to the ones before it. *)
Definition removes_exactly_the_deleted (env : Env) (self : File.t)
    (chmod : option bool) (restrict : option Store) (w : World)
    (out : result Counts * World) : Prop :=
  let insts := instances_of self (db w) in
  (∃ c, fst out = Return c
        ∧ n_error c
          = Z.of_nat (length (filter (fun i => attempted restrict i
                                               ∧ ¬ succeeded env chmod i) insts))
        ∧ n_deleted c
          = Z.of_nat (length (filter (fun i => attempted restrict i
                                               ∧ succeeded env chmod i) insts)))
  ∧ (forall i, i ∈ insts -> attempted restrict i ->
       (i ∉ db_instances (db (snd out)) ↔ succeeded env chmod i))
  ∧ db_events (db (snd out))
    = db_events (db w)
      ++ (deletion_event env self
            <$> filter (fun i => attempted restrict i ∧ succeeded env chmod i) insts)
  ∧ store_deletes (new_calls w (snd out))
    = delete_call_of chmod <$> filter (attempted restrict) insts.

(** The operations that the loop leaves pending for the instances the
    store removed. *)
Definition pending_deletions (env : Env) (self : File.t)
    (chmod : option bool) (restrict : option Store)
    (insts : list FileInstance.t) : list SessionOp :=
  filter (fun i => attempted restrict i ∧ succeeded env chmod i) insts
    ≫= (fun i => [SessAdd (deletion_event env self i); SessDelete i]).

(** ** A small catalog

    The file of the scenarios, with three instances: one that may go, one
    that the policy protects, and one that may go but sits on a store that
    cannot be reached. *)

Definition ex_store1 : Store :=
  {| store_id := 1; store_name := "pot1"; path_prefix := "/data"; ssh_host := "pot1.example" |}.

Definition ex_store2 : Store :=
  {| store_id := 2; store_name := "pot2"; path_prefix := "/data"; ssh_host := "pot2.example" |}.

Definition ex_file : File.t :=
  {| File.name := "zen.12345.67890.uv";
     File.type := "uv";
     File.create_time := {| dt_seconds := 1483228800; dt_microsecond := 0 |};
     File.obsid := Some 42%Z;
     File.size := 1024;
     File.md5 := "d41d8cd98f00b204e9800998ecf8427e";
     File.source := "correlator" |}.

Definition ex_allowed : FileInstance.t :=
  {| FileInstance.store := 1; FileInstance.parent_dirs := "12345";
     FileInstance.name := "zen.12345.67890.uv";
     FileInstance.deletion_policy := ALLOWED;
     FileInstance.store_object := ex_store1 |}.

Definition ex_protected : FileInstance.t :=
  {| FileInstance.store := 2; FileInstance.parent_dirs := "12345";
     FileInstance.name := "zen.12345.67890.uv";
     FileInstance.deletion_policy := DISALLOWED;
     FileInstance.store_object := ex_store2 |}.

Definition ex_unreachable : FileInstance.t :=
  {| FileInstance.store := 2; FileInstance.parent_dirs := "backup";
     FileInstance.name := "zen.12345.67890.uv";
     FileInstance.deletion_policy := ALLOWED;
     FileInstance.store_object := ex_store2 |}.

Definition ex_db : Database :=
  {| db_stores := [ex_store1; ex_store2];
     db_files := [ex_file];
     db_instances := [ex_allowed; ex_protected; ex_unreachable];
     db_events := [] |}.

Definition ex_world : World :=
  {| db := ex_db; session := []; trace := [] |}.

(** Store 2 cannot be reached; the commit goes through or not.  The
    engine is PostgreSQL, and [fromtimestamp] converts every time of the
    years that a [datetime] holds. *)
Definition ex_env (commit_fails : bool) : Env :=
  {| config := ∅;
     store_delete := fun s _ _ =>
       if decide (store_id s = 2%Z) then Some (OtherException "IOError") else None;
     commit_fails := commit_fails;
     utcnow := 1500000000;
     utcoffset := fun _ => 0%Z;
     astropy_gps := fun _ => Raise (ValueError "could not convert string to float" []);
     fromtimestamp_raises := fun _ => None;
     like_folds_case := false;
     like_backslash_escapes := true |}.

(** ** Vocabulary for [set_one_file_deletion_policy] *)

(** The event that a policy change records, for a file whose name has no
    slash. *)
Definition policy_change_event (env : Env) (file : File.t) (inst : FileInstance.t)
    (policy : Z) : FileEvent.t :=
  {| FileEvent.name := File.name file;
     FileEvent.time := {| dt_seconds := utcnow env; dt_microsecond := 0 |};
     FileEvent.type := "instance_deletion_policy_changed";
     FileEvent.payload :=
       <["store_name" := PyStr (store_name (FileInstance.store_object inst))]>
         (<["parent_dirs" := PyStr (FileInstance.parent_dirs inst)]>
            (<["new_policy" := PyInt policy]> ∅)) |}.

(** The value that [parse_safe] gives a policy text. *)
Definition policy_of_text (text : string) : Z :=
  if decide (text = "allowed") then ALLOWED else DISALLOWED.

(** The warning of [parse_safe], if it makes one. *)
Definition parse_safe_calls (text : string) : list Effect :=
  if decide (text = "disallowed") then []
  else if decide (text = "allowed") then []
  else [LogWarn "unrecognized deletion policy %r; using DISALLOWED" [ArgStr text]].

(** The store that a name refers to. *)
Definition lookup_store (d : Database) (name : string) : option Store :=
  snd <$> list_find (fun s => store_name s = name) (db_stores d).

(** The file that a name refers to. *)
Definition lookup_file (d : Database) (name : string) : option File.t :=
  snd <$> list_find (fun f => File.name f = name) (db_files d).

(** The store filter of a request: none, the store of the given name, or
    nothing at all when no store has that name. *)
Definition resolve_filter (d : Database) (restrict_name : option string)
    : option (option Store) :=
  match restrict_name with
  | None => Some None
  | Some n => Some <$> lookup_store d n
  end.

(** The instance whose policy a request changes, if there is one. *)
Definition target_instance (d : Database) (file : File.t)
    (restrict_name : option string) : option FileInstance.t :=
  resolve_filter d restrict_name ≫= fun rs => first_instance rs (instances_of file d).

(** The rows of [file_instance] after the policy of [inst] is set. *)
Definition with_policy_at (inst : FileInstance.t) (policy : Z)
    (rows : list FileInstance.t) : list FileInstance.t :=
  (fun j => if decide (j = inst) then with_policy j policy else j) <$> rows.

(** A request that allows the protected instance of the example to go. *)
Definition ex_args : gmap string PyVal :=
  <["file_name" := PyStr "zen.12345.67890.uv"]>
    (<["deletion_policy" := PyStr "allowed"]>
       (<["restrict_to_store" := PyStr "pot2"]> ∅)).

(** ** Catalogs for the inference of observation ids *)

(** The configuration that selects the hera mode, on PostgreSQL. *)
Definition ex_env_hera : Env :=
  {| config := <["obsid_inference_mode" := "hera"]> ∅;
     store_delete := fun _ _ _ => None;
     commit_fails := false;
     utcnow := 1500000000;
     utcoffset := fun _ => 0%Z;
     astropy_gps := fun _ => Raise (ValueError "could not convert string to float" []);
     fromtimestamp_raises := fun _ => None;
     like_folds_case := false;
     like_backslash_escapes := true |}.

Definition file_named (name : string) (obsid : option Z) : File.t :=
  {| File.name := name;
     File.type := "uv";
     File.create_time := {| dt_seconds := 1483228800; dt_microsecond := 0 |};
     File.obsid := obsid;
     File.size := 1024;
     File.md5 := "d41d8cd98f00b204e9800998ecf8427e";
     File.source := "correlator" |}.

Definition world_of_files (files : list File.t) : World :=
  {| db := {| db_stores := []; db_files := files; db_instances := []; db_events := [] |};
     session := []; trace := [] |}.

(** One file under the prefix [zen.2458000.12345], registered without an
    observation. *)
Definition ex_world_null : World :=
  world_of_files [file_named "zen.2458000.12345.sum.txt" None].

(** One file of observation 7 whose name differs from the prefix
    [cal_1.2458000.12345] in its fourth character. *)
Definition ex_world_like : World :=
  world_of_files [file_named "calA1.2458000.12345.uv" (Some 7%Z)].

(** One file of observation 9 under the prefix [ZEN.2458000.12345], in
    capitals. *)
Definition ex_world_upper : World :=
  world_of_files [file_named "ZEN.2458000.12345.HH.uv" (Some 9%Z)].

(** The hera mode on SQLite, whose [LIKE] folds ASCII case and has no
    escape character. *)
Definition ex_env_hera_sqlite : Env :=
  {| config := config ex_env_hera;
     store_delete := store_delete ex_env_hera;
     commit_fails := commit_fails ex_env_hera;
     utcnow := utcnow ex_env_hera;
     utcoffset := utcoffset ex_env_hera;
     astropy_gps := astropy_gps ex_env_hera;
     fromtimestamp_raises := fromtimestamp_raises ex_env_hera;
     like_folds_case := true;
     like_backslash_escapes := false |}.

(** The files whose names start with a prefix followed by a dot. *)
Definition files_sharing_prefix (prefix : string) (d : Database) : list File.t :=
  filter (fun f => String.prefix (prefix +:+ ".") (File.name f) = true) (db_files d).

(** ** A server whose local time is two hours ahead of UTC *)

Definition ex_env_sast : Env :=
  {| config := ∅;
     store_delete := fun _ _ _ => None;
     commit_fails := false;
     utcnow := 1500000000;
     utcoffset := fun _ => 7200%Z;
     astropy_gps := fun _ => Raise (ValueError "could not convert string to float" []);
     fromtimestamp_raises := fun _ => None;
     like_folds_case := false;
     like_backslash_escapes := true |}.

(** [f] with another creation time and another source. *)
Definition reimported (f : File.t) (create_time : datetime) (source : string) : File.t :=
  {| File.name := File.name f; File.type := File.type f;
     File.create_time := create_time; File.obsid := File.obsid f;
     File.size := File.size f; File.md5 := File.md5 f;
     File.source := source |}.

(** The file of the scenarios, had it been created at
    9999-12-31T23:00:00. *)
Definition ex_late_file : File.t :=
  reimported ex_file {| dt_seconds := 253402297200; dt_microsecond := 0 |} "correlator".

(** ** Vocabulary for the rsync transfer manager *)

(** The [sysrsync.run] call that [transfer] makes for a pair of paths. *)
Definition run_of (env : Rsync.Env) (host : string) (pair : string * string) : Rsync.Run :=
  {| Rsync.run_source := fst pair;
     Rsync.run_destination := snd pair;
     Rsync.run_destination_ssh :=
       if decide (host ≠ Rsync.gethostname env) then Some host else None;
     Rsync.run_strict := true |}.

(** [sysrsync.run] returns for the pair. *)
Definition pair_succeeds (env : Rsync.Env) (host : string) (pair : string * string) : Prop :=
  Rsync.sysrsync_run env (run_of env host pair) = None.

Global Instance pair_succeeds_dec env host pair : Decision (pair_succeeds env host pair).
Proof. unfold pair_succeeds. apply _. Defined.

(** The pairs up to and including the first one whose run raises. *)
Fixpoint attempted_pairs (env : Rsync.Env) (host : string)
    (paths : list (string * string)) : list (string * string) :=
  match paths with
  | [] => []
  | p :: ps =>
      p :: match Rsync.sysrsync_run env (run_of env host p) with
           | None => attempted_pairs env host ps
           | Some _ => []
           end
  end.

(** What [transfer] makes of an exception of the run: the
    [AttributeError] of its [except] clause when [sysrsync] has no
    [RsyncError]; otherwise [False] for a [RsyncError] and the exception
    itself for any other. *)
Definition transfer_failure (env : Rsync.Env) (e : exn) : result bool :=
  if Rsync.sysrsync_has_RsyncError env then
    if is_RsyncError e then Return false else Raise e
  else Raise (OtherException "AttributeError").

(** How a batch ends: with [True] when every run returns, and otherwise
    with what [transfer] makes of the first exception of a run. *)
Fixpoint batch_result (env : Rsync.Env) (host : string)
    (paths : list (string * string)) : result bool :=
  match paths with
  | [] => Return true
  | p :: ps =>
      match Rsync.sysrsync_run env (run_of env host p) with
      | None => batch_result env host ps
      | Some e => transfer_failure env e
      end
  end.

(** The runs that a call adds. *)
Definition new_runs (s s' : Rsync.State) : list Rsync.Run :=
  drop (length (Rsync.runs s)) (Rsync.runs s').

(** The reading under which a batch runs a transfer for every pair of its
    list. *)
Definition attempts_every_pair (env : Rsync.Env) (paths : list (string * string))
    (s : Rsync.State) : Prop :=
  new_runs s (snd (Rsync.batch_transfer env paths s))
  = run_of env (Rsync.hostname (Rsync.self s)) <$> paths.

(** The reading under which whatever [sysrsync.run] raises for a pair
    comes out of [transfer] as [False]. *)
Definition every_exception_becomes_False (env : Rsync.Env)
    (local_path remote_path : string) (s : Rsync.State) : Prop :=
  forall e,
    Rsync.sysrsync_run env
      (run_of env (Rsync.hostname (Rsync.self s)) (local_path, remote_path)) = Some e ->
    fst (Rsync.transfer env local_path remote_path s) = Return false.

(** A manager on its own host, and a transfer layer that fails with
    [RsyncError] for the source [b] and with [OSError] for the source [x];
    [sysrsync] is as released, without a top-level [RsyncError]. *)
Definition ex_manager : Rsync.State :=
  {| Rsync.self := {| Rsync.hostname := "pot1.example";
                      Rsync.transfer_attempted := false;
                      Rsync.transfer_complete := false |};
     Rsync.runs := [] |}.

Definition ex_rsync_env : Rsync.Env :=
  {| Rsync.gethostname := "pot1.example";
     Rsync.sysrsync_run := fun r =>
       if decide (Rsync.run_source r = "b") then Some RsyncError
       else if decide (Rsync.run_source r = "x") then Some (OtherException "OSError")
       else None;
     Rsync.sysrsync_has_RsyncError := false |}.

(** The same transfer layer under a [sysrsync] that binds [RsyncError] at
    its top level. *)
Definition ex_rsync_env_bound : Rsync.Env :=
  {| Rsync.gethostname := Rsync.gethostname ex_rsync_env;
     Rsync.sysrsync_run := Rsync.sysrsync_run ex_rsync_env;
     Rsync.sysrsync_has_RsyncError := true |}.

Definition ex_paths : list (string * string) :=
  [("a", "/remote/a"); ("b", "/remote/b"); ("c", "/remote/c")].

(** A string without the characters that [LIKE] reads specially: the two
    wildcards, and the backslash when the engine escapes with it. *)
Definition no_specials (escape : bool) (s : string) : bool :=
  all_chars (fun c => negb (bool_decide (c = "%"%char) || bool_decide (c = "_"%char)
                            || escape && bool_decide (c = backslash))) s.

(** A text as the engine compares it: with its ASCII letters in lower
    case when the engine folds case. *)
Definition like_fold (fold : bool) (s : string) : string :=
  if fold then lower s else s.

(** The files whose names start with a prefix followed by a dot, for an
    engine that folds case or not. *)
Definition files_matching_prefix (fold : bool) (prefix : string) (d : Database)
    : list File.t :=
  filter (fun f => String.prefix (like_fold fold (prefix +:+ "."))
                                 (like_fold fold (File.name f)) = true)
         (db_files d).

(** A POSIX time that [fromtimestamp] converts on a server. *)
Definition converts (env : Env) (t : Z) : Prop :=
  fromtimestamp_raises env t = None
  ∧ (datetime_min_seconds <= t + utcoffset env t <= datetime_max_seconds)%Z.

Global Instance converts_dec env t : Decision (converts env t).
Proof. unfold converts. apply _. Defined.

(** ** The scenarios of the specification *)

(** The file has one instance, registered with the default policy. *)
Definition scenario_world : World :=
  {| db := {| db_stores := [ex_store1];
              db_files := [ex_file];
              db_instances := [with_policy ex_allowed DISALLOWED];
              db_events := [] |};
     session := []; trace := [] |}.

Definition scenario_policy_args : gmap string PyVal :=
  <["file_name" := PyStr "zen.12345.67890.uv"]>
    (<["deletion_policy" := PyStr "allowed"]> ∅).

(** The file has two instances, one that may go and one that may not. *)
Definition scenario_two_world : World :=
  {| db := {| db_stores := [ex_store1; ex_store2];
              db_files := [ex_file];
              db_instances := [ex_allowed; ex_protected];
              db_events := [] |};
     session := []; trace := [] |}.

(** ** The rest of [file.py]: instances, events and the other endpoints *)

(** FileInstance.__init__(store_obj, parent_dirs, name,
    deletion_policy=DeletionPolicy.DISALLOWED); [None] stands for the
    default of the last parameter. *)
Definition FileInstance_init (store_obj : Store) (parent_dirs name : string)
    (deletion_policy : option Z) : M World FileInstance.t :=
  if contains_char "/"%char name then
    raise (ValueError msg_illegal_file_name [PyStr name])
  else
    ret {| FileInstance.store := store_id store_obj;
           FileInstance.parent_dirs := parent_dirs;
           FileInstance.name := name;
           FileInstance.deletion_policy := default DISALLOWED deletion_policy;
           FileInstance.store_object := store_obj |}.

(** FileInstance.full_path_on_store:
    [os.path.join(prefix, parent_dirs, name)] joins from the left. *)
Definition full_path_on_store (i : FileInstance.t) : string :=
  path_join
    (path_join (path_prefix (FileInstance.store_object i)) (FileInstance.parent_dirs i))
    (FileInstance.name i).

(** FileInstance.deletion_policy_text *)
Definition deletion_policy_text (i : FileInstance.t) : string :=
  textualize (FileInstance.deletion_policy i).

(** FileInstance.to_dict *)
Definition FileInstance_to_dict (i : FileInstance.t) : gmap string PyVal :=
  <["store_name" := PyStr (store_name (FileInstance.store_object i))]>
    (<["store_ssh_host" := PyStr (ssh_host (FileInstance.store_object i))]>
       (<["parent_dirs" := PyStr (FileInstance.parent_dirs i)]>
          (<["name" := PyStr (FileInstance.name i)]>
             (<["deletion_policy" := PyStr (deletion_policy_text i)]>
                (<["full_path_on_store" := PyStr (full_path_on_store i)]> ∅))))).

(** File.make_instance_creation_event *)
Definition make_instance_creation_event (env : Env) (self : File.t)
    (instance : FileInstance.t) (store : Store) : M World FileEvent.t :=
  make_generic_event env self "create_instance"
    (<["store_name" := PyStr (store_name store)]>
       (<["parent_dirs" := PyStr (FileInstance.parent_dirs instance)]> ∅)).

(** File.make_copy_launched_event *)
Definition make_copy_launched_event (env : Env) (self : File.t)
    (connection_name remote_store_path : PyVal) : M World FileEvent.t :=
  make_generic_event env self "launch_copy"
    (<["connection_name" := connection_name]>
       (<["remote_store_path" := remote_store_path]> ∅)).

(** File.make_copy_finished_event(connection_name, remote_store_path,
    error_code, error_message, duration=None, average_rate=None): the two
    last entries are set only when the argument is not [None], and the
    keyword arguments of the call come first, [**extras] after them. *)
Definition make_copy_finished_event (env : Env) (self : File.t)
    (connection_name remote_store_path error_code error_message : PyVal)
    (duration average_rate : PyVal) : M World FileEvent.t :=
  let extras : gmap string PyVal := ∅ in
  let extras := if decide (duration ≠ PyNone)
                then <["duration" := duration]> extras else extras in
  let extras := if decide (average_rate ≠ PyNone)
                then <["average_rate" := average_rate]> extras else extras in
  make_generic_event env self "copy_finished"
    (extras ∪ (<["connection_name" := connection_name]>
                 (<["remote_store_path" := remote_store_path]>
                    (<["error_code" := error_code]>
                       (<["error_message" := error_message]> ∅))))).

(** What a request argument can be once a payload is among them. *)
Inductive ReqVal : Type :=
| Plain (v : PyVal)
| Dict (d : gmap string PyVal).

(** Modelled from the spec: [required_arg(args, str, name)] of [webutil],
    for requests that carry a dictionary among their arguments. *)
Definition required_req_str (args : gmap string ReqVal) (name : string) : M World string :=
  match args !! name with
  | Some (Plain (PyStr s)) => ret s
  | Some (Plain PyNone) | None =>
      raise (ServerError "required parameter %s not provided" [PyStr name])
  | Some _ =>
      raise (ServerError "parameter %s should be of type %s, but got %s"
               [PyStr name; PyStr "str"])
  end.

(** Modelled from the spec: [required_arg(args, dict, name)] of [webutil]. *)
Definition required_req_dict (args : gmap string ReqVal) (name : string)
    : M World (gmap string PyVal) :=
  match args !! name with
  | Some (Dict d) => ret d
  | Some (Plain PyNone) | None =>
      raise (ServerError "required parameter %s not provided" [PyStr name])
  | Some _ =>
      raise (ServerError "parameter %s should be of type %s, but got %s"
               [PyStr name; PyStr "dict"])
  end.

Definition msg_failed_to_add_event : string :=
  "failed to add event to database -- see server logs for details".

(** [file.make_generic_event(type, **payload)]: a key of the payload that
    names a parameter of the method makes the call itself fail with
    [TypeError]. *)
Definition call_make_generic_event (env : Env) (file : File.t) (type : string)
    (payload : gmap string PyVal) : M World FileEvent.t :=
  if decide (is_Some (payload !! "self") ∨ is_Some (payload !! "type")) then
    raise (OtherException "TypeError")
  else make_generic_event env file type payload.

(** create_file_event(args) *)
Definition create_file_event (env : Env) (args : gmap string ReqVal)
    : M World (gmap string PyVal) :=
  file_name <- required_req_str args "file_name" ;;
  type <- required_req_str args "type" ;;
  payload <- required_req_dict args "payload" ;;
  file <- File_query_get file_name ;;
  match file with
  | None => raise (ServerError msg_no_known_file [PyStr file_name])
  | Some file =>
      event <- call_make_generic_event env file type payload ;;
      session_add event ;;
      try_except (session_commit env) is_SQLAlchemyError
        (fun _ =>
           session_rollback ;;
           log_exception ;;
           raise (ServerError msg_failed_to_add_event [])) ;;
      ret ∅
  end.

(** locate_file_instance(args): the [for] loop returns in its first
    turn. *)
Definition locate_file_instance (args : gmap string PyVal)
    : M World (gmap string PyVal) :=
  file_name <- required_arg_str args "file_name" ;;
  file <- File_query_get file_name ;;
  match file with
  | None => raise (ServerError msg_no_known_file [PyStr file_name])
  | Some file =>
      insts <- instances file ;;
      match insts with
      | inst :: _ =>
          ret (<["full_path_on_store" := PyStr (full_path_on_store inst)]>
                 (<["store_name" := PyStr (inst_store_name inst)]>
                    (<["store_path" := PyStr (store_path inst)]>
                       (<["store_ssh_host" := PyStr (ssh_host (FileInstance.store_object inst))]>
                          ∅))))
      | [] => raise (ServerError msg_no_instances [PyStr file_name])
      end
  end.

(** The optional [restrict_to_store] argument of the deletion endpoints,
    looked up when it is given. *)
Definition restrict_to_store_arg (args : gmap string PyVal) : M World (option Store) :=
  restrict_to_store <- optional_arg_str args "restrict_to_store" ;;
  match restrict_to_store with
  | Some n => s <- Store_get_by_name n ;; ret (Some s)
  | None => ret None
  end.

(** optional_arg(args, str, 'mode', 'standard') *)
Definition mode_arg (args : gmap string PyVal) : M World string :=
  mode <- optional_arg_str args "mode" ;;
  ret (default "standard" mode).

(** delete_file_instances(args) *)
Definition delete_file_instances (env : Env) (args : gmap string PyVal)
    : M World Counts :=
  file_name <- required_arg_str args "file_name" ;;
  mode <- mode_arg args ;;
  restrict_to_store <- restrict_to_store_arg args ;;
  file <- File_query_get file_name ;;
  match file with
  | None => raise (ServerError msg_no_known_file [PyStr file_name])
  | Some file => delete_instances env file mode restrict_to_store
  end.

(** [compile_search(query, query_type='files')] of the [search] module,
    which is not among the sources, and the rows it gives when the loop
    starts to read it: an oracle. *)
Record SearchEnv : Type := mk_SearchEnv {
  search_env : Env;
  compile_search : string -> Database -> result (list File.t)
}.

Definition run_search (senv : SearchEnv) (query : string) : M World (list File.t) :=
  fun w => (compile_search senv query (db w), w).

(** One turn of the loop of [delete_file_instances_matching_query]:
    [stats[file.name] = file.delete_instances(...)]. *)
Definition matching_query_body (env : Env) (mode : string)
    (restrict_to_store : option Store) (file : File.t)
    (stats : gmap string Counts) : M World (gmap string Counts) :=
  c <- delete_instances env file mode restrict_to_store ;;
  ret (<[File.name file := c]> stats).

(** delete_file_instances_matching_query(args); the value returned is the
    one under the key [stats]. *)
Definition delete_file_instances_matching_query (senv : SearchEnv)
    (args : gmap string PyVal) : M World (gmap string Counts) :=
  query <- required_arg_str args "query" ;;
  mode <- mode_arg args ;;
  restrict_to_store <- restrict_to_store_arg args ;;
  query <- run_search senv query ;;
  for_each (matching_query_body (search_env senv) mode restrict_to_store) query ∅.

(** * Properties *)

(** ** The world under [extend] *)

Lemma extend_nil (w : World) : extend w [] [] = w.
Proof. destruct w. unfold extend. simpl. by rewrite !app_nil_r. Qed.

Lemma extend_extend (w : World) ops1 t1 ops2 t2 :
  extend (extend w ops1 t1) ops2 t2 = extend w (ops1 ++ ops2) (t1 ++ t2).
Proof. unfold extend. simpl. by rewrite !app_assoc. Qed.

Lemma new_calls_extend (w : World) ops t : new_calls w (extend w ops t) = t.
Proof. unfold new_calls, extend. simpl. by rewrite drop_app_length. Qed.

(** ** One turn of the deletion loop *)

Lemma FileEvent_init_ok env name type payload w :
  contains_char "/"%char name = false ->
  FileEvent_init env name type payload w =
    (Return {| FileEvent.name := name;
               FileEvent.time := {| dt_seconds := utcnow env; dt_microsecond := 0 |};
               FileEvent.type := type;
               FileEvent.payload := payload |}, w).
Proof. intros H. unfold FileEvent_init. by rewrite H. Qed.

Lemma FileEvent_init_slash env name type payload w :
  contains_char "/"%char name = true ->
  FileEvent_init env name type payload w =
    (Raise (ValueError msg_illegal_file_name [PyStr name]), w).
Proof. intros H. unfold FileEvent_init. by rewrite H. Qed.

Lemma delete_instances_body_exact env self noop need_chmod restrict inst c w :
  delete_instances_body env self noop need_chmod restrict inst c w =
    (body_result env self noop (Some need_chmod) restrict inst c,
     extend w (body_ops env self noop (Some need_chmod) restrict inst)
              (body_effects env noop (Some need_chmod) restrict inst)).
Proof.
  unfold delete_instances_body, body_result, body_ops, body_effects, classify.
  destruct (decide (FileInstance.deletion_policy inst ≠ ALLOWED)) as [Hp|Hp];
    [by rewrite extend_nil|].
  destruct (other_store restrict inst); [by rewrite extend_nil|].
  destruct noop; simpl.
  - unfold bind, try_except, logger_info, emit, ret, extend. simpl.
    by rewrite app_nil_r.
  - unfold bind, try_except, logger_info, logger_warn, store__delete, emit, ret,
      raise, extend. simpl.
    destruct (store_delete env _ _ _) as [e|]; simpl.
    + by rewrite app_nil_r, <- !app_assoc.
    + unfold make_instance_deletion_event, make_generic_event, event_fails.
      destruct (contains_char "/"%char (File.name self)) eqn:Hs.
      * rewrite FileEvent_init_slash by done. simpl.
        by rewrite app_nil_r, <- !app_assoc.
      * rewrite FileEvent_init_ok by done.
        unfold session_add, session_delete, session_push, set_session,
          deletion_event. simpl.
        by rewrite <- !app_assoc.
Qed.

Lemma old_delete_instances_body_exact env self inst c w :
  Old.delete_instances_body env self inst c w =
    (body_result env self false None None inst c,
     extend w (body_ops env self false None None inst)
              (body_effects env false None None inst)).
Proof.
  unfold Old.delete_instances_body, body_result, body_ops, body_effects, classify.
  destruct (decide (FileInstance.deletion_policy inst ≠ ALLOWED)) as [Hp|Hp];
    [by rewrite extend_nil|].
  simpl.
  unfold bind, try_except, logger_info, logger_warn, store__delete, emit, ret,
    raise, extend. simpl.
  destruct (store_delete env _ _ _) as [e|]; simpl.
  - by rewrite app_nil_r, <- !app_assoc.
  - unfold make_instance_deletion_event, make_generic_event, event_fails.
    destruct (contains_char "/"%char (File.name self)) eqn:Hs.
    + rewrite FileEvent_init_slash by done. simpl.
      by rewrite app_nil_r, <- !app_assoc.
    + rewrite FileEvent_init_ok by done.
      unfold session_add, session_delete, session_push, set_session,
        deletion_event. simpl.
      by rewrite <- !app_assoc.
Qed.

(** ** The deletion loop, for any body that behaves as the two snapshots'
    bodies do *)

Section DeletionLoop.

Context (env : Env) (self : File.t) (noop : bool) (chmod : option bool)
  (restrict : option Store).
Context (body : FileInstance.t -> Counts -> M World Counts).
Hypothesis body_exact : forall i c w,
  body i c w =
    (body_result env self noop chmod restrict i c,
     extend w (body_ops env self noop chmod restrict i)
              (body_effects env noop chmod restrict i)).

Lemma body_result_Return i c c' :
  body_result env self noop chmod restrict i c = Return c' ->
  c' = bump (classify env noop chmod restrict i) c.
Proof.
  unfold body_result.
  destruct (classify env noop chmod restrict i); simpl; try congruence.
  destruct (negb noop && event_fails self); congruence.
Qed.

Lemma body_result_ok i c :
  noop = true ∨ event_fails self = false ->
  body_result env self noop chmod restrict i c
  = Return (bump (classify env noop chmod restrict i) c).
Proof.
  intros H. unfold body_result.
  destruct (classify env noop chmod restrict i); simpl; try done.
  destruct H as [-> | ->]; simpl; [done|].
  by rewrite andb_false_r.
Qed.

(** The loop works through a prefix of the instances; when it returns it
    has gone through all of them and the counters are the tally. *)
Lemma for_each_prefix insts : forall c w,
  ∃ k,
    snd (for_each body insts c w)
    = extend w (take k insts ≫= body_ops env self noop chmod restrict)
               (take k insts ≫= body_effects env noop chmod restrict)
    ∧ (forall c', fst (for_each body insts c w) = Return c' ->
         c' = tally (classify env noop chmod restrict) insts c
         ∧ take k insts = insts).
Proof.
  induction insts as [|i l IH]; intros c w.
  - exists 0%nat. simpl. split; [by rewrite extend_nil|].
    unfold ret. simpl. intros c' [= <-]. done.
  - simpl. unfold bind. rewrite body_exact.
    destruct (body_result env self noop chmod restrict i c) as [c1|e] eqn:Hr.
    + destruct (IH c1 (extend w (body_ops env self noop chmod restrict i)
                              (body_effects env noop chmod restrict i)))
        as (k & Hw & Hc).
      exists (S k). simpl. split.
      * rewrite Hw, extend_extend. done.
      * intros c' Hc'. destruct (Hc c' Hc') as [-> ->].
        apply body_result_Return in Hr as ->. done.
    + exists 1%nat. simpl. split; [|done].
      by rewrite !app_nil_r.
Qed.

(** With a slash-free file name, or in noop mode, every turn returns. *)
Lemma for_each_total insts : forall c w,
  noop = true ∨ event_fails self = false ->
  for_each body insts c w
  = (Return (tally (classify env noop chmod restrict) insts c),
     extend w (insts ≫= body_ops env self noop chmod restrict)
              (insts ≫= body_effects env noop chmod restrict)).
Proof.
  induction insts as [|i l IH]; intros c w H.
  - simpl. unfold ret. by rewrite extend_nil.
  - simpl. unfold bind. rewrite body_exact, body_result_ok by done.
    rewrite IH by done. by rewrite extend_extend.
Qed.

End DeletionLoop.

(** ** [delete_instances] in terms of its loop *)

Lemma delete_instances_standard env self restrict w :
  delete_instances env self "standard" restrict w
  = finish_standard env
      (delete_instances_loop env self false (need_chmod_of env) restrict
         (instances_of self (db w)) zero_counts w).
Proof.
  unfold delete_instances, finish_standard. simpl.
  unfold bind at 1. simpl. unfold bind at 1. unfold instances at 1. simpl.
  unfold bind at 1.
  destruct (delete_instances_loop _ _ _ _ _ _ _ _) as [[c|e] w1]; [|done].
  unfold bind, try_except, session_commit, session_rollback, log_exception,
    emit, raise, ret, set_session. simpl.
  destruct (commit_fails env); simpl; [|done].
  by rewrite <- !app_assoc.
Qed.

Lemma delete_instances_noop env self restrict w :
  delete_instances env self "noop" restrict w
  = delete_instances_loop env self true (need_chmod_of env) restrict
      (instances_of self (db w)) zero_counts w.
Proof.
  unfold delete_instances. simpl.
  unfold bind at 1. simpl. unfold bind at 1. unfold instances at 1. simpl.
  unfold bind at 1.
  destruct (delete_instances_loop _ _ _ _ _ _ _ _) as [[c|e] w1]; done.
Qed.

Lemma delete_instances_bad_mode env self mode restrict w :
  mode ≠ "standard" -> mode ≠ "noop" ->
  delete_instances env self mode restrict w
  = (Raise (ServerError "unexpected deletion operations mode %r" [PyStr mode]), w).
Proof.
  intros H1 H2. unfold delete_instances.
  destruct (decide (mode = "standard")); [done|].
  destruct (decide (mode = "noop")); [done|].
  done.
Qed.

Lemma old_delete_instances_unfold env self w :
  Old.delete_instances env self w
  = finish_old env
      (Old.delete_instances_loop env self (instances_of self (db w)) zero_counts w).
Proof.
  unfold Old.delete_instances, finish_old.
  unfold bind at 1. unfold instances at 1. simpl.
  unfold bind at 1.
  destruct (Old.delete_instances_loop _ _ _ _ _) as [[c|e] w1]; [|done].
  unfold bind, session_commit, emit, raise, ret. simpl.
  destruct (commit_fails env); done.
Qed.

(** ** The tally and the classification *)

Lemma classify_cases env noop chmod restrict i :
  (classify env noop chmod restrict i = Kept ∧ ¬ attempted restrict i)
  ∨ (classify env noop chmod restrict i = Deleted
     ∧ attempted restrict i ∧ (noop = true ∨ succeeded env chmod i))
  ∨ (∃ e, classify env noop chmod restrict i = Errored e
          ∧ attempted restrict i ∧ noop = false ∧ ¬ succeeded env chmod i).
Proof.
  unfold classify, attempted, succeeded.
  destruct (decide (FileInstance.deletion_policy i ≠ ALLOWED)) as [Hp|Hp].
  { left. split; [done|]. intros [? _]. done. }
  apply dec_stable in Hp.
  destruct (other_store restrict i) eqn:Ho.
  { left. split; [done|]. intros [_ ?]. done. }
  destruct noop.
  { right. left. auto. }
  destruct (store_delete env _ _ _) as [e|] eqn:Hd.
  - right. right. exists e. repeat split; auto; congruence.
  - right. left. auto.
Qed.

Lemma tally_total cl insts : forall c,
  total (tally cl insts c) = (total c + Z.of_nat (length insts))%Z.
Proof.
  unfold tally. induction insts as [|i l IH]; intros c; simpl.
  - lia.
  - rewrite IH. destruct (cl i); unfold total; simpl; lia.
Qed.

Lemma tally_counts env noop chmod restrict insts : forall c,
  n_kept (tally (classify env noop chmod restrict) insts c)
  = (n_kept c + Z.of_nat (length (filter (fun i => ¬ attempted restrict i) insts)))%Z
  ∧ n_deleted (tally (classify env noop chmod restrict) insts c)
    = (n_deleted c
       + Z.of_nat (length (filter (fun i => attempted restrict i
                                            ∧ (noop = true ∨ succeeded env chmod i)) insts)))%Z
  ∧ n_error (tally (classify env noop chmod restrict) insts c)
    = (n_error c
       + Z.of_nat (length (filter (fun i => attempted restrict i ∧ noop = false
                                            ∧ ¬ succeeded env chmod i) insts)))%Z.
Proof.
  induction insts as [|i l IH]; intros c.
  - simpl. repeat split; lia.
  - unfold tally in *. simpl. destruct (IH (bump (classify env noop chmod restrict i) c))
      as (Hk & Hd & He).
    rewrite Hk, Hd, He. clear IH Hk Hd He.
    rewrite !filter_cons.
    destruct (classify_cases env noop chmod restrict i)
      as [[-> H]|[(-> & H1 & H2)|(e & -> & H1 & H2 & H3)]]; simpl.
    + rewrite decide_True by done.
      rewrite !decide_False by tauto. simpl. repeat split; lia.
    + rewrite decide_False by tauto.
      rewrite decide_True by tauto.
      rewrite decide_False by (destruct H2 as [->|?]; [intros (_ & ? & _); done | tauto]).
      simpl. repeat split; lia.
    + rewrite decide_False by tauto.
      rewrite decide_False by (subst noop; intros [_ [?|?]]; done).
      rewrite decide_True by tauto.
      simpl. repeat split; lia.
Qed.

(** ** The calls and the pending operations of the loop *)

Lemma store_deletes_app t1 t2 :
  store_deletes (t1 ++ t2) = store_deletes t1 ++ store_deletes t2.
Proof. apply omap_app. Qed.

Lemma effects_store_deletes env chmod restrict insts :
  store_deletes (insts ≫= body_effects env false chmod restrict)
  = delete_call_of chmod <$> filter (attempted restrict) insts.
Proof.
  induction insts as [|i l IH]; [done|].
  rewrite bind_cons, store_deletes_app, IH, filter_cons.
  unfold body_effects.
  destruct (classify_cases env false chmod restrict i)
    as [[-> H]|[(-> & H1 & H2)|(e & -> & H1 & H2 & H3)]]; simpl.
  - by rewrite decide_False.
  - by rewrite decide_True.
  - by rewrite decide_True.
Qed.

Lemma effects_noop env chmod restrict insts :
  Forall is_LogInfo (insts ≫= body_effects env true chmod restrict).
Proof.
  induction insts as [|i l IH]; [constructor|].
  rewrite bind_cons. apply Forall_app. split; [|done].
  unfold body_effects.
  destruct (classify_cases env true chmod restrict i)
    as [[-> H]|[(-> & H1 & H2)|(e & -> & H1 & H2 & H3)]]; simpl;
    repeat constructor; done.
Qed.

Lemma ops_noop env self chmod restrict insts :
  insts ≫= body_ops env self true chmod restrict = [].
Proof.
  induction insts as [|i l IH]; [done|].
  rewrite bind_cons, IH. unfold body_ops.
  by destruct (classify env true chmod restrict i).
Qed.

(** Every store call of the loop is made for an instance that passed the
    interlock. *)
Lemma effects_only_attempted env noop chmod restrict insts s p c :
  StoreDelete s p c ∈ insts ≫= body_effects env noop chmod restrict ->
  ∃ j, j ∈ insts ∧ attempted restrict j
       ∧ s = FileInstance.store_object j ∧ p = store_path j.
Proof.
  intros (j & Hin & Hj)%list_elem_of_bind. exists j.
  unfold body_effects in Hin.
  destruct (classify_cases env noop chmod restrict j)
    as [[Hc H]|[(Hc & H1 & H2)|(e & Hc & H1 & H2 & H3)]]; rewrite Hc in Hin.
  - by apply elem_of_nil in Hin.
  - destruct noop.
    + apply list_elem_of_singleton in Hin. done.
    + apply elem_of_cons in Hin as [?|Hin]; [done|].
      apply list_elem_of_singleton in Hin. by simplify_eq.
  - apply elem_of_cons in Hin as [?|Hin]; [done|].
    apply elem_of_cons in Hin as [?|Hin]; [by simplify_eq|].
    apply list_elem_of_singleton in Hin. done.
Qed.

(** Every pending operation of the loop is the addition of an event or
    the deletion of an instance that passed the interlock. *)
Lemma ops_only_attempted env self noop chmod restrict insts op :
  op ∈ insts ≫= body_ops env self noop chmod restrict ->
  (∃ e, op = SessAdd e)
  ∨ (∃ j, op = SessDelete j ∧ j ∈ insts ∧ attempted restrict j).
Proof.
  intros (j & Hin & Hj)%list_elem_of_bind.
  unfold body_ops in Hin.
  destruct (classify_cases env noop chmod restrict j)
    as [[Hc H]|[(Hc & H1 & H2)|(e & Hc & H1 & H2 & H3)]]; rewrite Hc in Hin.
  - by apply elem_of_nil in Hin.
  - destruct (noop || event_fails self); [by apply elem_of_nil in Hin|].
    apply elem_of_cons in Hin as [->|Hin]; [left; eauto|].
    apply list_elem_of_singleton in Hin as ->. right. eauto.
  - by apply elem_of_nil in Hin.
Qed.

Lemma ops_standard env self chmod restrict insts :
  event_fails self = false ->
  insts ≫= body_ops env self false chmod restrict
  = filter (fun i => attempted restrict i ∧ succeeded env chmod i) insts
      ≫= (fun i => [SessAdd (deletion_event env self i); SessDelete i]).
Proof.
  intros Hv. induction insts as [|i l IH]; [done|].
  rewrite bind_cons, IH, filter_cons. unfold body_ops. rewrite Hv.
  destruct (classify_cases env false chmod restrict i)
    as [[-> H]|[(-> & H1 & H2)|(e & -> & H1 & H2 & H3)]]; simpl.
  - rewrite decide_False by tauto. done.
  - destruct H2 as [?|H2]; [done|].
    rewrite decide_True by tauto. by rewrite bind_cons.
  - rewrite decide_False by tauto. done.
Qed.

(** ** What a commit does to the tables *)

Lemma apply_ops_app ops1 ops2 d :
  apply_ops (ops1 ++ ops2) d = apply_ops ops2 (apply_ops ops1 d).
Proof. apply foldl_app. Qed.

Lemma filter_all {A} (P : A -> Prop) `{!forall x, Decision (P x)} (l : list A) :
  (forall x, x ∈ l -> P x) -> filter P l = l.
Proof.
  induction l as [|x l IH]; intros Hall; [done|].
  rewrite filter_cons_True by (apply Hall; left).
  f_equal. apply IH. intros y Hy. apply Hall. by right.
Qed.

Lemma apply_deletions ev l : forall d,
  apply_ops (l ≫= (fun i => [SessAdd (ev i); SessDelete i])) d
  = {| db_stores := db_stores d; db_files := db_files d;
       db_instances :=
         filter (fun j => inst_key j ∉ inst_key <$> l) (db_instances d);
       db_events := db_events d ++ (ev <$> l) |}.
Proof.
  induction l as [|i l IH]; intros d.
  - simpl. destruct d. simpl. rewrite app_nil_r. f_equal.
    symmetry. apply filter_all. intros x _. apply not_elem_of_nil.
  - rewrite bind_cons, apply_ops_app, IH. simpl. f_equal.
    + rewrite list_filter_filter. apply list_filter_iff.
      intros j. rewrite not_elem_of_cons. tauto.
    + by rewrite <- app_assoc.
Qed.

(** A row stays when no pending operation names its key. *)
Lemma apply_ops_keeps i ops : forall d,
  i ∈ db_instances d ->
  (forall j, SessDelete j ∈ ops -> inst_key j ≠ inst_key i) ->
  (forall j p, SessSetPolicy j p ∉ ops) ->
  i ∈ db_instances (apply_ops ops d).
Proof.
  induction ops as [|op ops IH]; intros d Hi Hd Hs; [done|].
  simpl. apply IH.
  - destruct op as [e|j|j p]; simpl; [done| |].
    + apply list_elem_of_filter. split; [|done].
      intros Hk. eapply Hd; [left|]; done.
    + exfalso. eapply Hs. left.
  - intros j Hj. apply Hd. by right.
  - intros j p Hj. eapply Hs. right. done.
Qed.

(** Without policy changes, a commit only takes rows away. *)
Lemma apply_ops_sublist ops : forall d,
  (forall j p, SessSetPolicy j p ∉ ops) ->
  db_instances (apply_ops ops d) `sublist_of` db_instances d.
Proof.
  induction ops as [|op ops IH]; intros d Hs; [done|].
  simpl. etrans; [apply IH|].
  - intros j p Hj. eapply Hs. right. done.
  - destruct op as [e|j|j p]; simpl; [done| |].
    + apply sublist_filter.
    + exfalso. eapply Hs. left.
Qed.

(** ** The interlock *)

Lemma NoDup_fmap_eq {A B} (f : A -> B) (l : list A) x y :
  NoDup (f <$> l) -> x ∈ l -> y ∈ l -> f x = f y -> x = y.
Proof.
  induction l as [|a l IH]; intros Hnd Hx Hy Hf.
  - by apply elem_of_nil in Hx.
  - rewrite fmap_cons in Hnd. apply NoDup_cons in Hnd as [Ha Hnd].
    apply elem_of_cons in Hx as [->|Hx]; apply elem_of_cons in Hy as [->|Hy].
    + done.
    + exfalso. apply Ha. rewrite Hf. by apply list_elem_of_fmap_2.
    + exfalso. apply Ha. rewrite <- Hf. by apply list_elem_of_fmap_2.
    + by apply IH.
Qed.

Lemma filter_length_mono {A} (P Q : A -> Prop)
    `{!forall x, Decision (P x), !forall x, Decision (Q x)} (l : list A) :
  (forall x, P x -> Q x) -> length (filter P l) ≤ length (filter Q l).
Proof.
  intros HPQ. rewrite <- (list_filter_filter_l P Q l) by done.
  apply length_filter.
Qed.

Lemma instances_of_elem self d i :
  i ∈ instances_of self d -> i ∈ db_instances d.
Proof. unfold instances_of. rewrite list_elem_of_filter. tauto. Qed.

(** The pending operations of a loop never touch a protected row. *)
Lemma loop_ops_keep env self noop chmod restrict d k i :
  unique_keys d ->
  i ∈ db_instances d ->
  FileInstance.deletion_policy i ≠ ALLOWED ->
  i ∈ db_instances
        (apply_ops (take k (instances_of self d)
                      ≫= body_ops env self noop chmod restrict) d).
Proof.
  intros Hnd Hi Hp. apply apply_ops_keeps; [done| |].
  - intros j Hj Hk.
    apply ops_only_attempted in Hj as [[e ?]|(j' & [= <-] & Hj & Hatt)]; [done|].
    apply subseteq_take, instances_of_elem in Hj.
    assert (j = i) as -> by (eapply NoDup_fmap_eq; done).
    destruct Hatt as [? _]. done.
  - intros j p Hj.
    apply ops_only_attempted in Hj as [[e ?]|(j' & ? & _)]; done.
Qed.

Lemma loop_ops_sublist env self noop chmod restrict d k :
  db_instances
    (apply_ops (take k (instances_of self d)
                  ≫= body_ops env self noop chmod restrict) d)
  `sublist_of` db_instances d.
Proof.
  apply apply_ops_sublist. intros j p Hj.
  apply ops_only_attempted in Hj as [[e ?]|(j' & ? & _)]; done.
Qed.

Lemma loop_calls_allowed env self noop chmod restrict d k s p c :
  StoreDelete s p c
    ∈ take k (instances_of self d) ≫= body_effects env noop chmod restrict ->
  ∃ j, j ∈ instances_of self d ∧ FileInstance.deletion_policy j = ALLOWED
       ∧ s = FileInstance.store_object j ∧ p = store_path j.
Proof.
  intros (j & Hj & [Hp _] & -> & ->)%effects_only_attempted.
  exists j. split; [by eapply subseteq_take|done].
Qed.

Lemma kept_covers_protected env noop chmod restrict insts :
  (Z.of_nat (length (filter (fun i => FileInstance.deletion_policy i ≠ ALLOWED) insts))
   <= n_kept (tally (classify env noop chmod restrict) insts zero_counts))%Z.
Proof.
  destruct (tally_counts env noop chmod restrict insts zero_counts) as [-> _].
  simpl. apply inj_le. apply filter_length_mono.
  intros i Hp [? _]. done.
Qed.

Lemma interlock_generic env self noop chmod restrict body
    (finish : result Counts * World -> result Counts * World) w :
  (forall i c w0,
     body i c w0 =
       (body_result env self noop chmod restrict i c,
        extend w0 (body_ops env self noop chmod restrict i)
                  (body_effects env noop chmod restrict i))) ->
  (forall r1 w1,
     (db (snd (finish (r1, w1))) = db w1
      ∨ db (snd (finish (r1, w1))) = apply_ops (session w1) (db w1))
     ∧ (∃ t', trace (snd (finish (r1, w1))) = trace w1 ++ t'
              ∧ forall s p c, StoreDelete s p c ∉ t')
     ∧ (forall c, fst (finish (r1, w1)) = Return c -> r1 = Return c)) ->
  session w = [] ->
  unique_keys (db w) ->
  interlock_respected self w
    (finish (for_each body (instances_of self (db w)) zero_counts w)).
Proof.
  intros Hbody Hfin Hsess Hnd.
  destruct (for_each_prefix env self noop chmod restrict body Hbody
              (instances_of self (db w)) zero_counts w) as (k & Hw & Hc).
  destruct (for_each body (instances_of self (db w)) zero_counts w) as [r1 w1].
  simpl in Hw, Hc. subst w1.
  destruct (Hfin r1 (extend w
              (take k (instances_of self (db w)) ≫= body_ops env self noop chmod restrict)
              (take k (instances_of self (db w)) ≫= body_effects env noop chmod restrict)))
    as (Hdb & (t' & Htr & Ht') & Hret).
  unfold interlock_respected. split; [|split].
  - intros i Hi Hp. destruct Hdb as [-> | ->]; simpl; [done|].
    rewrite Hsess. simpl. by apply loop_ops_keep.
  - eexists. split.
    + rewrite Htr. simpl. rewrite <- app_assoc. done.
    + intros s p c [Hin|Hin]%elem_of_app.
      * by eapply loop_calls_allowed.
      * by apply Ht' in Hin.
  - intros c Hr. apply Hret in Hr. destruct (Hc c Hr) as [-> _].
    apply kept_covers_protected.
Qed.

Lemma finish_standard_benign env r1 w1 :
  (db (snd (finish_standard env (r1, w1))) = db w1
   ∨ db (snd (finish_standard env (r1, w1))) = apply_ops (session w1) (db w1))
  ∧ (∃ t', trace (snd (finish_standard env (r1, w1))) = trace w1 ++ t'
           ∧ forall s p c, StoreDelete s p c ∉ t')
  ∧ (forall c, fst (finish_standard env (r1, w1)) = Return c -> r1 = Return c).
Proof.
  unfold finish_standard. destruct r1 as [c1|e]; [destruct (commit_fails env)|]; simpl.
  - split; [by left|]. split; [|done].
    eexists. split; [done|]. intros s p c Hin.
    repeat (apply elem_of_cons in Hin as [?|Hin]; [done|]). by apply elem_of_nil in Hin.
  - split; [by right|]. split; [|done].
    eexists. split; [done|]. intros s p c Hin.
    repeat (apply elem_of_cons in Hin as [?|Hin]; [done|]). by apply elem_of_nil in Hin.
  - split; [by left|]. split; [|done].
    exists []. split; [by rewrite app_nil_r|]. intros s p c. apply not_elem_of_nil.
Qed.

Lemma finish_old_benign env r1 w1 :
  (db (snd (finish_old env (r1, w1))) = db w1
   ∨ db (snd (finish_old env (r1, w1))) = apply_ops (session w1) (db w1))
  ∧ (∃ t', trace (snd (finish_old env (r1, w1))) = trace w1 ++ t'
           ∧ forall s p c, StoreDelete s p c ∉ t')
  ∧ (forall c, fst (finish_old env (r1, w1)) = Return c -> r1 = Return c).
Proof.
  unfold finish_old. destruct r1 as [c1|e]; [destruct (commit_fails env)|]; simpl.
  - split; [by left|]. split; [|done].
    eexists. split; [done|]. intros s p c Hin.
    repeat (apply elem_of_cons in Hin as [?|Hin]; [done|]). by apply elem_of_nil in Hin.
  - split; [by right|]. split; [|done].
    eexists. split; [done|]. intros s p c Hin.
    repeat (apply elem_of_cons in Hin as [?|Hin]; [done|]). by apply elem_of_nil in Hin.
  - split; [by left|]. split; [|done].
    exists []. split; [by rewrite app_nil_r|]. intros s p c. apply not_elem_of_nil.
Qed.

Lemma interlock_delete_instances env self mode restrict w :
  session w = [] ->
  unique_keys (db w) ->
  interlock_respected self w (delete_instances env self mode restrict w).
Proof.
  intros Hsess Hnd.
  destruct (decide (mode = "standard")) as [->|Hm1].
  { rewrite delete_instances_standard.
    apply (interlock_generic env self false (Some (need_chmod_of env)) restrict);
      auto using delete_instances_body_exact, finish_standard_benign. }
  destruct (decide (mode = "noop")) as [->|Hm2].
  { rewrite delete_instances_noop.
    apply (interlock_generic env self true (Some (need_chmod_of env)) restrict _ id);
      auto using delete_instances_body_exact.
    intros r1 w1. simpl. split; [by left|]. split; [|done].
    exists []. split; [by rewrite app_nil_r|]. intros s p c. apply not_elem_of_nil. }
  rewrite delete_instances_bad_mode by done.
  unfold interlock_respected. simpl. split; [done|]. split; [|done].
  exists []. split; [by rewrite app_nil_r|].
  intros s p c Hin. by apply elem_of_nil in Hin.
Qed.

Lemma interlock_old_delete_instances env self w :
  session w = [] ->
  unique_keys (db w) ->
  interlock_respected self w (Old.delete_instances env self w).
Proof.
  intros Hsess Hnd. rewrite old_delete_instances_unfold.
  apply (interlock_generic env self false None None);
    auto using old_delete_instances_body_exact, finish_old_benign.
Qed.

(** ** Sequences of deletion requests *)

Lemma sublist_generic env self noop chmod restrict body
    (finish : result Counts * World -> result Counts * World) w :
  (forall i c w0,
     body i c w0 =
       (body_result env self noop chmod restrict i c,
        extend w0 (body_ops env self noop chmod restrict i)
                  (body_effects env noop chmod restrict i))) ->
  (forall r1 w1,
     db (snd (finish (r1, w1))) = db w1
     ∨ db (snd (finish (r1, w1))) = apply_ops (session w1) (db w1)) ->
  session w = [] ->
  db_instances (db (snd (finish (for_each body (instances_of self (db w)) zero_counts w))))
  `sublist_of` db_instances (db w).
Proof.
  intros Hbody Hfin Hsess.
  destruct (for_each_prefix env self noop chmod restrict body Hbody
              (instances_of self (db w)) zero_counts w) as (k & Hw & _).
  destruct (for_each body (instances_of self (db w)) zero_counts w) as [r1 w1].
  simpl in Hw. subst w1.
  destruct (Hfin r1 (extend w
              (take k (instances_of self (db w)) ≫= body_ops env self noop chmod restrict)
              (take k (instances_of self (db w)) ≫= body_effects env noop chmod restrict)))
    as [-> | ->]; simpl; [done|].
  rewrite Hsess. simpl. apply loop_ops_sublist.
Qed.

Lemma run_call_sublist w call :
  db_instances (db (run_call w call)) `sublist_of` db_instances (db w).
Proof.
  destruct call as [env self mode restrict|env self]; simpl.
  - destruct (decide (mode = "standard")) as [->|Hm1].
    { rewrite delete_instances_standard.
      apply (sublist_generic env self false (Some (need_chmod_of env)) restrict
               _ _ (set_session w []));
        auto using delete_instances_body_exact.
      intros r1 w1. apply finish_standard_benign. }
    destruct (decide (mode = "noop")) as [->|Hm2].
    { rewrite delete_instances_noop.
      apply (sublist_generic env self true (Some (need_chmod_of env)) restrict
               _ id (set_session w []));
        auto using delete_instances_body_exact. }
    by rewrite delete_instances_bad_mode.
  - rewrite old_delete_instances_unfold.
    apply (sublist_generic env self false None None _ _ (set_session w []));
      auto using old_delete_instances_body_exact.
    intros r1 w1. apply finish_old_benign.
Qed.

Lemma unique_keys_sublist d d' :
  db_instances d' `sublist_of` db_instances d -> unique_keys d -> unique_keys d'.
Proof.
  unfold unique_keys. intros Hsub Hnd.
  eapply sublist_NoDup; [exact Hnd|]. by apply fmap_sublist.
Qed.

Lemma run_call_keeps w call i :
  unique_keys (db w) ->
  i ∈ db_instances (db w) ->
  FileInstance.deletion_policy i ≠ ALLOWED ->
  i ∈ db_instances (db (run_call w call)).
Proof.
  intros Hnd Hi Hp. destruct call as [env self mode restrict|env self]; simpl.
  - by apply (interlock_delete_instances env self mode restrict (set_session w [])).
  - by apply (interlock_old_delete_instances env self (set_session w [])).
Qed.

Lemma run_calls_keep calls : forall w i,
  unique_keys (db w) ->
  i ∈ db_instances (db w) ->
  FileInstance.deletion_policy i ≠ ALLOWED ->
  i ∈ db_instances (db (run_calls calls w)).
Proof.
  induction calls as [|call calls IH]; intros w i Hnd Hi Hp; [done|].
  simpl. apply IH; [|by apply run_call_keeps|done].
  eapply unique_keys_sublist; [apply run_call_sublist|done].
Qed.

(** ** Standard mode with a commit that goes through *)

Lemma loop_standard_exact env self restrict w :
  event_fails self = false ->
  delete_instances_loop env self false (need_chmod_of env) restrict
    (instances_of self (db w)) zero_counts w
  = (Return (tally (classify env false (Some (need_chmod_of env)) restrict)
               (instances_of self (db w)) zero_counts),
     extend w
       (pending_deletions env self (Some (need_chmod_of env)) restrict
          (instances_of self (db w)))
       (instances_of self (db w)
          ≫= body_effects env false (Some (need_chmod_of env)) restrict)).
Proof.
  intros Hv. unfold delete_instances_loop, pending_deletions.
  rewrite (for_each_total env self false (Some (need_chmod_of env)) restrict)
    by auto using delete_instances_body_exact.
  by rewrite ops_standard.
Qed.

Lemma old_loop_exact env self w :
  event_fails self = false ->
  Old.delete_instances_loop env self (instances_of self (db w)) zero_counts w
  = (Return (tally (classify env false None None)
               (instances_of self (db w)) zero_counts),
     extend w
       (pending_deletions env self None None (instances_of self (db w)))
       (instances_of self (db w) ≫= body_effects env false None None)).
Proof.
  intros Hv. unfold Old.delete_instances_loop, pending_deletions.
  rewrite (for_each_total env self false None None)
    by auto using old_delete_instances_body_exact.
  by rewrite ops_standard.
Qed.

Lemma committed_outcome env self chmod restrict w :
  session w = [] ->
  unique_keys (db w) ->
  removes_exactly_the_deleted env self chmod restrict w
    (Return (tally (classify env false chmod restrict)
               (instances_of self (db w)) zero_counts),
     {| db := apply_ops
                (session w ++ pending_deletions env self chmod restrict
                                (instances_of self (db w)))
                (db w);
        session := [];
        trace := (trace w ++ (instances_of self (db w)
                                ≫= body_effects env false chmod restrict))
                 ++ [Commit] |}).
Proof.
  intros Hsess Hnd. unfold removes_exactly_the_deleted, pending_deletions. simpl.
  rewrite Hsess. simpl. rewrite apply_deletions. simpl.
  split; [|split; [|split]].
  - eexists. split; [done|].
    destruct (tally_counts env false chmod restrict
                (instances_of self (db w)) zero_counts) as (_ & -> & ->).
    simpl. rewrite !Z.add_0_l.
    split; f_equal; f_equal; apply list_filter_iff; intros i;
      intuition congruence.
  - intros i Hi Hatt. rewrite list_elem_of_filter. split.
    + intros Hni. destruct (decide (succeeded env chmod i)) as [|Hns]; [done|].
      exfalso. apply Hni. split; [|by eapply instances_of_elem].
      intros (j & Hk & Hj)%list_elem_of_fmap.
      apply list_elem_of_filter in Hj as [[_ Hsj] Hj].
      assert (i = j) as -> by
        (eapply NoDup_fmap_eq; eauto using instances_of_elem).
      done.
    + intros Hs [Hk _]. apply Hk. apply list_elem_of_fmap_2.
      apply list_elem_of_filter. done.
  - done.
  - unfold new_calls. simpl. rewrite <- app_assoc, drop_app_length.
    rewrite store_deletes_app, effects_store_deletes. simpl. by rewrite app_nil_r.
Qed.

(** ** The counters of a request that returns *)

Lemma delete_instances_Return env self mode restrict w c :
  fst (delete_instances env self mode restrict w) = Return c ->
  c = tally (classify env (bool_decide (mode = "noop"))
               (Some (need_chmod_of env)) restrict)
        (instances_of self (db w)) zero_counts.
Proof.
  destruct (decide (mode = "standard")) as [->|Hm1].
  { rewrite delete_instances_standard. unfold delete_instances_loop.
    destruct (for_each_prefix env self false (Some (need_chmod_of env)) restrict
                _ (delete_instances_body_exact env self false (need_chmod_of env) restrict)
                (instances_of self (db w)) zero_counts w) as (k & _ & Hc).
    destruct (for_each _ _ _ _) as [r1 w1]. intros Hr.
    apply finish_standard_benign in Hr. by apply Hc in Hr as [-> _]. }
  destruct (decide (mode = "noop")) as [->|Hm2].
  { rewrite delete_instances_noop. unfold delete_instances_loop.
    destruct (for_each_prefix env self true (Some (need_chmod_of env)) restrict
                _ (delete_instances_body_exact env self true (need_chmod_of env) restrict)
                (instances_of self (db w)) zero_counts w) as (k & _ & Hc).
    intros Hr. by apply Hc in Hr as [-> _]. }
  by rewrite delete_instances_bad_mode.
Qed.

Lemma old_delete_instances_Return env self w c :
  fst (Old.delete_instances env self w) = Return c ->
  c = tally (classify env false None None) (instances_of self (db w)) zero_counts.
Proof.
  rewrite old_delete_instances_unfold. unfold Old.delete_instances_loop.
  destruct (for_each_prefix env self false None None
              _ (old_delete_instances_body_exact env self)
              (instances_of self (db w)) zero_counts w) as (k & _ & Hc).
  destruct (for_each _ _ _ _) as [r1 w1]. intros Hr.
  apply finish_old_benign in Hr. by apply Hc in Hr as [-> _].
Qed.

Lemma filter_none {A} (P : A -> Prop) `{!forall x, Decision (P x)} (l : list A) :
  (forall x, x ∈ l -> ¬ P x) -> filter P l = [].
Proof.
  induction l as [|x l IH]; intros Hnone; [done|].
  rewrite filter_cons_False by (apply Hnone; left).
  apply IH. intros y Hy. apply Hnone. by right.
Qed.

Lemma length_filter_split {A} (P : A -> Prop) `{!forall x, Decision (P x)} (l : list A) :
  length (filter P l) + length (filter (fun x => ¬ P x) l) = length l.
Proof.
  induction l as [|x l IH]; [done|].
  rewrite !filter_cons. destruct (decide (P x)).
  - rewrite decide_False by tauto. simpl. lia.
  - rewrite decide_True by done. simpl. lia.
Qed.

Lemma only_LogInfo t :
  Forall is_LogInfo t -> store_deletes t = [] ∧ commits t = 0.
Proof.
  unfold commits.
  induction 1 as [|e t He _ [IH1 IH2]]; [done|].
  destruct e; try done; simpl; rewrite filter_cons_False by done; done.
Qed.

Lemma delete_instances_noop_exact env self restrict w :
  delete_instances env self "noop" restrict w
  = (Return (tally (classify env true (Some (need_chmod_of env)) restrict)
               (instances_of self (db w)) zero_counts),
     extend w []
       (instances_of self (db w)
          ≫= body_effects env true (Some (need_chmod_of env)) restrict)).
Proof.
  rewrite delete_instances_noop. unfold delete_instances_loop.
  rewrite (for_each_total env self true (Some (need_chmod_of env)) restrict)
    by auto using delete_instances_body_exact.
  by rewrite ops_noop.
Qed.

(** * The claims about [File.delete_instances] *)

(** C1.  In a request that starts with a clean session on a catalog with
    unique instance keys, whatever the mode and the store filter, and in
    either snapshot of [delete_instances]: an instance whose
    [deletion_policy] is not [ALLOWED] keeps its row; every [store._delete]
    call made is the removal of an [ALLOWED] instance of the file; when the
    request returns its counts, the instances that are not [ALLOWED] are
    all counted in [n_kept].  After any sequence of deletion requests the
    instances that were not [ALLOWED] before are all still there. *)
Theorem C1_protected_instances_survive env self mode restrict w :
  session w = [] ->
  unique_keys (db w) ->
  interlock_respected self w (delete_instances env self mode restrict w)
  ∧ interlock_respected self w (Old.delete_instances env self w)
  ∧ (forall calls i,
       i ∈ db_instances (db w) ->
       FileInstance.deletion_policy i ≠ ALLOWED ->
       i ∈ db_instances (db (run_calls calls w))).
Proof.
  intros Hsess Hnd. split; [|split].
  - by apply interlock_delete_instances.
  - by apply interlock_old_delete_instances.
  - intros calls i Hi Hp. by apply run_calls_keep.
Qed.

Lemma ex_world_unique_keys : unique_keys (db ex_world).
Proof. apply (bool_decide_unpack _). vm_compute. exact I. Defined.

Lemma C1_witness :
  interlock_respected ex_file ex_world
    (delete_instances (ex_env false) ex_file "standard" None ex_world)
  ∧ interlock_respected ex_file ex_world
      (Old.delete_instances (ex_env false) ex_file ex_world)
  ∧ (forall calls i,
       i ∈ db_instances (db ex_world) ->
       FileInstance.deletion_policy i ≠ ALLOWED ->
       i ∈ db_instances (db (run_calls calls ex_world))).
Proof.
  apply (C1_protected_instances_survive (ex_env false) ex_file "standard" None ex_world).
  - reflexivity.
  - exact ex_world_unique_keys.
Defined.

(** C2.  Standard mode, a file whose name has no slash, a clean session
    and unique instance keys.  The loop leaves pending exactly one event
    addition and one row deletion per instance that the store removed, and
    nothing for an instance whose removal raised.  When the final commit
    goes through, in either snapshot: the request returns, [n_error] counts
    the failed removals, the row of an instance that was tried is gone if
    and only if the store removed it, the events added are the deletion
    events of the removed instances, and the store was called for every
    instance that passed the interlock, also after a failure. *)
Theorem C2_row_and_event_iff_store_delete env self restrict w :
  event_fails self = false ->
  session w = [] ->
  unique_keys (db w) ->
  commit_fails env = false ->
  session (snd (delete_instances_loop env self false (need_chmod_of env) restrict
                  (instances_of self (db w)) zero_counts w))
  = pending_deletions env self (Some (need_chmod_of env)) restrict
      (instances_of self (db w))
  ∧ removes_exactly_the_deleted env self (Some (need_chmod_of env)) restrict w
      (delete_instances env self "standard" restrict w)
  ∧ session (snd (Old.delete_instances_loop env self
                    (instances_of self (db w)) zero_counts w))
    = pending_deletions env self None None (instances_of self (db w))
  ∧ removes_exactly_the_deleted env self None None w
      (Old.delete_instances env self w).
Proof.
  intros Hv Hsess Hnd Hc. split; [|split; [|split]].
  - rewrite loop_standard_exact by done. simpl. by rewrite Hsess.
  - rewrite delete_instances_standard, loop_standard_exact by done.
    unfold finish_standard. rewrite Hc. by apply committed_outcome.
  - rewrite old_loop_exact by done. simpl. by rewrite Hsess.
  - rewrite old_delete_instances_unfold, old_loop_exact by done.
    unfold finish_old. rewrite Hc. by apply committed_outcome.
Qed.

Lemma C2_witness :
  removes_exactly_the_deleted (ex_env false) ex_file
    (Some (need_chmod_of (ex_env false))) None ex_world
    (delete_instances (ex_env false) ex_file "standard" None ex_world).
Proof.
  apply (C2_row_and_event_iff_store_delete (ex_env false) ex_file None ex_world).
  - reflexivity.
  - reflexivity.
  - exact ex_world_unique_keys.
  - reflexivity.
Defined.

(** C3.  Standard mode, a file whose name has no slash.  When the final
    commit fails, [delete_instances] does not return counts: it raises the
    [ServerError] that says that the database and the file system have
    diverged, after a rollback that empties the session and leaves the
    tables as they were, and after the store has been called for every
    instance that passed the interlock. *)
Theorem C3_failed_commit_is_fatal env self restrict w :
  event_fails self = false ->
  commit_fails env = true ->
  fst (delete_instances env self "standard" restrict w)
  = Raise (ServerError msg_consistency_broken [])
  ∧ session (snd (delete_instances env self "standard" restrict w)) = []
  ∧ db (snd (delete_instances env self "standard" restrict w)) = db w
  ∧ ∃ t, new_calls w (snd (delete_instances env self "standard" restrict w))
         = t ++ [Commit; Rollback; LogException]
         ∧ store_deletes t
           = delete_call_of (Some (need_chmod_of env))
               <$> filter (attempted restrict) (instances_of self (db w)).
Proof.
  intros Hv Hc.
  rewrite delete_instances_standard, loop_standard_exact by done.
  unfold finish_standard. rewrite Hc. simpl. repeat split.
  eexists. split.
  - unfold new_calls. simpl. rewrite <- app_assoc, drop_app_length. done.
  - apply effects_store_deletes.
Qed.

Lemma C3_witness :
  fst (delete_instances (ex_env true) ex_file "standard" None ex_world)
  = Raise (ServerError msg_consistency_broken [])
  ∧ session (snd (delete_instances (ex_env true) ex_file "standard" None ex_world)) = []
  ∧ db (snd (delete_instances (ex_env true) ex_file "standard" None ex_world)) = db ex_world
  ∧ ∃ t, new_calls ex_world
           (snd (delete_instances (ex_env true) ex_file "standard" None ex_world))
         = t ++ [Commit; Rollback; LogException]
         ∧ store_deletes t
           = delete_call_of (Some (need_chmod_of (ex_env true)))
               <$> filter (attempted None) (instances_of ex_file (db ex_world)).
Proof.
  apply (C3_failed_commit_is_fatal (ex_env true) ex_file None ex_world).
  - reflexivity.
  - reflexivity.
Defined.

(** C4.  In noop mode, for every file, filter and world: the tables and
    the session are as before, the only calls made are [logger.info] calls
    (so no [store._delete] and no commit), and the request returns counts
    of the same shape, with the instances that passed the interlock under
    [n_deleted], the others under [n_kept], and no error; a standard-mode
    request on the same world that returns has the same [n_kept], and its
    [n_deleted] and [n_error] add up to the noop [n_deleted]. *)
Theorem C4_noop_mutates_nothing env self restrict w :
  db (snd (delete_instances env self "noop" restrict w)) = db w
  ∧ session (snd (delete_instances env self "noop" restrict w)) = session w
  ∧ Forall is_LogInfo (new_calls w (snd (delete_instances env self "noop" restrict w)))
  ∧ store_deletes (new_calls w (snd (delete_instances env self "noop" restrict w))) = []
  ∧ commits (new_calls w (snd (delete_instances env self "noop" restrict w))) = 0
  ∧ fst (delete_instances env self "noop" restrict w)
    = Return
        {| n_deleted :=
             Z.of_nat (length (filter (attempted restrict) (instances_of self (db w))));
           n_kept :=
             Z.of_nat (length (filter (fun i => ¬ attempted restrict i)
                                 (instances_of self (db w))));
           n_error := 0 |}
  ∧ (forall c,
       fst (delete_instances env self "standard" restrict w) = Return c ->
       n_kept c
       = Z.of_nat (length (filter (fun i => ¬ attempted restrict i)
                             (instances_of self (db w))))
       ∧ (n_deleted c + n_error c)%Z
         = Z.of_nat (length (filter (attempted restrict) (instances_of self (db w))))).
Proof.
  rewrite delete_instances_noop_exact. simpl.
  rewrite new_calls_extend.
  pose proof (effects_noop env (Some (need_chmod_of env)) restrict
                (instances_of self (db w))) as Hlog.
  destruct (only_LogInfo _ Hlog) as [Hsd Hcm].
  split; [done|]. split; [by rewrite app_nil_r|].
  split; [done|]. split; [done|]. split; [done|]. split.
  - destruct (tally_counts env true (Some (need_chmod_of env)) restrict
                (instances_of self (db w)) zero_counts) as (Hk & Hd & He).
    rewrite filter_none in He by (intros i _ (_ & ? & _); done).
    rewrite (list_filter_iff _ (attempted restrict)) in Hd by (intros i; tauto).
    destruct (tally _ _ _) as [nd nk ne]. simpl in *. by subst.
  - intros c ->%delete_instances_Return. simpl.
    pose proof (tally_total (classify env false (Some (need_chmod_of env)) restrict)
                  (instances_of self (db w)) zero_counts) as Ht.
    destruct (tally_counts env false (Some (need_chmod_of env)) restrict
                (instances_of self (db w)) zero_counts) as (Hk & _ & _).
    pose proof (length_filter_split (attempted restrict) (instances_of self (db w))).
    unfold total in Ht. simpl in *. lia.
Qed.

Lemma C4_witness :
  db (snd (delete_instances (ex_env false) ex_file "noop" None ex_world)) = db ex_world
  ∧ fst (delete_instances (ex_env false) ex_file "noop" None ex_world)
    = Return {| n_deleted := 2; n_kept := 1; n_error := 0 |}.
Proof.
  destruct (C4_noop_mutates_nothing (ex_env false) ex_file None ex_world)
    as (Hdb & _ & _ & _ & _ & Hr & _).
  split; [exact Hdb|]. rewrite Hr. reflexivity.
Defined.

(** C10.  Whenever [delete_instances] returns its counts, in any mode,
    with or without a store filter, and in either snapshot, the three
    counters add up to the number of instances that the file had when the
    request started; in noop mode [n_error] is 0.  A noop request always
    returns; a standard request returns when the file name has no slash and
    the commit goes through. *)
Theorem C10_counts_cover_all_instances env self mode restrict w :
  (forall c, fst (delete_instances env self mode restrict w) = Return c ->
     (n_deleted c + n_kept c + n_error c)%Z
     = Z.of_nat (length (instances_of self (db w)))
     ∧ (mode = "noop" -> n_error c = 0%Z))
  ∧ (forall c, fst (Old.delete_instances env self w) = Return c ->
       (n_deleted c + n_kept c + n_error c)%Z
       = Z.of_nat (length (instances_of self (db w))))
  ∧ (∃ c, fst (delete_instances env self "noop" restrict w) = Return c)
  ∧ (event_fails self = false -> commit_fails env = false ->
       (∃ c, fst (delete_instances env self "standard" restrict w) = Return c)
       ∧ (∃ c, fst (Old.delete_instances env self w) = Return c)).
Proof.
  split; [|split; [|split]].
  - intros c ->%delete_instances_Return. split.
    + apply (tally_total _ _ zero_counts).
    + intros ->. simpl.
      destruct (tally_counts env true (Some (need_chmod_of env)) restrict
                  (instances_of self (db w)) zero_counts) as (_ & _ & ->).
      rewrite filter_none by (intros i _ (_ & ? & _); done). done.
  - intros c ->%old_delete_instances_Return.
    apply (tally_total _ _ zero_counts).
  - rewrite delete_instances_noop_exact. eauto.
  - intros Hv Hc. split.
    + rewrite delete_instances_standard, loop_standard_exact by done.
      unfold finish_standard. rewrite Hc. eauto.
    + rewrite old_delete_instances_unfold, old_loop_exact by done.
      unfold finish_old. rewrite Hc. eauto.
Qed.

Lemma C10_witness :
  fst (delete_instances (ex_env false) ex_file "standard" None ex_world)
  = Return {| n_deleted := 1; n_kept := 1; n_error := 1 |}
  ∧ (1 + 1 + 1)%Z = Z.of_nat (length (instances_of ex_file (db ex_world))).
Proof.
  destruct (C10_counts_cover_all_instances (ex_env false) ex_file "standard" None ex_world)
    as (Hsum & _).
  split; [reflexivity|].
  apply (Hsum {| n_deleted := 1; n_kept := 1; n_error := 1 |}). reflexivity.
Defined.

(** * The claim about [set_one_file_deletion_policy] *)

Lemma bind_Return {S A B} (m : M S A) (k : A -> M S B) s a s' :
  m s = (Return a, s') -> bind m k s = k a s'.
Proof. intros H. unfold bind. by rewrite H. Qed.

Lemma bind_Raise {S A B} (m : M S A) (k : A -> M S B) s e s' :
  m s = (Raise e, s') -> bind m k s = (Raise e, s').
Proof. intros H. unfold bind. by rewrite H. Qed.

Lemma required_arg_str_ok args name s w :
  args !! name = Some (PyStr s) -> required_arg_str args name w = (Return s, w).
Proof. intros H. unfold required_arg_str. by rewrite H. Qed.

Lemma required_arg_int_ok args name z w :
  args !! name = Some (PyInt z) -> required_arg_int args name w = (Return z, w).
Proof. intros H. unfold required_arg_int. by rewrite H. Qed.

Lemma optional_arg_str_ok args name o w :
  args !! name = PyStr <$> o -> optional_arg_str args name w = (Return o, w).
Proof. intros H. unfold optional_arg_str. rewrite H. by destruct o. Qed.

Lemma Store_get_by_name_exact name w :
  Store_get_by_name name w
  = match lookup_store (db w) name with
    | Some s => (Return s, w)
    | None => (Raise (ServerError "No such store %r" [PyStr name]), w)
    end.
Proof.
  unfold Store_get_by_name, lookup_store.
  by destruct (list_find _ _) as [[n s]|].
Qed.

Lemma parse_safe_exact text w :
  parse_safe text w
  = (Return (policy_of_text text), extend w [] (parse_safe_calls text)).
Proof.
  unfold parse_safe, policy_of_text, parse_safe_calls.
  destruct (decide (text = "disallowed")) as [->|H1].
  { rewrite extend_nil. done. }
  destruct (decide (text = "allowed")) as [->|H2].
  { rewrite extend_nil. done. }
  unfold bind, logger_warn, emit, ret, extend. simpl. by rewrite app_nil_r.
Qed.

(** The loop of [set_one_file_deletion_policy] stops at the first instance
    that the filter lets through. *)
Lemma first_instance_Some rs insts inst :
  first_instance rs insts = Some inst
  ↔ ∃ l1 l2, insts = l1 ++ inst :: l2
             ∧ Forall (fun j => other_store rs j = true) l1
             ∧ other_store rs inst = false.
Proof.
  induction insts as [|i l IH]; simpl.
  - split; [done|]. intros (l1 & l2 & H & _). by destruct l1.
  - destruct (other_store rs i) eqn:Ho.
    + rewrite IH. split.
      * intros (l1 & l2 & -> & Hl1 & Hi). exists (i :: l1), l2.
        split; [done|]. split; [by constructor|done].
      * intros (l1 & l2 & Heq & Hl1 & Hi). destruct l1 as [|j l1].
        { simpl in Heq. injection Heq as -> ->. congruence. }
        simpl in Heq. injection Heq as -> ->.
        apply Forall_cons in Hl1 as [_ Hl1]. eauto.
    + split.
      * intros [= <-]. exists [], l. done.
      * intros (l1 & l2 & Heq & Hl1 & Hi). destruct l1 as [|j l1].
        { simpl in Heq. by injection Heq as -> ->. }
        simpl in Heq. injection Heq as -> ->.
        apply Forall_cons in Hl1 as [Hj _]. congruence.
Qed.

Lemma first_instance_None rs insts :
  first_instance rs insts = None
  ↔ Forall (fun j => other_store rs j = true) insts.
Proof.
  induction insts as [|i l IH]; simpl.
  - split; [constructor|done].
  - destruct (other_store rs i) eqn:Ho.
    + rewrite IH. split; [by constructor|]. by intros [_ ?]%Forall_cons.
    + split; [done|]. intros [? _]%Forall_cons. congruence.
Qed.

Lemma first_instance_elem rs insts inst :
  first_instance rs insts = Some inst -> inst ∈ insts.
Proof.
  intros (l1 & l2 & -> & _)%first_instance_Some.
  apply elem_of_app. right. left.
Qed.

(** With unique keys, setting the policy by key touches one row. *)
Lemma set_policy_by_key inst policy rows :
  NoDup (inst_key <$> rows) ->
  inst ∈ rows ->
  (fun j => if decide (inst_key j = inst_key inst)
            then with_policy j policy else j) <$> rows
  = with_policy_at inst policy rows.
Proof.
  intros Hnd Hin. unfold with_policy_at. apply list_fmap_ext.
  intros n j Hj. apply list_elem_of_lookup_2 in Hj.
  destruct (decide (inst_key j = inst_key inst)) as [Hk|Hk].
  - assert (j = inst) as -> by (eapply NoDup_fmap_eq; done).
    by rewrite decide_True.
  - rewrite decide_False; [done|]. intros ->. done.
Qed.

Lemma set_one_unresolved env args w file_name policy_text n :
  args !! "file_name" = Some (PyStr file_name) ->
  args !! "deletion_policy" = Some (PyStr policy_text) ->
  args !! "restrict_to_store" = Some (PyStr n) ->
  lookup_store (db w) n = None ->
  set_one_file_deletion_policy env args w
  = (Raise (ServerError "No such store %r" [PyStr n]), w).
Proof.
  intros Hf Hp Hr Hl. unfold set_one_file_deletion_policy.
  erewrite bind_Return by (by apply required_arg_str_ok).
  erewrite bind_Return by (by apply required_arg_str_ok).
  erewrite bind_Return by (by apply (optional_arg_str_ok _ _ (Some n))).
  apply bind_Raise. apply bind_Raise.
  by rewrite Store_get_by_name_exact, Hl.
Qed.

Lemma set_one_resolved env args w file_name policy_text restrict_name file rs :
  args !! "file_name" = Some (PyStr file_name) ->
  args !! "deletion_policy" = Some (PyStr policy_text) ->
  args !! "restrict_to_store" = PyStr <$> restrict_name ->
  resolve_filter (db w) restrict_name = Some rs ->
  lookup_file (db w) file_name = Some file ->
  event_fails file = false ->
  set_one_file_deletion_policy env args w
  = match first_instance rs (instances_of file (db w)) with
    | None =>
        (Raise (ServerError msg_no_instances [PyStr file_name]),
         extend w [] (parse_safe_calls policy_text))
    | Some inst =>
        if commit_fails env then
          (Raise (ServerError msg_commit_failed []),
           {| db := db w; session := [];
              trace := trace w ++ parse_safe_calls policy_text
                       ++ [Commit; Rollback; LogException] |})
        else
          (Return ∅,
           {| db := apply_ops
                      (session w
                       ++ [SessSetPolicy inst (policy_of_text policy_text);
                           SessAdd (policy_change_event env file inst
                                      (policy_of_text policy_text))])
                      (db w);
              session := [];
              trace := trace w ++ parse_safe_calls policy_text ++ [Commit] |})
    end.
Proof.
  intros Hf Hp Hr Hrs Hfile Hv. unfold set_one_file_deletion_policy.
  erewrite bind_Return by (by apply required_arg_str_ok).
  erewrite bind_Return by (by apply required_arg_str_ok).
  erewrite bind_Return by (by apply optional_arg_str_ok).
  erewrite (bind_Return _ _ w rs w); cycle 1.
  { destruct restrict_name as [n|]; simpl in Hrs.
    - destruct (lookup_store (db w) n) as [s|] eqn:Hl; [|done].
      injection Hrs as <-. erewrite bind_Return; [done|].
      by rewrite Store_get_by_name_exact, Hl.
    - by injection Hrs as <-. }
  erewrite (bind_Return _ _ w (Some file) w); cycle 1.
  { unfold File_query_get. fold (lookup_file (db w) file_name). by rewrite Hfile. }
  erewrite bind_Return by apply parse_safe_exact.
  erewrite bind_Return by done. simpl.
  destruct (first_instance rs (instances_of file (db w))) as [inst|]; [|done].
  unfold make_generic_event. unfold event_fails in Hv.
  unfold bind, set_deletion_policy, session_add, session_push, set_session,
    try_except, session_commit, session_rollback, log_exception, emit, raise, ret.
  simpl. rewrite FileEvent_init_ok by done. simpl.
  destruct (commit_fails env); simpl.
  - by rewrite <- !app_assoc.
  - by rewrite app_nil_r, <- !app_assoc.
Qed.

(** What setting the policy of one row does to the columns of the table:
    the policy column of that row holds the new value, and nothing else
    changes. *)
Lemma with_policy_at_keys inst policy rows :
  inst_key <$> with_policy_at inst policy rows = inst_key <$> rows.
Proof.
  unfold with_policy_at. rewrite <- list_fmap_compose. apply list_fmap_ext.
  intros n j _. simpl. by destruct (decide (j = inst)).
Qed.

Lemma with_policy_at_store_objects inst policy rows :
  FileInstance.store_object <$> with_policy_at inst policy rows
  = FileInstance.store_object <$> rows.
Proof.
  unfold with_policy_at. rewrite <- list_fmap_compose. apply list_fmap_ext.
  intros n j _. simpl. by destruct (decide (j = inst)).
Qed.

Lemma with_policy_at_policies inst policy rows :
  FileInstance.deletion_policy <$> with_policy_at inst policy rows
  = (fun j => if decide (j = inst) then policy else FileInstance.deletion_policy j)
      <$> rows.
Proof.
  unfold with_policy_at. rewrite <- list_fmap_compose. apply list_fmap_ext.
  intros n j _. simpl. by destruct (decide (j = inst)).
Qed.

(** C5.  For a request that names a known file (whose name has no
    slash), in a clean session on a catalog with unique instance keys.
    The target is the first instance of the file, in the order the loop
    visits them, that the optional store filter lets through.  Without a
    target (no instance on that store, or no store of that name) the request
    raises a [ServerError] and neither the tables nor the session change.
    With a target and a commit that goes through, the row of the target has
    the parsed policy and every other row is as before, exactly one
    [instance_deletion_policy_changed] event is added, and one commit is
    made; with a commit that fails, the request raises and the tables are as
    before.  Column by column: after the commit the [deletion_policy] of the
    target's row is the parsed policy and that of every other row is what it
    was, and the keys and the stores of all rows are what they were. *)
Theorem C5_one_instance_changes_policy
    env args w file_name policy_text restrict_name file :
  args !! "file_name" = Some (PyStr file_name) ->
  args !! "deletion_policy" = Some (PyStr policy_text) ->
  args !! "restrict_to_store" = PyStr <$> restrict_name ->
  lookup_file (db w) file_name = Some file ->
  event_fails file = false ->
  session w = [] ->
  unique_keys (db w) ->
  (forall inst,
     target_instance (db w) file restrict_name = Some inst
     ↔ ∃ rs l1 l2,
         resolve_filter (db w) restrict_name = Some rs
         ∧ instances_of file (db w) = l1 ++ inst :: l2
         ∧ Forall (fun j => other_store rs j = true) l1
         ∧ other_store rs inst = false)
  ∧ match target_instance (db w) file restrict_name with
    | None =>
        (∃ fmt a, fst (set_one_file_deletion_policy env args w)
                  = Raise (ServerError fmt a))
        ∧ db (snd (set_one_file_deletion_policy env args w)) = db w
        ∧ session (snd (set_one_file_deletion_policy env args w)) = session w
        ∧ commits (new_calls w (snd (set_one_file_deletion_policy env args w))) = 0
    | Some inst =>
        if commit_fails env then
          fst (set_one_file_deletion_policy env args w)
          = Raise (ServerError msg_commit_failed [])
          ∧ db (snd (set_one_file_deletion_policy env args w)) = db w
        else
          fst (set_one_file_deletion_policy env args w) = Return ∅
          ∧ db_instances (db (snd (set_one_file_deletion_policy env args w)))
            = with_policy_at inst (policy_of_text policy_text) (db_instances (db w))
          ∧ db_events (db (snd (set_one_file_deletion_policy env args w)))
            = db_events (db w)
              ++ [policy_change_event env file inst (policy_of_text policy_text)]
          ∧ db_files (db (snd (set_one_file_deletion_policy env args w)))
            = db_files (db w)
          ∧ commits (new_calls w (snd (set_one_file_deletion_policy env args w))) = 1
          ∧ FileInstance.deletion_policy
              <$> db_instances (db (snd (set_one_file_deletion_policy env args w)))
            = (fun j => if decide (j = inst) then policy_of_text policy_text
                        else FileInstance.deletion_policy j)
                <$> db_instances (db w)
          ∧ inst_key <$> db_instances (db (snd (set_one_file_deletion_policy env args w)))
            = inst_key <$> db_instances (db w)
          ∧ FileInstance.store_object
              <$> db_instances (db (snd (set_one_file_deletion_policy env args w)))
            = FileInstance.store_object <$> db_instances (db w)
          ∧ inst ∈ db_instances (db w)
    end.
Proof.
  intros Hf Hp Hr Hfile Hv Hsess Hnd. split.
  { intros inst. unfold target_instance.
    destruct (resolve_filter (db w) restrict_name) as [rs|]; simpl.
    - rewrite first_instance_Some. split.
      + intros (l1 & l2 & ?). exists rs, l1, l2. done.
      + intros (rs' & l1 & l2 & [= <-] & ?). exists l1, l2. done.
    - split; [done|]. intros (rs & l1 & l2 & ? & _). done. }
  assert (Hlog : forall t, commits (parse_safe_calls policy_text ++ t) = commits t).
  { intros t. unfold parse_safe_calls, commits.
    repeat case_decide; done. }
  unfold target_instance.
  destruct (resolve_filter (db w) restrict_name) as [rs|] eqn:Hrs; simpl.
  - rewrite (set_one_resolved env args w file_name policy_text restrict_name file rs)
      by done.
    destruct (first_instance rs (instances_of file (db w))) as [inst|] eqn:Hfi.
    + assert (Hin : inst ∈ db_instances (db w))
        by (by eapply instances_of_elem, first_instance_elem).
      destruct (commit_fails env); simpl; [done|].
      rewrite Hsess. simpl.
      rewrite (set_policy_by_key inst (policy_of_text policy_text)
                 (db_instances (db w)) Hnd Hin).
      split; [done|]. split; [done|]. split; [done|]. split; [done|].
      split; [|split; [|split; [|split]]].
      * unfold new_calls. simpl. rewrite drop_app_length. by rewrite Hlog.
      * apply with_policy_at_policies.
      * apply with_policy_at_keys.
      * apply with_policy_at_store_objects.
      * done.
    + simpl. split; [eauto|]. split; [done|]. split; [by rewrite app_nil_r|].
      rewrite new_calls_extend. rewrite <- (app_nil_r (parse_safe_calls _)).
      by rewrite Hlog.
  - destruct restrict_name as [n|]; [|done]. simpl in Hrs.
    destruct (lookup_store (db w) n) as [s|] eqn:Hl; [done|].
    rewrite (set_one_unresolved env args w file_name policy_text n) by done.
    simpl. split; [eauto|]. split; [done|]. split; [done|].
    unfold new_calls. by rewrite drop_all.
Qed.

Lemma C5_witness :
  fst (set_one_file_deletion_policy (ex_env false) ex_args ex_world) = Return ∅
  ∧ FileInstance.deletion_policy ex_protected = DISALLOWED
  ∧ FileInstance.deletion_policy
      <$> db_instances (db (snd (set_one_file_deletion_policy (ex_env false) ex_args
                                   ex_world)))
    = [ALLOWED; ALLOWED; ALLOWED]
  ∧ inst_key
      <$> db_instances (db (snd (set_one_file_deletion_policy (ex_env false) ex_args
                                   ex_world)))
    = [inst_key ex_allowed; inst_key ex_protected; inst_key ex_unreachable].
Proof.
  pose proof (C5_one_instance_changes_policy (ex_env false) ex_args ex_world
                "zen.12345.67890.uv" "allowed" (Some "pot2") ex_file
                eq_refl eq_refl eq_refl eq_refl eq_refl eq_refl ex_world_unique_keys)
    as [_ H].
  change (target_instance (db ex_world) ex_file (Some "pot2")) with (Some ex_protected) in H.
  change (commit_fails (ex_env false)) with false in H.
  destruct H as (Hr & _ & _ & _ & _ & Hpol & Hkeys & _).
  split; [exact Hr|]. split; [reflexivity|]. split.
  - rewrite Hpol. reflexivity.
  - rewrite Hkeys. reflexivity.
Defined.

(** * [infer_file_obsid] *)

Lemma infer_mode_none env parent_dirs name info w :
  default "none" (config env !! "obsid_inference_mode") = "none" ->
  infer_file_obsid env parent_dirs name info w
  = (Raise (ServerError msg_refusing [PyStr name]), w).
Proof. intros H. unfold infer_file_obsid. rewrite H. done. Qed.

Lemma infer_hera_short_name env parent_dirs name info w :
  config env !! "obsid_inference_mode" = Some "hera" ->
  length (split "."%char name) < 4 ->
  infer_file_obsid env parent_dirs name info w
  = (Raise (ServerError (msg_looks_weird "HERA") [PyStr name]), w).
Proof.
  intros H Hlen. unfold infer_file_obsid. rewrite H. simpl.
  by rewrite decide_True.
Qed.

(** In the hera mode, a name of four components or more is resolved from
    the rows of the grouped query alone: one row is handed back as it is,
    any other number of rows is an error. *)
Lemma infer_hera_exact env parent_dirs name info w :
  config env !! "obsid_inference_mode" = Some "hera" ->
  4 ≤ length (split "."%char name) ->
  infer_file_obsid env parent_dirs name info w
  = (match fst (query_obsid_like_grouped env
                  (join "." (take 3 (split "."%char name)) +:+ ".%") w) with
     | Return [row] => Return (InferredRow row)
     | Return rows =>
         Raise (ServerError msg_candidates
                  [PyStr name; PyInt (Z.of_nat (length rows))])
     | Raise e => Raise e
     end, w).
Proof.
  intros H Hlen. unfold infer_file_obsid. rewrite H. simpl.
  rewrite decide_False by lia.
  unfold bind, query_obsid_like_grouped. simpl.
  destruct (remove_dups _) as [|row [|row' rows]]; done.
Qed.

(** The inference reads the catalog and changes nothing: the same call on
    the same world gives the same answer. *)
Lemma infer_file_obsid_pure env parent_dirs name info w :
  snd (infer_file_obsid env parent_dirs name info w) = w.
Proof.
  unfold infer_file_obsid.
  repeat case_decide; try done.
  - unfold bind, query_obsid_like_grouped. simpl.
    repeat case_decide; try done. by destruct (_ !! 0).
  - destruct (_ !! 1); [|done]. destruct (_ !! 2); [|done].
    by destruct (astropy_gps env _).
Qed.

Lemma string_append_assoc (a b c : string) : (a +:+ b) +:+ c = a +:+ (b +:+ c).
Proof.
  induction a as [|x a IH]; [done|].
  change (String x ((a +:+ b) +:+ c) = String x (a +:+ (b +:+ c))). by f_equal.
Qed.

Lemma no_specials_append escape a b :
  no_specials escape (a +:+ b) = no_specials escape a && no_specials escape b.
Proof.
  unfold no_specials. induction a as [|x a IH]; simpl; [done|].
  by rewrite IH, andb_assoc.
Qed.

Lemma sql_like_percent fold escape t : sql_like fold escape "%" t = true.
Proof.
  induction t as [|d t IH].
  - simpl. by rewrite andb_false_r.
  - simpl in *. rewrite andb_false_r in *. simpl in *. by rewrite IH.
Qed.

Lemma like_fold_cons fold c s :
  like_fold fold (String c s)
  = String (if fold then lower_char c else c) (like_fold fold s).
Proof. by destruct fold. Qed.

(** A pattern without special characters that ends in [%] selects the
    texts that start with it, as the engine compares letters. *)
Lemma sql_like_prefix fold escape p : forall t,
  no_specials escape p = true ->
  sql_like fold escape (p +:+ "%") t
  = String.prefix (like_fold fold p) (like_fold fold t).
Proof.
  induction p as [|c p IH]; intros t Hp.
  - change ("" +:+ "%") with "%". rewrite sql_like_percent.
    destruct fold; by destruct t.
  - unfold no_specials in Hp. simpl in Hp.
    apply andb_true_iff in Hp as [Hc Hp].
    apply negb_true_iff, orb_false_iff in Hc as [Hc Hc3].
    apply orb_false_iff in Hc as [Hc1 Hc2].
    apply bool_decide_eq_false in Hc1.
    change (String c p +:+ "%") with (String c (p +:+ "%")).
    simpl sql_like. rewrite Hc3.
    rewrite (decide_False (P := c = "%"%char)) by done.
    destruct t as [|d t].
    { rewrite like_fold_cons. by destruct fold. }
    rewrite Hc2, IH by done. rewrite !like_fold_cons. simpl.
    unfold like_char_eq. destruct fold.
    + destruct (ascii_dec (lower_char c) (lower_char d)) as [Heq|Hne].
      * by rewrite bool_decide_eq_true_2.
      * by rewrite bool_decide_eq_false_2.
    + destruct (ascii_dec c d) as [Heq|Hne].
      * by rewrite bool_decide_eq_true_2.
      * by rewrite bool_decide_eq_false_2.
Qed.

(** For a name whose first three components hold no special character,
    the rows of the query are the distinct [obsid] values, NULL among
    them, of the files that share the prefix as the engine compares
    letters. *)
Lemma query_rows_of_prefix env prefix w :
  no_specials (like_backslash_escapes env) prefix = true ->
  query_obsid_like_grouped env (prefix +:+ ".%") w
  = (Return (remove_dups
               (File.obsid
                  <$> files_matching_prefix (like_folds_case env) prefix (db w))), w).
Proof.
  intros Hp. unfold query_obsid_like_grouped, files_matching_prefix.
  do 4 f_equal. apply list_filter_iff. intros f.
  change (prefix +:+ ".%") with (prefix +:+ ("." +:+ "%")).
  rewrite <- string_append_assoc, sql_like_prefix; [done|].
  rewrite no_specials_append, Hp. unfold no_specials. simpl.
  by rewrite andb_false_r.
Qed.

(** An engine that compares letters exactly selects the files whose names
    start with the prefix and a dot. *)
Lemma files_matching_exact prefix d :
  files_matching_prefix false prefix d = files_sharing_prefix prefix d.
Proof. done. Qed.

(** C6.  The hera mode hands back a row without an observation id, and
    raises nothing, when the files under the prefix were all registered
    with a null [obsid]: the grouped query then has the one row [NULL].
    It also hands back observation 7 for the name
    [cal_1.2458000.12345.uv] when no file shares the prefix
    [cal_1.2458000.12345] and the catalog holds [calA1.2458000.12345.uv]:
    the underscore of the name is a wildcard of the LIKE pattern built from
    it. *)
Theorem C6_infer_file_obsid_guesses :
  File.obsid <$> files_sharing_prefix "zen.2458000.12345" (db ex_world_null) = [None]
  ∧ fst (infer_file_obsid ex_env_hera "" "zen.2458000.12345.xx.uv" ∅ ex_world_null)
    = Return (InferredRow None)
  ∧ files_sharing_prefix "cal_1.2458000.12345" (db ex_world_like) = []
  ∧ fst (infer_file_obsid ex_env_hera "" "cal_1.2458000.12345.uv" ∅ ex_world_like)
    = Return (InferredRow (Some 7%Z)).
Proof. repeat split; vm_compute; reflexivity. Qed.

(** * Export and import of file records *)

Lemma normalize_valid_md5 (f : File.t) w :
  valid_file f ->
  normalize_and_validate_md5 (File.md5 f) w = (Return (File.md5 f), w).
Proof.
  intros (_ & Hlow & Hlen & Hhex & _). unfold normalize_and_validate_md5.
  rewrite Hlow, Hlen, Hhex. simpl. done.
Qed.

(** [fromtimestamp] returns the local time of the times that the server
    converts, and raises for the others. *)
Lemma fromtimestamp_exact env t w :
  fromtimestamp env t w
  = (if decide (converts env t) then Return (local_time env t)
     else Raise (default (OtherException "ValueError") (fromtimestamp_raises env t)), w).
Proof.
  unfold fromtimestamp. simpl.
  destruct (decide (converts env t)) as [[Hr Hin]|Hn].
  - rewrite Hr. by rewrite decide_True.
  - destruct (fromtimestamp_raises env t) as [e|] eqn:Hr; [done|].
    rewrite decide_False; [done|]. intros Hin. by apply Hn.
Qed.

(** What [from_dict] makes of an exported record: the fields of the file,
    the source it is given, and the local time of the exported creation
    time, when the server converts that time; the exception of
    [fromtimestamp] otherwise. *)
Lemma from_dict_to_dict env source f w :
  valid_file f ->
  from_dict env source (to_dict f) w
  = (if decide (converts env (create_time_unix f))
     then Return (reimported f (local_time env (create_time_unix f)) source)
     else Raise (default (OtherException "ValueError")
                   (fromtimestamp_raises env (create_time_unix f))), w).
Proof.
  intros Hv. pose proof Hv as (Hname & Hlow & Hlen & Hhex & Hsize & Hmicro).
  unfold from_dict.
  erewrite bind_Return by (by apply required_arg_str_ok).
  erewrite bind_Return by (by apply required_arg_str_ok).
  erewrite bind_Return by (by apply required_arg_int_ok).
  erewrite bind_Return by (by apply required_arg_int_ok).
  erewrite bind_Return by (by apply required_arg_str_ok).
  erewrite (bind_Return _ _ w (File.obsid f) w); cycle 1.
  { change (to_dict f !! "obsid") with (Some (py_of_obsid (File.obsid f))).
    by destruct (File.obsid f). }
  unfold bind at 1. rewrite fromtimestamp_exact.
  destruct (decide (converts env (create_time_unix f))); [|done].
  unfold File_init.
  erewrite bind_Return by (by apply normalize_valid_md5).
  unfold _validate. simpl. rewrite Hname.
  unfold bind. rewrite normalize_valid_md5 by done.
  apply Z.leb_le in Hsize. rewrite Hsize. simpl. done.
Qed.

(** On a server whose local time is UTC, a valid record comes back equal
    in every field but [source]. *)
Lemma from_dict_to_dict_utc env source f w :
  valid_file f ->
  converts env (create_time_unix f) ->
  utcoffset env (create_time_unix f) = 0%Z ->
  from_dict env source (to_dict f) w
  = (Return (reimported f (File.create_time f) source), w).
Proof.
  intros Hv Hc Hoff. rewrite from_dict_to_dict, decide_True by done.
  unfold local_time. rewrite Hoff, Z.add_0_r.
  destruct Hv as (_ & _ & _ & _ & _ & Hmicro).
  unfold create_time_unix. destruct (File.create_time f) as [s m].
  simpl in *. by subst.
Qed.

(** Anywhere else the creation time comes back shifted. *)
Lemma from_dict_to_dict_shifted env source f w g :
  valid_file f ->
  utcoffset env (create_time_unix f) ≠ 0%Z ->
  fst (from_dict env source (to_dict f) w) = Return g ->
  File.create_time g ≠ File.create_time f.
Proof.
  intros Hv Hoff. rewrite from_dict_to_dict by done. simpl.
  destruct (decide (converts env (create_time_unix f))); [|done].
  intros [= <-]. simpl. unfold local_time, create_time_unix in *.
  destruct (File.create_time f) as [s m]. simpl in *.
  intros [= Hs _]. lia.
Qed.

Lemma ex_file_valid : valid_file ex_file.
Proof. vm_compute. repeat split; congruence. Qed.

(** C7.  The file of the scenarios is a valid record, created at
    2017-01-01T00:00:00.  On a server whose local time is two hours ahead
    of UTC, [from_dict] applied to its [to_dict] returns a record with the
    same name, type, obsid, size and md5 and the given source, and with the
    creation time 02:00:00: [to_dict] exports the time as UTC
    ([calendar.timegm]) and [from_dict] reads it back as local time
    ([datetime.fromtimestamp]). *)
Theorem C7_from_dict_shifts_create_time :
  valid_file ex_file
  ∧ fst (from_dict ex_env_sast "peer" (to_dict ex_file) ex_world)
    = Return (reimported ex_file
                {| dt_seconds := 1483228800 + 7200; dt_microsecond := 0 |} "peer")
  ∧ (forall g, fst (from_dict ex_env_sast "peer" (to_dict ex_file) ex_world) = Return g ->
               File.create_time g ≠ File.create_time ex_file).
Proof.
  split; [exact ex_file_valid|]. split.
  - rewrite from_dict_to_dict by exact ex_file_valid. reflexivity.
  - intros g. apply from_dict_to_dict_shifted; [exact ex_file_valid|].
    vm_compute. congruence.
Qed.

(** * The rsync transfer manager *)

Lemma transfer_exact env local_path remote_path s :
  Rsync.transfer env local_path remote_path s
  = (match Rsync.sysrsync_run env
             (run_of env (Rsync.hostname (Rsync.self s)) (local_path, remote_path)) with
     | None => Return true
     | Some e => transfer_failure env e
     end,
     {| Rsync.self := Rsync.self s;
        Rsync.runs := Rsync.runs s
                      ++ [run_of env (Rsync.hostname (Rsync.self s))
                            (local_path, remote_path)] |}).
Proof.
  unfold Rsync.transfer, try_except_eval, bind, Rsync.get_hostname, Rsync.run, ret,
    run_of, transfer_failure, Rsync.sysrsync_RsyncError.
  simpl. destruct (Rsync.sysrsync_run env _) as [e|]; [|done].
  destruct (Rsync.sysrsync_has_RsyncError env); [|done].
  unfold ret. by destruct (is_RsyncError e).
Qed.

Lemma batch_loop_false env paths : forall s,
  for_each (Rsync.batch_transfer_body env) paths false s = (Return false, s).
Proof.
  induction paths as [|[l r] ps IH]; intros s; [done|].
  simpl. unfold bind. simpl. apply IH.
Qed.

Lemma batch_loop_exact env paths : forall s,
  for_each (Rsync.batch_transfer_body env) paths true s
  = (batch_result env (Rsync.hostname (Rsync.self s)) paths,
     {| Rsync.self := Rsync.self s;
        Rsync.runs := Rsync.runs s
                      ++ (run_of env (Rsync.hostname (Rsync.self s))
                            <$> attempted_pairs env (Rsync.hostname (Rsync.self s)) paths) |}).
Proof.
  induction paths as [|[l r] ps IH]; intros s.
  - simpl. unfold ret. rewrite app_nil_r. by destruct s.
  - simpl. unfold bind. rewrite transfer_exact.
    destruct (Rsync.sysrsync_run env _) as [e|].
    + unfold transfer_failure.
      destruct (Rsync.sysrsync_has_RsyncError env); [|done].
      destruct (is_RsyncError e); [|done].
      by rewrite batch_loop_false.
    + rewrite IH. simpl. by rewrite <- app_assoc.
Qed.

Lemma batch_transfer_exact env paths s :
  Rsync.batch_transfer env paths s
  = (batch_result env (Rsync.hostname (Rsync.self s)) paths,
     {| Rsync.self :=
          {| Rsync.hostname := Rsync.hostname (Rsync.self s);
             Rsync.transfer_attempted := true;
             Rsync.transfer_complete :=
               match batch_result env (Rsync.hostname (Rsync.self s)) paths with
               | Return b => b
               | Raise _ => Rsync.transfer_complete (Rsync.self s)
               end |};
        Rsync.runs := Rsync.runs s
                      ++ (run_of env (Rsync.hostname (Rsync.self s))
                            <$> attempted_pairs env (Rsync.hostname (Rsync.self s)) paths) |}).
Proof.
  unfold Rsync.batch_transfer, bind. simpl.
  rewrite batch_loop_exact. simpl.
  by destruct (batch_result env _ paths).
Qed.

Lemma transfer_failure_not_True env e : transfer_failure env e ≠ Return true.
Proof.
  unfold transfer_failure.
  destruct (Rsync.sysrsync_has_RsyncError env); [|done].
  by destruct (is_RsyncError e).
Qed.

Lemma batch_result_true env host paths :
  batch_result env host paths = Return true ↔ Forall (pair_succeeds env host) paths.
Proof.
  unfold pair_succeeds. induction paths as [|p ps IH]; simpl.
  - split; [constructor|done].
  - destruct (Rsync.sysrsync_run env (run_of env host p)) as [e|] eqn:Hp.
    + split.
      * intros H. by apply transfer_failure_not_True in H.
      * intros [Hs _]%Forall_cons. congruence.
    + rewrite IH. split; [by constructor|]. by intros [_ ?]%Forall_cons.
Qed.

(** Under a [sysrsync] without [RsyncError], a batch with a failing run
    ends with the [AttributeError] of the [except] clause. *)
Lemma batch_result_unbound env host paths :
  Rsync.sysrsync_has_RsyncError env = false ->
  batch_result env host paths
  = if bool_decide (Forall (pair_succeeds env host) paths) then Return true
    else Raise (OtherException "AttributeError").
Proof.
  intros Hno. induction paths as [|p ps IH]; [done|].
  simpl. destruct (Rsync.sysrsync_run env (run_of env host p)) as [e|] eqn:Hp.
  - unfold transfer_failure. rewrite Hno.
    rewrite bool_decide_eq_false_2; [done|].
    intros [Hs _]%Forall_cons. unfold pair_succeeds in Hs. congruence.
  - rewrite IH. apply (f_equal (fun b : bool => if b then _ else _)).
    apply bool_decide_ext. split; [by constructor|].
    by intros [_ ?]%Forall_cons.
Qed.

Lemma batch_result_rsync_errors env host paths :
  Rsync.sysrsync_has_RsyncError env = true ->
  (forall p e, p ∈ paths ->
     Rsync.sysrsync_run env (run_of env host p) = Some e -> e = RsyncError) ->
  batch_result env host paths
  = Return (bool_decide (Forall (pair_succeeds env host) paths)).
Proof.
  intros Hhas Hall. induction paths as [|p ps IH]; [done|].
  simpl. destruct (Rsync.sysrsync_run env (run_of env host p)) as [e|] eqn:Hp.
  - rewrite (Hall p e) by (done || left). unfold transfer_failure. rewrite Hhas. simpl.
    rewrite bool_decide_eq_false_2; [done|].
    intros [Hs _]%Forall_cons. unfold pair_succeeds in Hs. congruence.
  - rewrite IH by (intros q e Hq; apply Hall; by right).
    f_equal. apply bool_decide_ext. split; [by constructor|].
    by intros [_ ?]%Forall_cons.
Qed.

Lemma attempted_pairs_all env host paths :
  Forall (pair_succeeds env host) paths -> attempted_pairs env host paths = paths.
Proof.
  induction 1 as [|p ps Hp _ IH]; [done|].
  simpl. unfold pair_succeeds in Hp. by rewrite Hp, IH.
Qed.

(** After a pair whose run raised, no further run is made. *)
Lemma attempted_pairs_stop env host l1 p l2 :
  Forall (pair_succeeds env host) l1 ->
  ¬ pair_succeeds env host p ->
  attempted_pairs env host (l1 ++ p :: l2) = l1 ++ [p].
Proof.
  intros Hl1 Hp. induction Hl1 as [|q l1 Hq _ IH]; simpl.
  - unfold pair_succeeds in Hp.
    by destruct (Rsync.sysrsync_run env (run_of env host p)).
  - unfold pair_succeeds in Hq. by rewrite Hq, IH.
Qed.

Lemma batch_result_raise env host l1 p l2 e :
  Rsync.sysrsync_has_RsyncError env = true ->
  Forall (pair_succeeds env host) l1 ->
  Rsync.sysrsync_run env (run_of env host p) = Some e ->
  e ≠ RsyncError ->
  batch_result env host (l1 ++ p :: l2) = Raise e.
Proof.
  intros Hhas Hl1 Hp He. induction Hl1 as [|q l1 Hq _ IH]; simpl.
  - rewrite Hp. unfold transfer_failure. rewrite Hhas. by destruct e.
  - unfold pair_succeeds in Hq. by rewrite Hq.
Qed.

(** C8.  What [batch_transfer] does, against the reading that it attempts
    every pair and returns the conjunction of the results.  It runs
    [sysrsync] for the pairs of the list in order, up to and including the
    first pair whose run raises, and for no pair after it: a batch with a
    pair after the failing one does not attempt every pair.  It returns
    [True] exactly when the run of every pair returns.  Under [sysrsync] as
    released, where the name [RsyncError] of the [except] clause does not
    resolve, it never returns [False]: a batch with a failing run is left
    by [AttributeError], and [transfer_complete] keeps the value it had.
    Only under a [sysrsync] that binds the name, and when the runs that
    raise all raise [RsyncError], does it return the conjunction of the
    per-pair results (even then without a run for the pairs after the
    first that failed).  It sets [transfer_attempted], and, when it
    returns, [transfer_complete] to what it returns. *)
Theorem C8_batch_aborts_at_first_failure env paths s :
  new_runs s (snd (Rsync.batch_transfer env paths s))
  = run_of env (Rsync.hostname (Rsync.self s))
      <$> attempted_pairs env (Rsync.hostname (Rsync.self s)) paths
  ∧ (forall l1 p l2,
       paths = l1 ++ p :: l2 ->
       Forall (pair_succeeds env (Rsync.hostname (Rsync.self s))) l1 ->
       ¬ pair_succeeds env (Rsync.hostname (Rsync.self s)) p ->
       attempted_pairs env (Rsync.hostname (Rsync.self s)) paths = l1 ++ [p]
       ∧ (l2 ≠ [] -> ¬ attempts_every_pair env paths s))
  ∧ (Forall (pair_succeeds env (Rsync.hostname (Rsync.self s))) paths ->
     attempted_pairs env (Rsync.hostname (Rsync.self s)) paths = paths)
  ∧ (fst (Rsync.batch_transfer env paths s) = Return true
     ↔ Forall (pair_succeeds env (Rsync.hostname (Rsync.self s))) paths)
  ∧ (Rsync.sysrsync_has_RsyncError env = false ->
     fst (Rsync.batch_transfer env paths s) ≠ Return false
     ∧ (¬ Forall (pair_succeeds env (Rsync.hostname (Rsync.self s))) paths ->
        fst (Rsync.batch_transfer env paths s) = Raise (OtherException "AttributeError")
        ∧ Rsync.transfer_complete (Rsync.self (snd (Rsync.batch_transfer env paths s)))
          = Rsync.transfer_complete (Rsync.self s)))
  ∧ (Rsync.sysrsync_has_RsyncError env = true ->
     (forall p e, p ∈ paths ->
        Rsync.sysrsync_run env (run_of env (Rsync.hostname (Rsync.self s)) p) = Some e ->
        e = RsyncError) ->
     fst (Rsync.batch_transfer env paths s)
     = Return (bool_decide
                 (Forall (pair_succeeds env (Rsync.hostname (Rsync.self s))) paths)))
  ∧ Rsync.transfer_attempted (Rsync.self (snd (Rsync.batch_transfer env paths s))) = true
  ∧ (forall b, fst (Rsync.batch_transfer env paths s) = Return b ->
       Rsync.transfer_complete (Rsync.self (snd (Rsync.batch_transfer env paths s))) = b).
Proof.
  unfold attempts_every_pair.
  rewrite batch_transfer_exact. simpl.
  assert (Hruns : new_runs s
            {| Rsync.self :=
                 {| Rsync.hostname := Rsync.hostname (Rsync.self s);
                    Rsync.transfer_attempted := true;
                    Rsync.transfer_complete :=
                      match batch_result env (Rsync.hostname (Rsync.self s)) paths with
                      | Return b => b
                      | Raise _ => Rsync.transfer_complete (Rsync.self s)
                      end |};
               Rsync.runs := Rsync.runs s
                             ++ (run_of env (Rsync.hostname (Rsync.self s))
                                   <$> attempted_pairs env (Rsync.hostname (Rsync.self s))
                                         paths) |}
          = run_of env (Rsync.hostname (Rsync.self s))
              <$> attempted_pairs env (Rsync.hostname (Rsync.self s)) paths).
  { unfold new_runs. simpl. by rewrite drop_app_length. }
  rewrite Hruns.
  split; [done|]. split; [|split; [|split; [|split; [|split; [|split]]]]].
  - intros l1 p l2 -> Hl1 Hp.
    rewrite attempted_pairs_stop by done. split; [done|].
    intros Hl2 Heq. apply (f_equal length) in Heq.
    rewrite !length_fmap, !length_app in Heq. simpl in Heq.
    destruct l2; [done|]. simpl in Heq. lia.
  - apply attempted_pairs_all.
  - apply batch_result_true.
  - intros Hno. rewrite batch_result_unbound by done. split.
    + by case_bool_decide.
    + intros Hnot. by rewrite bool_decide_eq_false_2.
  - apply batch_result_rsync_errors.
  - done.
  - by intros b ->.
Qed.

Lemma C8_witness :
  new_runs ex_manager (snd (Rsync.batch_transfer ex_rsync_env ex_paths ex_manager))
  = run_of ex_rsync_env "pot1.example" <$> [("a", "/remote/a"); ("b", "/remote/b")]
  ∧ fst (Rsync.batch_transfer ex_rsync_env ex_paths ex_manager)
    = Raise (OtherException "AttributeError")
  ∧ ¬ attempts_every_pair ex_rsync_env ex_paths ex_manager.
Proof.
  destruct (C8_batch_aborts_at_first_failure ex_rsync_env ex_paths ex_manager)
    as (Hruns & Hstop & _ & _ & Hno & _).
  split; [|split].
  - rewrite Hruns. reflexivity.
  - destruct (Hno eq_refl) as [_ Hraise]. apply Hraise.
    intros Hall. apply Forall_cons in Hall as [_ Hall].
    apply Forall_cons in Hall as [Hb _]. vm_compute in Hb. discriminate.
  - destruct (Hstop [("a", "/remote/a")] ("b", "/remote/b") [("c", "/remote/c")])
      as [_ Hnot].
    + reflexivity.
    + constructor; [reflexivity|constructor].
    + intros Hb. vm_compute in Hb. discriminate.
    + apply Hnot. discriminate.
Defined.

(** C9.  What [transfer] makes of an exception of the transfer layer,
    against the reading that every such exception becomes [False].  A run
    that returns gives [True].  Under [sysrsync] as released, where the
    name [RsyncError] of the [except] clause does not resolve, no exception
    of the run becomes [False]: whatever the run raises, [RsyncError]
    included, [transfer] is left by [AttributeError], and so is a batch
    with a failing run.  Under a [sysrsync] that binds the name, a
    [RsyncError] becomes [False] and every other exception goes through
    [transfer] and through the batch. *)
Theorem C9_no_failure_becomes_False env local_path remote_path paths s :
  (Rsync.sysrsync_run env
     (run_of env (Rsync.hostname (Rsync.self s)) (local_path, remote_path))
   = None ->
   fst (Rsync.transfer env local_path remote_path s) = Return true)
  ∧ (Rsync.sysrsync_has_RsyncError env = false ->
     fst (Rsync.transfer env local_path remote_path s) ≠ Return false
     ∧ (forall e,
          Rsync.sysrsync_run env
            (run_of env (Rsync.hostname (Rsync.self s)) (local_path, remote_path))
          = Some e ->
          fst (Rsync.transfer env local_path remote_path s)
          = Raise (OtherException "AttributeError")
          ∧ ¬ every_exception_becomes_False env local_path remote_path s)
     ∧ (¬ Forall (pair_succeeds env (Rsync.hostname (Rsync.self s))) paths ->
        fst (Rsync.batch_transfer env paths s)
        = Raise (OtherException "AttributeError")))
  ∧ (Rsync.sysrsync_has_RsyncError env = true ->
     (Rsync.sysrsync_run env
        (run_of env (Rsync.hostname (Rsync.self s)) (local_path, remote_path))
      = Some RsyncError ->
      fst (Rsync.transfer env local_path remote_path s) = Return false)
     ∧ (forall e,
          Rsync.sysrsync_run env
            (run_of env (Rsync.hostname (Rsync.self s)) (local_path, remote_path))
          = Some e ->
          e ≠ RsyncError ->
          fst (Rsync.transfer env local_path remote_path s) = Raise e
          ∧ ¬ every_exception_becomes_False env local_path remote_path s)
     ∧ ((forall p e, p ∈ paths ->
           Rsync.sysrsync_run env (run_of env (Rsync.hostname (Rsync.self s)) p) = Some e ->
           e = RsyncError) ->
        ∃ b, fst (Rsync.batch_transfer env paths s) = Return b)
     ∧ (forall l1 p l2 e,
          paths = l1 ++ p :: l2 ->
          Forall (pair_succeeds env (Rsync.hostname (Rsync.self s))) l1 ->
          Rsync.sysrsync_run env (run_of env (Rsync.hostname (Rsync.self s)) p) = Some e ->
          e ≠ RsyncError ->
          fst (Rsync.batch_transfer env paths s) = Raise e)).
Proof.
  unfold every_exception_becomes_False.
  rewrite transfer_exact, batch_transfer_exact. simpl.
  split; [|split].
  - by intros ->.
  - intros Hno. unfold transfer_failure. rewrite Hno. split; [|split].
    + by destruct (Rsync.sysrsync_run env _).
    + intros e He. rewrite He. split; [done|].
      intros Hall. by specialize (Hall e eq_refl).
    + intros Hnot. rewrite batch_result_unbound by done.
      by rewrite bool_decide_eq_false_2.
  - intros Hhas. unfold transfer_failure. rewrite Hhas.
    split; [|split; [|split]].
    + by intros ->.
    + intros e He Hne. rewrite He. split; [by destruct e|].
      intros Hall. specialize (Hall e eq_refl). by destruct e.
    + intros Hall. rewrite batch_result_rsync_errors by done. eauto.
    + intros l1 p l2 e -> Hl1 Hp He. by apply batch_result_raise.
Qed.

Lemma C9_witness :
  fst (Rsync.transfer ex_rsync_env "b" "/remote/b" ex_manager)
  = Raise (OtherException "AttributeError")
  ∧ fst (Rsync.transfer ex_rsync_env_bound "x" "/remote/x" ex_manager)
    = Raise (OtherException "OSError").
Proof.
  split.
  - destruct (C9_no_failure_becomes_False ex_rsync_env "b" "/remote/b" [] ex_manager)
      as (_ & Hno & _).
    destruct (Hno eq_refl) as (_ & H & _).
    destruct (H RsyncError eq_refl) as [Hraise _]. exact Hraise.
  - destruct (C9_no_failure_becomes_False ex_rsync_env_bound "x" "/remote/x" []
                ex_manager) as (_ & _ & Hhas).
    destruct (Hhas eq_refl) as (_ & H & _).
    destruct (H (OtherException "OSError") eq_refl) as [Hraise _]; [discriminate|].
    exact Hraise.
Defined.

(** * The scenarios of the specification, run on the model *)

(** Allow the one instance to go, then delete: one deletion, the row is
    gone, the file is still there, and the two events are recorded. *)
Example scenario_allow_then_delete :
  let w1 := snd (set_one_file_deletion_policy (ex_env false) scenario_policy_args
                   scenario_world) in
  let out := delete_instances (ex_env false) ex_file "standard" None w1 in
  db_instances (db w1) = [ex_allowed]
  ∧ fst out = Return {| n_deleted := 1; n_kept := 0; n_error := 0 |}
  ∧ db_instances (db (snd out)) = []
  ∧ db_files (db (snd out)) = [ex_file]
  ∧ FileEvent.type <$> db_events (db (snd out))
    = ["instance_deletion_policy_changed"; "delete_instance"].
Proof. vm_compute. repeat split; reflexivity. Qed.

(** Two instances, one allowed and one not. *)
Example scenario_one_allowed_one_protected :
  fst (delete_instances (ex_env false) ex_file "standard" None scenario_two_world)
  = Return {| n_deleted := 1; n_kept := 1; n_error := 0 |}.
Proof. vm_compute. reflexivity. Qed.

(** The store raises for one instance: one error, its row stays, and the
    only deletion event is that of the instance that went. *)
Example scenario_backend_raises :
  let out := delete_instances (ex_env false) ex_file "standard" None ex_world in
  fst out = Return {| n_deleted := 1; n_kept := 1; n_error := 1 |}
  ∧ db_instances (db (snd out)) = [ex_protected; ex_unreachable]
  ∧ db_events (db (snd out)) = [deletion_event (ex_env false) ex_file ex_allowed].
Proof. vm_compute. repeat split; reflexivity. Qed.

(** * Further properties of the code *)

(** ** DeletionPolicy *)

(** X1.  [parse_safe] gives [ALLOWED] for the text [allowed] and for no
    other text; every other text gives [DISALLOWED].  It changes neither
    the tables nor the session, and it logs (one warning) exactly when the
    text is neither of the two policy names. *)
Theorem X1_parse_safe_denies_by_default text w :
  (fst (parse_safe text w) = Return ALLOWED ↔ text = "allowed")
  ∧ (text ≠ "allowed" -> fst (parse_safe text w) = Return DISALLOWED)
  ∧ db (snd (parse_safe text w)) = db w
  ∧ session (snd (parse_safe text w)) = session w
  ∧ (new_calls w (snd (parse_safe text w)) = []
     ↔ text = "allowed" ∨ text = "disallowed").
Proof.
  rewrite parse_safe_exact. simpl. rewrite new_calls_extend.
  unfold policy_of_text, parse_safe_calls.
  split; [|split; [|split; [|split]]].
  - destruct (decide (text = "allowed")); [done|].
    split; [intros [= ?]; done|done].
  - intros H. by rewrite decide_False.
  - done.
  - by rewrite app_nil_r.
  - destruct (decide (text = "disallowed")); [by split; auto|].
    destruct (decide (text = "allowed")); [by split; auto|].
    split; [done|]. by intros [?|?].
Qed.

Lemma X1_witness : fst (parse_safe "Allowed" ex_world) = Return DISALLOWED.
Proof.
  apply (X1_parse_safe_denies_by_default "Allowed" ex_world). discriminate.
Defined.

(** X2.  [parse_safe] after [textualize] gives back the two policy values
    as they are, without a warning; any other integer is rendered as a text
    that [parse_safe] does not know and comes back as [DISALLOWED].  Each of
    the two policy names is the [textualize] of what [parse_safe] makes of
    it. *)
Theorem X2_textualize_parse_safe v w :
  fst (parse_safe (textualize v) w)
  = Return (if decide (v = ALLOWED) then ALLOWED else DISALLOWED)
  ∧ (v = ALLOWED ∨ v = DISALLOWED -> parse_safe (textualize v) w = (Return v, w))
  ∧ (forall text, text = "allowed" ∨ text = "disallowed" ->
       ∃ p, parse_safe text w = (Return p, w) ∧ textualize p = text).
Proof.
  split; [|split].
  - rewrite parse_safe_exact. simpl. unfold textualize, policy_of_text.
    destruct (decide (v = DISALLOWED)) as [->|H0]; [done|].
    destruct (decide (v = ALLOWED)) as [->|H1]; [done|].
    by rewrite decide_False.
  - intros [->| ->]; by rewrite parse_safe_exact, extend_nil.
  - intros text [->| ->].
    + exists ALLOWED. by rewrite parse_safe_exact, extend_nil.
    + exists DISALLOWED. by rewrite parse_safe_exact, extend_nil.
Qed.

Lemma X2_witness : parse_safe (textualize ALLOWED) ex_world = (Return ALLOWED, ex_world).
Proof. apply (X2_textualize_parse_safe ALLOWED ex_world). by left. Defined.

(** ** FileInstance *)

Lemma FileInstance_init_Return store_obj parent_dirs name policy w i :
  fst (FileInstance_init store_obj parent_dirs name policy w) = Return i ->
  contains_char "/"%char name = false
  ∧ i = {| FileInstance.store := store_id store_obj;
           FileInstance.parent_dirs := parent_dirs;
           FileInstance.name := name;
           FileInstance.deletion_policy := default DISALLOWED policy;
           FileInstance.store_object := store_obj |}.
Proof.
  unfold FileInstance_init.
  destruct (contains_char "/"%char name); [done|].
  simpl. by intros [= <-].
Qed.

(** X3.  An instance made by the constructor without a policy has the
    policy [DISALLOWED], a name without a slash and the id of its store;
    once its row is in a catalog with unique keys, no deletion request, in
    any mode, with any filter, in either snapshot, and no sequence of such
    requests removes it. *)
Theorem X3_default_policy_instance_is_never_deleted
    env self mode restrict w w0 store_obj parent_dirs name i :
  fst (FileInstance_init store_obj parent_dirs name None w0) = Return i ->
  i ∈ db_instances (db w) ->
  session w = [] ->
  unique_keys (db w) ->
  FileInstance.deletion_policy i = DISALLOWED
  ∧ contains_char "/"%char (FileInstance.name i) = false
  ∧ FileInstance.store i = store_id (FileInstance.store_object i)
  ∧ i ∈ db_instances (db (snd (delete_instances env self mode restrict w)))
  ∧ i ∈ db_instances (db (snd (Old.delete_instances env self w)))
  ∧ (forall calls, i ∈ db_instances (db (run_calls calls w))).
Proof.
  intros [Hname ->]%FileInstance_init_Return Hi Hsess Hnd. simpl.
  split; [done|]. split; [done|]. split; [done|]. split; [|split].
  - by apply (interlock_delete_instances env self mode restrict w).
  - by apply (interlock_old_delete_instances env self w).
  - intros calls. by apply run_calls_keep.
Qed.

Lemma X3_witness :
  ex_protected ∈ db_instances
    (db (snd (delete_instances (ex_env false) ex_file "standard" None ex_world))).
Proof.
  apply (X3_default_policy_instance_is_never_deleted
           (ex_env false) ex_file "standard" None ex_world ex_world
           ex_store2 "12345" "zen.12345.67890.uv" ex_protected).
  - reflexivity.
  - apply (bool_decide_unpack _). vm_compute. exact I.
  - reflexivity.
  - exact ex_world_unique_keys.
Defined.

Lemma ends_with_char_cons c d s :
  ends_with_char c (String d s)
  = match s with
    | EmptyString => bool_decide (c = d)
    | _ => ends_with_char c s
    end.
Proof. by destruct s. Qed.

Lemma ends_with_char_append c a b :
  b ≠ EmptyString -> ends_with_char c (a +:+ b) = ends_with_char c b.
Proof.
  intros Hb. induction a as [|d a IH]; [done|].
  change (String d a +:+ b) with (String d (a +:+ b)).
  rewrite ends_with_char_cons, IH.
  destruct (a +:+ b) eqn:Hab; [|done].
  destruct a; [|done]. simpl in Hab. done.
Qed.

Lemma string_append_nil_r (a : string) : a +:+ "" = a.
Proof.
  induction a as [|d a IH]; [done|].
  change (String d (a +:+ "") = String d a). by f_equal.
Qed.

Lemma starts_with_char_append c a b :
  a ≠ EmptyString -> starts_with_char c (a +:+ b) = starts_with_char c a.
Proof. by destruct a. Qed.

Lemma string_append_nil_l (a : string) : "" +:+ a = a.
Proof. reflexivity. Qed.

(** [os.path.join] can be taken from the left or from the right. *)
Lemma path_join_assoc a b c :
  path_join (path_join a b) c = path_join a (path_join b c).
Proof.
  destruct (starts_with_char "/"%char c) eqn:Hc.
  { unfold path_join. rewrite Hc. simpl. by rewrite Hc. }
  destruct (decide (b = EmptyString)) as [->|Hb].
  { unfold path_join. simpl. rewrite Hc.
    destruct (decide (a = EmptyString)) as [->|Ha].
    { simpl. rewrite !string_append_nil_l. by rewrite Hc. }
    rewrite !(bool_decide_eq_false_2 (a = "")) by done. simpl.
    rewrite !string_append_nil_l, Hc.
    destruct (ends_with_char "/"%char a) eqn:Ha'.
    - rewrite string_append_nil_r. rewrite bool_decide_eq_false_2 by done.
      simpl. by rewrite Ha'.
    - rewrite bool_decide_eq_false_2 by (by destruct a).
      rewrite ends_with_char_append by done. simpl.
      by rewrite string_append_assoc. }
  assert (Hbc : forall x, starts_with_char "/"%char (b +:+ x)
                          = starts_with_char "/"%char b)
    by (intros x; by apply starts_with_char_append).
  assert (Hne : forall x y : string, y ≠ "" -> x +:+ y ≠ "").
  { intros x y Hy Hx. destruct x; [done|]. done. }
  unfold path_join. rewrite Hc.
  rewrite (bool_decide_eq_false_2 (b = "")) by done. simpl.
  destruct (starts_with_char "/"%char b) eqn:Hsb.
  - rewrite (bool_decide_eq_false_2 (b = "")) by done. simpl.
    destruct (ends_with_char "/"%char b); by rewrite Hbc.
  - destruct (bool_decide (a = "") || ends_with_char "/"%char a) eqn:Ha.
    + rewrite (bool_decide_eq_false_2 (a +:+ b = "")) by (by apply Hne).
      rewrite ends_with_char_append by done. simpl.
      destruct (ends_with_char "/"%char b); rewrite Hbc;
        by rewrite string_append_assoc.
    + rewrite (bool_decide_eq_false_2 (a +:+ "/" +:+ b = "")) by (by apply Hne).
      rewrite !ends_with_char_append by done. simpl.
      destruct (ends_with_char "/"%char b); rewrite Hbc;
        by rewrite !string_append_assoc.
Qed.

Lemma prefix_append (a b : string) : String.prefix a (a +:+ b) = true.
Proof.
  induction a as [|d a IH]; [by destruct b|].
  change (String d a +:+ b) with (String d (a +:+ b)). simpl.
  by destruct (ascii_dec d d).
Qed.

Lemma store_path_relative (i : FileInstance.t) :
  starts_with_char "/"%char (FileInstance.parent_dirs i) = false ->
  starts_with_char "/"%char (FileInstance.name i) = false ->
  starts_with_char "/"%char (store_path i) = false.
Proof.
  intros Hp Hn. unfold store_path, path_join. rewrite Hn.
  destruct (decide (FileInstance.parent_dirs i = "")) as [->|Hne].
  - simpl. by rewrite string_append_nil_l.
  - rewrite (bool_decide_eq_false_2 _ Hne). simpl.
    destruct (ends_with_char _ _); by rewrite starts_with_char_append.
Qed.

(** X4.  The full path of an instance is the path prefix of its store
    joined with its store path.  When neither the parent directories nor
    the name start with a slash, the full path starts with the prefix of
    the store; when the parent directories start with a slash, the prefix
    is dropped and the full path is the store path itself. *)
Theorem X4_full_path_on_store (i : FileInstance.t) :
  full_path_on_store i
  = path_join (path_prefix (FileInstance.store_object i)) (store_path i)
  ∧ (starts_with_char "/"%char (FileInstance.parent_dirs i) = false ->
     starts_with_char "/"%char (FileInstance.name i) = false ->
     String.prefix (path_prefix (FileInstance.store_object i)) (full_path_on_store i)
     = true)
  ∧ (starts_with_char "/"%char (FileInstance.parent_dirs i) = true ->
     full_path_on_store i = store_path i).
Proof.
  unfold full_path_on_store. rewrite path_join_assoc. fold (store_path i).
  split; [done|]. split.
  - intros Hp Hn. pose proof (store_path_relative i Hp Hn) as Hs.
    unfold path_join at 1. rewrite Hs.
    destruct (_ || _); apply prefix_append.
  - intros Hp. unfold path_join at 1.
    assert (starts_with_char "/"%char (store_path i) = true) as ->; [|done].
    unfold store_path, path_join.
    destruct (starts_with_char "/"%char (FileInstance.name i)) eqn:Hn; [done|].
    assert (FileInstance.parent_dirs i ≠ "") as Hne
      by (intros Hnil; by rewrite Hnil in Hp).
    rewrite (bool_decide_eq_false_2 _ Hne). simpl.
    destruct (ends_with_char _ _); by rewrite starts_with_char_append.
Qed.

(** ** Events *)

(** X5.  For a file whose name has no slash, [make_copy_finished_event]
    returns an event of type [copy_finished] under the name of the file,
    without touching the world; its payload holds the connection name, the
    remote path, the error code and the error message it was given, and
    holds a duration and an average rate exactly when one was given
    (anything but [None]). *)
Theorem X5_copy_finished_payload
    env self cn rp code msg duration rate w :
  event_fails self = false ->
  ∃ ev,
    make_copy_finished_event env self cn rp code msg duration rate w = (Return ev, w)
    ∧ FileEvent.name ev = File.name self
    ∧ FileEvent.type ev = "copy_finished"
    ∧ FileEvent.payload ev !! "connection_name" = Some cn
    ∧ FileEvent.payload ev !! "remote_store_path" = Some rp
    ∧ FileEvent.payload ev !! "error_code" = Some code
    ∧ FileEvent.payload ev !! "error_message" = Some msg
    ∧ FileEvent.payload ev !! "duration"
      = (if decide (duration = PyNone) then None else Some duration)
    ∧ FileEvent.payload ev !! "average_rate"
      = (if decide (rate = PyNone) then None else Some rate)
    ∧ (forall k, is_Some (FileEvent.payload ev !! k) ->
         k ∈ ["connection_name"; "remote_store_path"; "error_code";
              "error_message"; "duration"; "average_rate"]).
Proof.
  intros Hv. unfold make_copy_finished_event, make_generic_event.
  rewrite FileEvent_init_ok by done.
  eexists. split; [done|]. simpl.
  split; [done|]. split; [done|].
  destruct (decide (duration ≠ PyNone)) as [Hd|Hd];
    destruct (decide (rate ≠ PyNone)) as [Hr|Hr];
    try apply dec_stable in Hd; try apply dec_stable in Hr; subst;
    rewrite ?decide_True by done; rewrite ?decide_False by done;
    (repeat split; [done..|]);
    intros k [v Hk];
    apply lookup_union_Some_raw in Hk as [Hk|[_ Hk]];
    repeat match type of Hk with
           | <[_:=_]> _ !! _ = Some _ =>
               apply lookup_insert_Some in Hk as [[<- _]|[_ Hk]];
               [set_solver|]
           end;
    done.
Qed.

Lemma X5_witness :
  ∃ ev,
    make_copy_finished_event (ex_env false) ex_file (PyStr "peer") (PyStr "/data/x")
      (PyInt 0) (PyStr "") PyNone (PyInt 1200) ex_world = (Return ev, ex_world)
    ∧ FileEvent.payload ev !! "duration" = None
    ∧ FileEvent.payload ev !! "average_rate" = Some (PyInt 1200).
Proof.
  destruct (X5_copy_finished_payload (ex_env false) ex_file (PyStr "peer")
              (PyStr "/data/x") (PyInt 0) (PyStr "") PyNone (PyInt 1200) ex_world
              eq_refl) as (ev & H1 & _ & _ & _ & _ & _ & _ & H2 & H3 & _).
  exists ev. split; [exact H1|]. split; [exact H2|exact H3].
Defined.

(** ** Request arguments never touch the world *)

Lemma required_arg_str_snd args name w : snd (required_arg_str args name w) = w.
Proof. unfold required_arg_str. by repeat case_match. Qed.

Lemma optional_arg_str_snd args name w : snd (optional_arg_str args name w) = w.
Proof. unfold optional_arg_str. by repeat case_match. Qed.

Lemma required_arg_str_cases args name w :
  (∃ s, required_arg_str args name w = (Return s, w))
  ∨ (∃ fmt a, required_arg_str args name w = (Raise (ServerError fmt a), w)).
Proof. unfold required_arg_str. repeat case_match; eauto. Qed.

Lemma mode_arg_cases args w :
  (∃ m, mode_arg args w = (Return m, w))
  ∨ (∃ fmt a, mode_arg args w = (Raise (ServerError fmt a), w)).
Proof.
  unfold mode_arg, bind, optional_arg_str, ret, raise.
  repeat case_match; simplify_eq; eauto.
Qed.

Lemma mode_arg_ok args m w :
  args !! "mode" = PyStr <$> m ->
  mode_arg args w = (Return (default "standard" m), w).
Proof.
  intros H. unfold mode_arg.
  by erewrite bind_Return by (by apply optional_arg_str_ok).
Qed.

Lemma restrict_to_store_arg_cases args w :
  (∃ rs, restrict_to_store_arg args w = (Return rs, w))
  ∨ (∃ fmt a, restrict_to_store_arg args w = (Raise (ServerError fmt a), w)).
Proof.
  unfold restrict_to_store_arg, bind, optional_arg_str, ret, raise.
  repeat case_match; simplify_eq; eauto;
    match goal with
    | H : Store_get_by_name _ _ = _ |- _ =>
        rewrite Store_get_by_name_exact in H; case_match; simplify_eq; eauto
    end.
Qed.

Lemma restrict_to_store_arg_ok args restrict_name w :
  args !! "restrict_to_store" = PyStr <$> restrict_name ->
  restrict_to_store_arg args w
  = match resolve_filter (db w) restrict_name with
    | Some rs => (Return rs, w)
    | None =>
        (Raise (ServerError "No such store %r" [PyStr (default "" restrict_name)]), w)
    end.
Proof.
  intros H. unfold restrict_to_store_arg.
  erewrite bind_Return by (by apply optional_arg_str_ok).
  destruct restrict_name as [n|]; simpl; [|done].
  unfold bind. rewrite Store_get_by_name_exact.
  by destruct (lookup_store (db w) n).
Qed.

Lemma File_query_get_exact name w :
  File_query_get name w = (Return (lookup_file (db w) name), w).
Proof. done. Qed.

(** ** The endpoint [delete_file_instances] *)

Lemma delete_file_instances_cases env args w :
  (∃ fmt a, delete_file_instances env args w = (Raise (ServerError fmt a), w))
  ∨ (∃ file mode rs,
       delete_file_instances env args w = delete_instances env file mode rs w).
Proof.
  unfold delete_file_instances.
  destruct (required_arg_str_cases args "file_name" w) as [[fname H1]|(f & a & H1)];
    [|left; exists f, a; by apply bind_Raise].
  erewrite bind_Return by done.
  destruct (mode_arg_cases args w) as [[m H2]|(f & a & H2)];
    [|left; exists f, a; by apply bind_Raise].
  erewrite bind_Return by done.
  destruct (restrict_to_store_arg_cases args w) as [[rs H3]|(f & a & H3)];
    [|left; exists f, a; by apply bind_Raise].
  erewrite bind_Return by done.
  erewrite bind_Return by apply File_query_get_exact.
  destruct (lookup_file (db w) fname) as [file|]; eauto.
Qed.

(** X6.  For a request with a file name, an optional mode and an optional
    store name: when no store has the given name, or no file has the given
    name, the endpoint raises a [ServerError] and leaves the world as it
    was, without a call on any store; otherwise it is [delete_instances] on
    that file, with the store of that name as the filter, and with the mode
    [standard] when none is given. *)
Theorem X6_delete_file_instances_endpoint env args w file_name mode restrict_name :
  args !! "file_name" = Some (PyStr file_name) ->
  args !! "mode" = PyStr <$> mode ->
  args !! "restrict_to_store" = PyStr <$> restrict_name ->
  match resolve_filter (db w) restrict_name, lookup_file (db w) file_name with
  | Some rs, Some file =>
      delete_file_instances env args w
      = delete_instances env file (default "standard" mode) rs w
  | _, _ =>
      (∃ fmt a, fst (delete_file_instances env args w) = Raise (ServerError fmt a))
      ∧ snd (delete_file_instances env args w) = w
  end.
Proof.
  intros Hf Hm Hr. unfold delete_file_instances.
  erewrite bind_Return by (by apply required_arg_str_ok).
  erewrite bind_Return by (by apply mode_arg_ok).
  pose proof (restrict_to_store_arg_ok args restrict_name w Hr) as Hrs.
  destruct (resolve_filter (db w) restrict_name) as [rs|].
  - erewrite bind_Return by done.
    erewrite bind_Return by apply File_query_get_exact.
    destruct (lookup_file (db w) file_name); [done|]. simpl. eauto.
  - erewrite bind_Raise by done. simpl.
    destruct (lookup_file (db w) file_name); eauto.
Qed.

Lemma X6_witness :
  delete_file_instances (ex_env false)
    (<["file_name" := PyStr "zen.12345.67890.uv"]> ∅) ex_world
  = delete_instances (ex_env false) ex_file "standard" None ex_world.
Proof.
  exact (X6_delete_file_instances_endpoint (ex_env false)
           (<["file_name" := PyStr "zen.12345.67890.uv"]> ∅) ex_world
           "zen.12345.67890.uv" None None eq_refl eq_refl eq_refl).
Defined.

(** X7.  Whatever the arguments of the request, in a clean session on a
    catalog with unique instance keys: the endpoint removes no row whose
    policy is not [ALLOWED], and every [store._delete] call it makes is the
    removal of an [ALLOWED] row of the catalog. *)
Theorem X7_delete_file_instances_keeps_protected env args w :
  session w = [] ->
  unique_keys (db w) ->
  (forall i, i ∈ db_instances (db w) ->
             FileInstance.deletion_policy i ≠ ALLOWED ->
             i ∈ db_instances (db (snd (delete_file_instances env args w))))
  ∧ (forall s p c,
       StoreDelete s p c ∈ new_calls w (snd (delete_file_instances env args w)) ->
       ∃ j, j ∈ db_instances (db w)
            ∧ FileInstance.deletion_policy j = ALLOWED
            ∧ s = FileInstance.store_object j ∧ p = store_path j).
Proof.
  intros Hsess Hnd.
  destruct (delete_file_instances_cases env args w)
    as [(f & a & ->)|(file & mode & rs & ->)].
  - simpl. split; [done|]. intros s p c. unfold new_calls.
    rewrite drop_all. by intros ?%elem_of_nil.
  - destruct (interlock_delete_instances env file mode rs w Hsess Hnd)
      as (Hrows & (t & Ht & Hcalls) & _).
    split; [done|]. intros s p c. unfold new_calls. rewrite Ht, drop_app_length.
    intros (j & Hj & ?)%Hcalls. exists j. split; [|done].
    by eapply instances_of_elem.
Qed.

Lemma X7_witness :
  ex_protected
  ∈ db_instances (db (snd (delete_file_instances (ex_env false)
                             (<["file_name" := PyStr "zen.12345.67890.uv"]> ∅)
                             ex_world))).
Proof.
  apply (X7_delete_file_instances_keeps_protected (ex_env false)
           (<["file_name" := PyStr "zen.12345.67890.uv"]> ∅) ex_world).
  - reflexivity.
  - exact ex_world_unique_keys.
  - apply (bool_decide_unpack _). vm_compute. exact I.
  - discriminate.
Defined.

(** ** The endpoint [create_file_event] *)

(** The event that [create_file_event] builds. *)
Lemma create_file_event_known env args w file_name type payload file :
  args !! "file_name" = Some (Plain (PyStr file_name)) ->
  args !! "type" = Some (Plain (PyStr type)) ->
  args !! "payload" = Some (Dict payload) ->
  lookup_file (db w) file_name = Some file ->
  create_file_event env args w
  = if decide (is_Some (payload !! "self") ∨ is_Some (payload !! "type")) then
      (Raise (OtherException "TypeError"), w)
    else if event_fails file then
      (Raise (ValueError msg_illegal_file_name [PyStr (File.name file)]), w)
    else if commit_fails env then
      (Raise (ServerError msg_failed_to_add_event []),
       {| db := db w; session := [];
          trace := trace w ++ [Commit; Rollback; LogException] |})
    else
      (Return ∅,
       {| db := apply_ops
                  (session w
                   ++ [SessAdd {| FileEvent.name := File.name file;
                                  FileEvent.time :=
                                    {| dt_seconds := utcnow env; dt_microsecond := 0 |};
                                  FileEvent.type := type;
                                  FileEvent.payload := payload |}])
                  (db w);
          session := [];
          trace := trace w ++ [Commit] |}).
Proof.
  intros Hf Ht Hp Hfile. unfold create_file_event.
  assert (required_req_str args "file_name" w = (Return file_name, w)) as H1
    by (unfold required_req_str; by rewrite Hf).
  assert (required_req_str args "type" w = (Return type, w)) as H2
    by (unfold required_req_str; by rewrite Ht).
  assert (required_req_dict args "payload" w = (Return payload, w)) as H3
    by (unfold required_req_dict; by rewrite Hp).
  erewrite bind_Return by done. erewrite bind_Return by done.
  erewrite bind_Return by done.
  erewrite bind_Return by apply File_query_get_exact. rewrite Hfile.
  unfold call_make_generic_event, make_generic_event, event_fails.
  destruct (decide _) as [Hres|Hres]; [done|].
  destruct (contains_char "/"%char (File.name file)) eqn:Hs.
  { apply bind_Raise. by apply FileEvent_init_slash. }
  erewrite bind_Return by (by apply FileEvent_init_ok).
  unfold bind, session_add, session_push, set_session, try_except,
    session_commit, session_rollback, log_exception, emit, raise, ret. simpl.
  destruct (commit_fails env); simpl; by rewrite <- ?app_assoc.
Qed.

(** X8.  For a request with a file name, a type and a payload, in a clean
    session: with no file of that name the endpoint raises a [ServerError]
    and the world is as before; with a payload that has the key [self] or
    [type] the call of [make_generic_event] fails with [TypeError] and the
    world is as before; otherwise, for a file name without a slash, a
    commit that goes through appends exactly one event, with the name of
    the file and the given type and payload, and leaves every other table
    as it was, and a commit that fails is rolled back and raised as a
    [ServerError], the tables being as before. *)
Theorem X8_create_file_event env args w file_name type payload :
  args !! "file_name" = Some (Plain (PyStr file_name)) ->
  args !! "type" = Some (Plain (PyStr type)) ->
  args !! "payload" = Some (Dict payload) ->
  session w = [] ->
  match lookup_file (db w) file_name with
  | None =>
      create_file_event env args w
      = (Raise (ServerError msg_no_known_file [PyStr file_name]), w)
  | Some file =>
      (is_Some (payload !! "self") ∨ is_Some (payload !! "type") ->
       create_file_event env args w = (Raise (OtherException "TypeError"), w))
      ∧ (payload !! "self" = None -> payload !! "type" = None ->
         event_fails file = false ->
         if commit_fails env then
           fst (create_file_event env args w)
           = Raise (ServerError msg_failed_to_add_event [])
           ∧ db (snd (create_file_event env args w)) = db w
           ∧ session (snd (create_file_event env args w)) = []
         else
           fst (create_file_event env args w) = Return ∅
           ∧ db_events (db (snd (create_file_event env args w)))
             = db_events (db w)
               ++ [{| FileEvent.name := File.name file;
                      FileEvent.time :=
                        {| dt_seconds := utcnow env; dt_microsecond := 0 |};
                      FileEvent.type := type;
                      FileEvent.payload := payload |}]
           ∧ db_instances (db (snd (create_file_event env args w)))
             = db_instances (db w)
           ∧ db_files (db (snd (create_file_event env args w))) = db_files (db w)
           ∧ db_stores (db (snd (create_file_event env args w))) = db_stores (db w))
  end.
Proof.
  intros Hf Ht Hp Hsess.
  destruct (lookup_file (db w) file_name) as [file|] eqn:Hfile.
  - rewrite (create_file_event_known env args w file_name type payload file)
      by done.
    split.
    + intros Hres. by rewrite decide_True.
    + intros H1 H2 Hv.
      rewrite decide_False by (rewrite H1, H2; intros [[? ?]|[? ?]]; done).
      rewrite Hv. destruct (commit_fails env); simpl; [done|].
      rewrite Hsess. done.
  - unfold create_file_event.
    erewrite bind_Return by (unfold required_req_str; by rewrite Hf).
    erewrite bind_Return by (unfold required_req_str; by rewrite Ht).
    erewrite bind_Return by (unfold required_req_dict; by rewrite Hp).
    erewrite bind_Return by apply File_query_get_exact. by rewrite Hfile.
Qed.

Lemma X8_witness :
  create_file_event (ex_env false)
    (<["file_name" := Plain (PyStr "no.such.file")]>
       (<["type" := Plain (PyStr "note")]> (<["payload" := Dict ∅]> ∅))) ex_world
  = (Raise (ServerError msg_no_known_file [PyStr "no.such.file"]), ex_world).
Proof.
  exact (X8_create_file_event (ex_env false)
           (<["file_name" := Plain (PyStr "no.such.file")]>
              (<["type" := Plain (PyStr "note")]> (<["payload" := Dict ∅]> ∅)))
           ex_world "no.such.file" "note" ∅ eq_refl eq_refl eq_refl eq_refl).
Defined.

Lemma required_req_str_cases args name w :
  (∃ s, args !! name = Some (Plain (PyStr s))
        ∧ required_req_str args name w = (Return s, w))
  ∨ (∃ e, required_req_str args name w = (Raise e, w)).
Proof. unfold required_req_str, ret, raise. repeat case_match; eauto. Qed.

Lemma required_req_dict_cases args name w :
  (∃ d, args !! name = Some (Dict d)
        ∧ required_req_dict args name w = (Return d, w))
  ∨ (∃ e, required_req_dict args name w = (Raise e, w)).
Proof. unfold required_req_dict, ret, raise. repeat case_match; eauto. Qed.

(** X9.  Whatever its arguments, in a clean session, [create_file_event]
    only appends to the events: the events of before are a prefix of the
    events of after, at most one event is added, and the instances, the
    files and the stores are as before; it makes no call on a store. *)
Theorem X9_create_file_event_only_appends env args w :
  session w = [] ->
  db_events (db w) `prefix_of` db_events (db (snd (create_file_event env args w)))
  ∧ length (db_events (db (snd (create_file_event env args w))))
    ≤ S (length (db_events (db w)))
  ∧ db_instances (db (snd (create_file_event env args w))) = db_instances (db w)
  ∧ db_files (db (snd (create_file_event env args w))) = db_files (db w)
  ∧ db_stores (db (snd (create_file_event env args w))) = db_stores (db w)
  ∧ store_deletes (new_calls w (snd (create_file_event env args w))) = [].
Proof.
  intros Hsess.
  assert (Hsame : forall e,
            create_file_event env args w = (Raise e, w) ->
            db_events (db w) `prefix_of` db_events (db (snd (create_file_event env args w)))
            ∧ length (db_events (db (snd (create_file_event env args w))))
              ≤ S (length (db_events (db w)))
            ∧ db_instances (db (snd (create_file_event env args w))) = db_instances (db w)
            ∧ db_files (db (snd (create_file_event env args w))) = db_files (db w)
            ∧ db_stores (db (snd (create_file_event env args w))) = db_stores (db w)
            ∧ store_deletes (new_calls w (snd (create_file_event env args w))) = []).
  { intros e ->. simpl. unfold new_calls. rewrite drop_all.
    repeat split; try done. lia. }
  destruct (required_req_str_cases args "file_name" w) as [(fname & Hf & H1)|[e H1]];
    [|apply (Hsame e); unfold create_file_event; by apply bind_Raise].
  destruct (required_req_str_cases args "type" w) as [(type & Ht & H2)|[e H2]]; cycle 1.
  { apply (Hsame e). unfold create_file_event.
    erewrite bind_Return by done. by apply bind_Raise. }
  destruct (required_req_dict_cases args "payload" w) as [(payload & Hp & H3)|[e H3]];
    cycle 1.
  { apply (Hsame e). unfold create_file_event.
    erewrite bind_Return by done. erewrite bind_Return by done.
    by apply bind_Raise. }
  destruct (lookup_file (db w) fname) as [file|] eqn:Hfile; cycle 1.
  { eapply Hsame. unfold create_file_event.
    erewrite bind_Return by done. erewrite bind_Return by done.
    erewrite bind_Return by done.
    erewrite bind_Return by apply File_query_get_exact. by rewrite Hfile. }
  rewrite (create_file_event_known env args w fname type payload file) in * by done.
  destruct (decide _); [by eapply Hsame|].
  destruct (event_fails file); [by eapply Hsame|].
  destruct (commit_fails env); simpl.
  - unfold new_calls. simpl. rewrite drop_app_length.
    repeat split; try done. lia.
  - rewrite Hsess. simpl. unfold new_calls. simpl. rewrite drop_app_length.
    repeat split; try done.
    + by apply prefix_app_r.
    + rewrite length_app. simpl. lia.
Qed.

Lemma X9_witness :
  db_instances (db (snd (create_file_event (ex_env false) ∅ ex_world)))
  = db_instances (db ex_world).
Proof.
  apply (X9_create_file_event_only_appends (ex_env false) ∅ ex_world). reflexivity.
Defined.

(** ** The endpoint [locate_file_instance] *)

(** X10.  [locate_file_instance] never changes the world.  For a request
    that names a file: with no file of that name, or with a file that has
    no instance, it raises a [ServerError]; otherwise it describes the
    first instance of the file, in the order of the table, by its full
    path, the name and the host of its store, and its path on the store. *)
Theorem X10_locate_file_instance args w :
  snd (locate_file_instance args w) = w
  ∧ (forall file_name,
       args !! "file_name" = Some (PyStr file_name) ->
       match lookup_file (db w) file_name with
       | None =>
           fst (locate_file_instance args w)
           = Raise (ServerError msg_no_known_file [PyStr file_name])
       | Some file =>
           match instances_of file (db w) with
           | [] =>
               fst (locate_file_instance args w)
               = Raise (ServerError msg_no_instances [PyStr file_name])
           | inst :: _ =>
               ∃ d, fst (locate_file_instance args w) = Return d
                    ∧ d !! "full_path_on_store" = Some (PyStr (full_path_on_store inst))
                    ∧ d !! "store_name"
                      = Some (PyStr (store_name (FileInstance.store_object inst)))
                    ∧ d !! "store_path" = Some (PyStr (store_path inst))
                    ∧ d !! "store_ssh_host"
                      = Some (PyStr (ssh_host (FileInstance.store_object inst)))
           end
       end).
Proof.
  split.
  - unfold locate_file_instance.
    destruct (required_arg_str_cases args "file_name" w) as [[fname H1]|(f & a & H1)].
    + erewrite bind_Return by done.
      erewrite bind_Return by apply File_query_get_exact.
      destruct (lookup_file (db w) fname) as [file|]; [|done].
      unfold bind, instances. simpl.
      by destruct (instances_of file (db w)).
    + by erewrite bind_Raise by done.
  - intros file_name Hf. unfold locate_file_instance.
    erewrite bind_Return by (by apply required_arg_str_ok).
    erewrite bind_Return by apply File_query_get_exact.
    destruct (lookup_file (db w) file_name) as [file|]; [|done].
    unfold bind, instances. simpl.
    destruct (instances_of file (db w)) as [|inst rest]; [done|].
    eexists. split; [done|]. done.
Qed.

(** ** The endpoint [delete_file_instances_matching_query] *)

(** A request that returns from a clean session leaves a clean session. *)
Lemma delete_instances_session env self mode restrict w c :
  session w = [] ->
  fst (delete_instances env self mode restrict w) = Return c ->
  session (snd (delete_instances env self mode restrict w)) = [].
Proof.
  intros Hsess.
  destruct (decide (mode = "standard")) as [->|Hm1].
  { rewrite delete_instances_standard.
    destruct (delete_instances_loop _ _ _ _ _ _ _ _) as [[c1|e] w1]; [|done].
    unfold finish_standard. by destruct (commit_fails env). }
  destruct (decide (mode = "noop")) as [->|Hm2].
  { rewrite delete_instances_noop_exact. simpl. by rewrite Hsess. }
  by rewrite delete_instances_bad_mode.
Qed.

(** The loop over the files found is a sequence of deletion requests: one
    per file up to the first request that raises. *)
Lemma matching_query_loop_is_run_calls env mode rs files : forall stats w,
  session w = [] ->
  ∃ k,
    snd (for_each (matching_query_body env mode rs) files stats w)
    = run_calls ((fun f => CallDelete env f mode rs) <$> take k files) w.
Proof.
  induction files as [|f files IH]; intros stats w Hsess.
  - exists 0. done.
  - simpl. unfold bind at 1. unfold matching_query_body at 1. unfold bind at 1.
    destruct (delete_instances env f mode rs w) as [[c|e] w1] eqn:Hd.
    + unfold ret at 1.
      assert (session w1 = []) as Hs1.
      { pose proof (delete_instances_session env f mode rs w c Hsess) as H.
        rewrite Hd in H. by apply H. }
      destruct (IH (<[File.name f := c]> stats) w1 Hs1) as [k Hk].
      exists (S k). simpl. rewrite Hk.
      assert (set_session w [] = w) as -> by (destruct w; simpl in *; by subst).
      by rewrite Hd.
    + exists 1. simpl.
      assert (set_session w [] = w) as -> by (destruct w; simpl in *; by subst).
      by rewrite Hd.
Qed.

Lemma run_calls_sublist calls : forall w,
  db_instances (db (run_calls calls w)) `sublist_of` db_instances (db w).
Proof.
  induction calls as [|call calls IH]; intros w; [done|].
  simpl. etrans; [apply IH|apply run_call_sublist].
Qed.

Lemma matching_query_cases senv args w :
  (∃ e, delete_file_instances_matching_query senv args w = (Raise e, w))
  ∨ (∃ mode rs files,
       delete_file_instances_matching_query senv args w
       = for_each (matching_query_body (search_env senv) mode rs) files ∅ w).
Proof.
  unfold delete_file_instances_matching_query.
  destruct (required_arg_str_cases args "query" w) as [[q H1]|(f & a & H1)];
    [|left; eexists; by apply bind_Raise].
  erewrite bind_Return by done.
  destruct (mode_arg_cases args w) as [[m H2]|(f & a & H2)];
    [|left; eexists; by apply bind_Raise].
  erewrite bind_Return by done.
  destruct (restrict_to_store_arg_cases args w) as [[rs H3]|(f & a & H3)];
    [|left; eexists; by apply bind_Raise].
  erewrite bind_Return by done.
  unfold bind, run_search.
  destruct (compile_search senv q (db w)) as [files|e]; eauto.
Qed.

(** X11.  Whatever the arguments, whatever the search finds and however
    the stores and the commits behave, in a clean session on a catalog with
    unique instance keys: the batch endpoint removes no row whose policy is
    not [ALLOWED], and the rows it leaves are rows of before. *)
Theorem X11_matching_query_keeps_protected senv args w :
  session w = [] ->
  unique_keys (db w) ->
  (forall i, i ∈ db_instances (db w) ->
             FileInstance.deletion_policy i ≠ ALLOWED ->
             i ∈ db_instances
                   (db (snd (delete_file_instances_matching_query senv args w))))
  ∧ db_instances (db (snd (delete_file_instances_matching_query senv args w)))
    `sublist_of` db_instances (db w).
Proof.
  intros Hsess Hnd.
  destruct (matching_query_cases senv args w)
    as [[e ->]|(mode & rs & files & ->)]; [done|].
  destruct (matching_query_loop_is_run_calls (search_env senv) mode rs files ∅ w Hsess)
    as [k ->].
  split.
  - intros i Hi Hp. by apply run_calls_keep.
  - apply run_calls_sublist.
Qed.

Lemma X11_witness :
  ex_protected
  ∈ db_instances
      (db (snd (delete_file_instances_matching_query
                  {| search_env := ex_env false;
                     compile_search := fun _ d => Return (db_files d) |}
                  (<["query" := PyStr "{}"]> ∅) ex_world))).
Proof.
  apply (X11_matching_query_keeps_protected
           {| search_env := ex_env false;
              compile_search := fun _ d => Return (db_files d) |}
           (<["query" := PyStr "{}"]> ∅) ex_world).
  - reflexivity.
  - exact ex_world_unique_keys.
  - apply (bool_decide_unpack _). vm_compute. exact I.
  - discriminate.
Defined.

Lemma matching_query_noop_loop env rs files : forall stats w,
  for_each (matching_query_body env "noop" rs) files stats w
  = (Return (foldl (fun st f =>
                      <[File.name f :=
                          tally (classify env true (Some (need_chmod_of env)) rs)
                            (instances_of f (db w)) zero_counts]> st)
               stats files),
     extend w []
       (files ≫= fun f =>
          instances_of f (db w)
            ≫= body_effects env true (Some (need_chmod_of env)) rs)).
Proof.
  induction files as [|f files IH]; intros stats w.
  - simpl. by rewrite extend_nil.
  - simpl. unfold bind at 1. unfold matching_query_body at 1. unfold bind at 1.
    rewrite delete_instances_noop_exact. unfold ret at 1.
    rewrite IH. simpl. rewrite extend_extend. done.
Qed.

Lemma foldl_insert_lookup {A} (key : A -> string) (val : A -> Counts) l :
  forall (st : gmap string Counts) name,
    foldl (fun st f => <[key f := val f]> st) st l !! name
    = match list_find (fun f => key f = name) (reverse l) with
      | Some (_, f) => Some (val f)
      | None => st !! name
      end.
Proof.
  induction l as [|f l IH]; intros st name; [done|].
  simpl. rewrite IH, reverse_cons.
  destruct (list_find (fun f0 => key f0 = name) (reverse l)) as [[n g]|] eqn:Hfind.
  - erewrite list_find_app_l by done. done.
  - rewrite list_find_app_r by done. simpl.
    destruct (decide (key f = name)) as [<-|Hne]; simpl.
    + by rewrite lookup_insert_eq.
    + by rewrite lookup_insert_ne.
Qed.

(** X12.  A batch request in noop mode, with a store filter that
    resolves and a search that finds [files]: the tables and the session
    are as before and the only calls made are [logger.info] calls; the
    request returns, and its statistics have an entry exactly for the names
    of the files found, each entry being the counts that a noop
    [delete_instances] gives for a file of that name. *)
Theorem X12_matching_query_noop senv args w query restrict_name rs files :
  args !! "query" = Some (PyStr query) ->
  args !! "mode" = Some (PyStr "noop") ->
  args !! "restrict_to_store" = PyStr <$> restrict_name ->
  resolve_filter (db w) restrict_name = Some rs ->
  compile_search senv query (db w) = Return files ->
  db (snd (delete_file_instances_matching_query senv args w)) = db w
  ∧ session (snd (delete_file_instances_matching_query senv args w)) = session w
  ∧ Forall is_LogInfo
      (new_calls w (snd (delete_file_instances_matching_query senv args w)))
  ∧ ∃ stats,
      fst (delete_file_instances_matching_query senv args w) = Return stats
      ∧ (forall name, is_Some (stats !! name) ↔ name ∈ File.name <$> files)
      ∧ (forall name c, stats !! name = Some c ->
           ∃ f, f ∈ files ∧ File.name f = name
                ∧ fst (delete_instances (search_env senv) f "noop" rs w) = Return c).
Proof.
  intros Hq Hm Hr Hrs Hsearch. unfold delete_file_instances_matching_query.
  erewrite bind_Return by (by apply required_arg_str_ok).
  erewrite bind_Return by (by apply (mode_arg_ok args (Some "noop"))).
  erewrite bind_Return by (by rewrite (restrict_to_store_arg_ok args restrict_name), Hrs).
  erewrite bind_Return by (unfold run_search; by rewrite Hsearch).
  simpl. rewrite matching_query_noop_loop. simpl.
  split; [done|]. split; [by rewrite app_nil_r|]. split.
  - rewrite new_calls_extend. apply Forall_bind. apply Forall_forall.
    intros f _. apply effects_noop.
  - eexists. split; [done|]. split.
    + intros name. rewrite foldl_insert_lookup.
      destruct (list_find _ _) as [[n f]|] eqn:Hfind.
      * apply list_find_Some in Hfind as (Hin & Hname & _).
        split; [|eauto]. intros _. apply list_elem_of_fmap.
        exists f. split; [done|].
        apply list_elem_of_lookup_2 in Hin. by apply elem_of_reverse.
      * rewrite lookup_empty. split; [by intros [? ?]|].
        intros (f & -> & Hf)%list_elem_of_fmap.
        apply list_find_None in Hfind. rewrite Forall_forall in Hfind.
        exfalso. apply (Hfind f); [by apply elem_of_reverse|done].
    + intros name c. rewrite foldl_insert_lookup.
      destruct (list_find _ _) as [[n f]|] eqn:Hfind; [|by rewrite lookup_empty].
      apply list_find_Some in Hfind as (Hin & Hname & _).
      intros [= <-]. exists f. split.
      * apply list_elem_of_lookup_2 in Hin. by apply elem_of_reverse.
      * split; [done|]. by rewrite delete_instances_noop_exact.
Qed.

Lemma X12_witness :
  db (snd (delete_file_instances_matching_query
             {| search_env := ex_env false;
                compile_search := fun _ d => Return (db_files d) |}
             (<["query" := PyStr "{}"]> (<["mode" := PyStr "noop"]> ∅)) ex_world))
  = db ex_world.
Proof.
  apply (X12_matching_query_noop
           {| search_env := ex_env false;
              compile_search := fun _ d => Return (db_files d) |}
           (<["query" := PyStr "{}"]> (<["mode" := PyStr "noop"]> ∅)) ex_world
           "{}" None None [ex_file]); reflexivity.
Defined.

(** ** File records *)

Lemma bind_Return_inv {S A B} (m : M S A) (k : A -> M S B) s b s' :
  bind m k s = (Return b, s') ->
  ∃ a s1, m s = (Return a, s1) ∧ k a s1 = (Return b, s').
Proof.
  unfold bind. destruct (m s) as [[a|e] s1]; [eauto|done].
Qed.

Lemma required_arg_str_inv args name w s w' :
  required_arg_str args name w = (Return s, w') ->
  args !! name = Some (PyStr s) ∧ w' = w.
Proof.
  unfold required_arg_str, ret, raise. repeat case_match; naive_solver.
Qed.

Lemma required_arg_int_inv args name w z w' :
  required_arg_int args name w = (Return z, w') ->
  args !! name = Some (PyInt z) ∧ w' = w.
Proof.
  unfold required_arg_int, ret, raise. repeat case_match; naive_solver.
Qed.

Lemma lower_char_idemp c : lower_char (lower_char c) = lower_char c.
Proof. destruct c as [[] [] [] [] [] [] [] []]; reflexivity. Qed.

Lemma lower_idemp s : lower (lower s) = lower s.
Proof.
  induction s as [|c s IH]; [done|]. simpl. by rewrite lower_char_idemp, IH.
Qed.

Lemma normalize_and_validate_md5_inv text w n w' :
  normalize_and_validate_md5 text w = (Return n, w') ->
  n = lower text ∧ String.length n = 32 ∧ all_chars is_lower_hex n = true ∧ w' = w.
Proof.
  unfold normalize_and_validate_md5, ret, raise.
  destruct (decide (String.length (lower text) ≠ 32)) as [|Hlen]; [done|].
  apply dec_stable in Hlen.
  destruct (all_chars is_lower_hex (lower text)) eqn:Hhex; [|done].
  simpl. by intros [= <- <-].
Qed.

Lemma File_init_inv env name type obsid source size md5 create_time w f w' :
  File_init env name type obsid source size md5 create_time w = (Return f, w') ->
  w' = w
  ∧ f = {| File.name := name; File.type := type;
           File.create_time :=
             default {| dt_seconds := utcnow env; dt_microsecond := 0 |} create_time;
           File.obsid := obsid; File.size := size; File.md5 := lower md5;
           File.source := source |}
  ∧ contains_char "/"%char name = false
  ∧ (0 <= size)%Z
  ∧ String.length (lower md5) = 32
  ∧ all_chars is_lower_hex (lower md5) = true.
Proof.
  unfold File_init.
  intros (n & w1 & (-> & Hlen & Hhex & ->)%normalize_and_validate_md5_inv
          & H)%bind_Return_inv.
  apply bind_Return_inv in H as ([] & w2 & Hval & H).
  unfold ret in H. injection H as <- <-.
  unfold _validate in Hval. simpl in Hval.
  destruct (contains_char "/"%char name) eqn:Hname; [done|].
  apply bind_Return_inv in Hval as (n' & w3 & (_ & _ & _ & ->)%normalize_and_validate_md5_inv
                                    & Hval).
  destruct (0 <=? size)%Z eqn:Hsize; [|done]. simpl in Hval.
  unfold ret in Hval. injection Hval as <-.
  apply Z.leb_le in Hsize.
  split; [done|]. split; [by destruct create_time|]. done.
Qed.

(** X13.  The constructor of [File] never touches the world and never
    returns for a name with a slash or for a negative size.  What it returns
    has the name, type, obsid, source and size it was given, a slash-free
    name, a size that is not negative, the lowercased digest, and the given
    creation time, or the clock reading in whole seconds when none is
    given. *)
Theorem X13_File_init_establishes_the_invariants
    env name type obsid source size md5 create_time w :
  snd (File_init env name type obsid source size md5 create_time w) = w
  ∧ (contains_char "/"%char name = true ->
     forall f, fst (File_init env name type obsid source size md5 create_time w)
               ≠ Return f)
  ∧ ((size < 0)%Z ->
     forall f, fst (File_init env name type obsid source size md5 create_time w)
               ≠ Return f)
  ∧ (forall f,
       fst (File_init env name type obsid source size md5 create_time w) = Return f ->
       File.name f = name ∧ File.type f = type ∧ File.obsid f = obsid
       ∧ File.source f = source ∧ File.size f = size
       ∧ File.md5 f = lower md5
       ∧ File.create_time f
         = default {| dt_seconds := utcnow env; dt_microsecond := 0 |} create_time
       ∧ (dt_microsecond (File.create_time f) = 0%Z -> valid_file f)).
Proof.
  assert (Hinv : forall f,
            fst (File_init env name type obsid source size md5 create_time w) = Return f ->
            File_init env name type obsid source size md5 create_time w
            = (Return f, snd (File_init env name type obsid source size md5 create_time w)))
    by (intros f Hf; rewrite <- Hf; by destruct (File_init _ _ _ _ _ _ _ _ _)).
  split; [|split; [|split]].
  - unfold File_init, bind, normalize_and_validate_md5, _validate, bind,
      normalize_and_validate_md5, ret, raise.
    repeat (case_match; simplify_eq/=; try done).
  - intros Hs f Hf. apply Hinv, File_init_inv in Hf.
    destruct Hf as (_ & _ & ? & _). congruence.
  - intros Hs f Hf. apply Hinv, File_init_inv in Hf. destruct Hf as (_ & _ & _ & ? & _). lia.
  - intros f Hf. apply Hinv, File_init_inv in Hf.
    destruct Hf as (_ & -> & Hname & Hsize & Hlen & Hhex). simpl.
    repeat split; try done. simpl. apply lower_idemp.
Qed.

Lemma X13_witness :
  ∃ f, fst (File_init (ex_env false) "zen.12345.67890.uv" "uv" (Some 42%Z) "correlator"
              1024 "D41D8CD98F00B204E9800998ECF8427E" None ex_world) = Return f
       ∧ File.md5 f = "d41d8cd98f00b204e9800998ecf8427e"
       ∧ valid_file f.
Proof.
  destruct (X13_File_init_establishes_the_invariants (ex_env false)
              "zen.12345.67890.uv" "uv" (Some 42%Z) "correlator" 1024
              "D41D8CD98F00B204E9800998ECF8427E" None ex_world) as (_ & _ & _ & H).
  eexists. split; [reflexivity|].
  destruct (H _ eq_refl) as (_ & _ & _ & _ & _ & Hmd5 & _ & Hvalid).
  split; [exact Hmd5|]. apply Hvalid. reflexivity.
Defined.

Lemma from_dict_inv env source info w g w' :
  from_dict env source info w = (Return g, w') ->
  w' = w
  ∧ info !! "name" = Some (PyStr (File.name g))
  ∧ info !! "type" = Some (PyStr (File.type g))
  ∧ (∃ t, info !! "create_time" = Some (PyInt t)
          ∧ File.create_time g = local_time env t
          ∧ converts env t)
  ∧ info !! "size" = Some (PyInt (File.size g))
  ∧ (∃ m, info !! "md5" = Some (PyStr m) ∧ File.md5 g = lower m)
  ∧ info !! "obsid" = Some (py_of_obsid (File.obsid g))
  ∧ File.source g = source
  ∧ valid_file g.
Proof.
  unfold from_dict.
  intros (name & w1 & [Hname ->]%required_arg_str_inv & H)%bind_Return_inv.
  apply bind_Return_inv in H as (type & w1 & [Htype ->]%required_arg_str_inv & H).
  apply bind_Return_inv in H as (t & w1 & [Ht ->]%required_arg_int_inv & H).
  apply bind_Return_inv in H as (size & w1 & [Hsize ->]%required_arg_int_inv & H).
  apply bind_Return_inv in H as (md5 & w1 & [Hmd5 ->]%required_arg_str_inv & H).
  apply bind_Return_inv in H as (obsid & w1 & Hobs & H).
  assert (info !! "obsid" = Some (py_of_obsid obsid) ∧ w1 = w) as [Hobsid ->].
  { destruct (info !! "obsid") as [[| |z]|]; unfold ret, raise in Hobs;
      by simplify_eq. }
  apply bind_Return_inv in H as (ct & w1 & Hct & H).
  rewrite fromtimestamp_exact in Hct.
  destruct (decide (converts env t)) as [Hconv|]; [|done].
  injection Hct as <- <-.
  apply File_init_inv in H as (-> & -> & Hslash & Hnonneg & Hlen & Hhex). simpl.
  repeat split; eauto.
  simpl. apply lower_idemp.
Qed.

(** X14.  Whatever dictionary [from_dict] is given, what it returns is a
    valid record (slash-free name, size not negative, canonical digest,
    whole-second creation time) with the given source, and the dictionary
    holds its name, type and size, a digest that lowercases to its digest,
    a creation time of which its creation time is the local time, and, under
    the key [obsid], its obsid or [None]; the world is as before. *)
Theorem X14_from_dict_returns_valid_records env source info w g :
  fst (from_dict env source info w) = Return g ->
  snd (from_dict env source info w) = w
  ∧ valid_file g
  ∧ File.source g = source
  ∧ info !! "name" = Some (PyStr (File.name g))
  ∧ info !! "type" = Some (PyStr (File.type g))
  ∧ info !! "size" = Some (PyInt (File.size g))
  ∧ info !! "obsid" = Some (py_of_obsid (File.obsid g))
  ∧ (∃ m, info !! "md5" = Some (PyStr m) ∧ File.md5 g = lower m)
  ∧ (∃ t, info !! "create_time" = Some (PyInt t)
          ∧ File.create_time g
            = {| dt_seconds := t + utcoffset env t; dt_microsecond := 0 |}).
Proof.
  intros Hg.
  assert (from_dict env source info w = (Return g, snd (from_dict env source info w)))
    as Hfull by (rewrite <- Hg; by destruct (from_dict _ _ _ _)).
  apply from_dict_inv in Hfull as (Hw & ? & ? & (t & ? & ? & _) & ? & ? & ? & ? & ?).
  repeat (split; [done|]). eauto.
Qed.

Lemma X14_witness : valid_file (reimported ex_file (File.create_time ex_file) "peer").
Proof.
  apply (X14_from_dict_returns_valid_records (ex_env false) "peer"
           (to_dict ex_file) ex_world (reimported ex_file (File.create_time ex_file) "peer")).
  vm_compute. reflexivity.
Defined.

(** An exported record without the key [obsid], or with a text under it,
    gets as far as the check of that key. *)
Lemma from_dict_obsid_check env source f (info : gmap string PyVal) e w :
  (forall k, k ≠ "obsid" -> info !! k = to_dict f !! k) ->
  match info !! "obsid" with
  | None => e = ServerError msg_obsid_not_provided []
  | Some (PyStr s) => e = ServerError msg_obsid_not_integer [PyStr s]
  | _ => False
  end ->
  from_dict env source info w = (Raise e, w).
Proof.
  intros Hsame Hobs. unfold from_dict.
  erewrite bind_Return by (apply required_arg_str_ok; by rewrite Hsame by done).
  erewrite bind_Return by (apply required_arg_str_ok; by rewrite Hsame by done).
  erewrite bind_Return by (apply required_arg_int_ok; by rewrite Hsame by done).
  erewrite bind_Return by (apply required_arg_int_ok; by rewrite Hsame by done).
  erewrite bind_Return by (apply required_arg_str_ok; by rewrite Hsame by done).
  apply bind_Raise.
  destruct (info !! "obsid") as [[|s|z]|]; try done; by subst.
Qed.

(** X15.  The key [obsid] must be there, and may hold [None].  An exported
    record of a valid file from which the key is taken away, or in which a
    text is put under it, is refused with the [ServerError] that the source
    words for that case, and the world is as before.  [to_dict] always
    writes the key, with [None] for a file without an observation; the file
    that [from_dict] then returns, which it does when the server converts
    the creation time, is a file without an observation. *)
Theorem X15_obsid_key_is_required_and_may_be_None env source f w :
  valid_file f ->
  to_dict f !! "obsid" = Some (py_of_obsid (File.obsid f))
  ∧ from_dict env source (delete "obsid" (to_dict f)) w
    = (Raise (ServerError msg_obsid_not_provided []), w)
  ∧ (forall s,
       from_dict env source (<["obsid" := PyStr s]> (to_dict f)) w
       = (Raise (ServerError msg_obsid_not_integer [PyStr s]), w))
  ∧ (File.obsid f = None ->
     to_dict f !! "obsid" = Some PyNone
     ∧ (converts env (create_time_unix f) ->
        ∃ g, from_dict env source (to_dict f) w = (Return g, w)
             ∧ File.obsid g = None)
     ∧ (forall g, fst (from_dict env source (to_dict f) w) = Return g ->
                  File.obsid g = None)).
Proof.
  intros Hv. split; [done|]. split; [|split].
  - apply (from_dict_obsid_check env source f).
    + intros k Hk. by rewrite lookup_delete_ne.
    + by rewrite lookup_delete_eq.
  - intros s. apply (from_dict_obsid_check env source f).
    + intros k Hk. by rewrite lookup_insert_ne.
    + by rewrite lookup_insert_eq.
  - intros Hnone. split; [|split].
    + change (to_dict f !! "obsid") with (Some (py_of_obsid (File.obsid f))).
      by rewrite Hnone.
    + intros Hconv. rewrite from_dict_to_dict, decide_True by done. eauto.
    + intros g. rewrite from_dict_to_dict by done. simpl.
      destruct (decide (converts env (create_time_unix f))); [|done].
      by intros [= <-].
Qed.

Lemma X15_witness :
  from_dict (ex_env false) "peer" (delete "obsid" (to_dict ex_file)) ex_world
  = (Raise (ServerError msg_obsid_not_provided []), ex_world)
  ∧ String.length msg_obsid_not_provided = 39.
Proof.
  destruct (X15_obsid_key_is_required_and_may_be_None (ex_env false) "peer"
              ex_file ex_world) as (_ & H & _).
  - vm_compute. repeat split; congruence.
  - split; [exact H|reflexivity].
Defined.

(** X16.  [from_dict] of the [to_dict] of a valid file, on any server.  The
    world is as before.  When the server converts the exported creation
    time (no exception of the platform, and a local time of the years 1 to
    9999), the call returns a file with the same name, type, obsid, size and
    digest, with the source that [from_dict] is given, and with the creation
    time moved by the offset of local time from UTC; the creation time
    comes back unchanged exactly when that offset is 0, and then exporting
    the result gives the same dictionary again.  When the server does not
    convert that time, the call raises and returns no file. *)
Theorem X16_to_dict_from_dict env source f w :
  valid_file f ->
  snd (from_dict env source (to_dict f) w) = w
  ∧ (converts env (dt_seconds (File.create_time f)) ->
     ∃ g,
       from_dict env source (to_dict f) w = (Return g, w)
       ∧ File.name g = File.name f ∧ File.type g = File.type f
       ∧ File.obsid g = File.obsid f ∧ File.size g = File.size f
       ∧ File.md5 g = File.md5 f ∧ File.source g = source
       ∧ File.create_time g
         = {| dt_seconds := dt_seconds (File.create_time f)
                            + utcoffset env (dt_seconds (File.create_time f));
              dt_microsecond := 0 |}
       ∧ (File.create_time g = File.create_time f
          ↔ utcoffset env (dt_seconds (File.create_time f)) = 0%Z)
       ∧ (utcoffset env (dt_seconds (File.create_time f)) = 0%Z ->
          to_dict g = to_dict f))
  ∧ (¬ converts env (dt_seconds (File.create_time f)) ->
     ∃ e, from_dict env source (to_dict f) w = (Raise e, w)).
Proof.
  intros Hv. rewrite from_dict_to_dict by done.
  change (create_time_unix f) with (dt_seconds (File.create_time f)).
  split; [by destruct (decide _)|]. split.
  - intros Hconv. rewrite decide_True by done.
    eexists. split; [done|]. simpl. repeat split; try done.
    + unfold local_time.
      destruct (File.create_time f) as [s m]. simpl. intros [= Hs _]. lia.
    + intros Hoff. unfold local_time. rewrite Hoff, Z.add_0_r.
      destruct Hv as (_ & _ & _ & _ & _ & Hmicro).
      destruct (File.create_time f) as [s m]. simpl in *. by subst.
    + intros Hoff. unfold to_dict, create_time_unix, reimported, local_time. simpl.
      by rewrite Hoff, Z.add_0_r.
  - intros Hnot. rewrite decide_False by done. eauto.
Qed.

Lemma X16_witness :
  (∃ g, from_dict (ex_env false) "peer" (to_dict ex_file) ex_world = (Return g, ex_world)
        ∧ File.name g = File.name ex_file)
  ∧ (∃ e, from_dict ex_env_sast "peer" (to_dict ex_late_file) ex_world
          = (Raise e, ex_world)).
Proof.
  split.
  - destruct (X16_to_dict_from_dict (ex_env false) "peer" ex_file ex_world)
      as (_ & H & _).
    + vm_compute. repeat split; congruence.
    + destruct H as (g & Hg & Hn & _).
      * apply (bool_decide_unpack _). vm_compute. exact I.
      * exists g. split; [exact Hg|exact Hn].
  - destruct (X16_to_dict_from_dict ex_env_sast "peer" ex_late_file ex_world)
      as (_ & _ & H).
    + vm_compute. repeat split; congruence.
    + apply H. intros [_ [_ Hmax]]. vm_compute in Hmax. by apply Hmax.
Defined.

(** ** The earlier snapshot of [delete_instances] *)

(** The loop itself neither commits nor rolls back. *)
Lemma body_effects_quiet env noop chmod restrict insts e :
  e ∈ insts ≫= body_effects env noop chmod restrict ->
  e ≠ Commit ∧ e ≠ Rollback ∧ e ≠ LogException.
Proof.
  intros (i & He & _)%list_elem_of_bind. unfold body_effects in He.
  destruct (classify env noop chmod restrict i); [by apply elem_of_nil in He| |].
  - destruct noop;
      repeat (apply elem_of_cons in He as [->|He]; [done|]); by apply elem_of_nil in He.
  - repeat (apply elem_of_cons in He as [->|He]; [done|]); by apply elem_of_nil in He.
Qed.

Lemma commits_quiet t :
  (forall e, e ∈ t -> e ≠ Commit) -> commits t = 0.
Proof.
  intros H. unfold commits. rewrite filter_none; [done|].
  intros e He. by apply H.
Qed.

(** X17.  The earlier snapshot does not handle a commit that fails.  For a
    file whose name has no slash, when the final commit raises, the
    [SQLAlchemyError] leaves [delete_instances] as it is: no rollback is
    made, the tables are as before, and the deletions of the rows that the
    stores have already removed stay pending in the session. *)
Theorem X17_old_failed_commit_escapes env self w :
  event_fails self = false ->
  commit_fails env = true ->
  fst (Old.delete_instances env self w) = Raise SQLAlchemyError
  ∧ db (snd (Old.delete_instances env self w)) = db w
  ∧ session (snd (Old.delete_instances env self w))
    = session w ++ pending_deletions env self None None (instances_of self (db w))
  ∧ (Rollback ∉ new_calls w (snd (Old.delete_instances env self w)))
  ∧ commits (new_calls w (snd (Old.delete_instances env self w))) = 1
  ∧ store_deletes (new_calls w (snd (Old.delete_instances env self w)))
    = delete_call_of None <$> filter (attempted None) (instances_of self (db w)).
Proof.
  intros Hv Hc.
  rewrite old_delete_instances_unfold, old_loop_exact by done.
  unfold finish_old. rewrite Hc. simpl.
  unfold new_calls. simpl. rewrite <- app_assoc, drop_app_length.
  repeat split.
  - intros [H|H]%elem_of_app.
    + by apply body_effects_quiet in H as (_ & ? & _).
    + apply list_elem_of_singleton in H. done.
  - unfold commits. rewrite filter_app, length_app.
    fold (commits (instances_of self (db w) ≫= body_effects env false None None)).
    rewrite commits_quiet; [done|].
    intros e He. by apply body_effects_quiet in He as (? & _).
  - rewrite store_deletes_app, effects_store_deletes. simpl. by rewrite app_nil_r.
Qed.

Lemma X17_witness :
  fst (Old.delete_instances (ex_env true) ex_file ex_world) = Raise SQLAlchemyError
  ∧ db (snd (Old.delete_instances (ex_env true) ex_file ex_world)) = db ex_world.
Proof.
  destruct (X17_old_failed_commit_escapes (ex_env true) ex_file ex_world)
    as (H1 & H2 & _).
  - reflexivity.
  - reflexivity.
  - split; [exact H1|exact H2].
Defined.

(** A store that answers alike with and without [chmod_before], for the
    instances of a list. *)
Lemma classify_chmod_irrelevant env c1 c2 restrict i :
  store_delete env (FileInstance.store_object i) (store_path i) c1
  = store_delete env (FileInstance.store_object i) (store_path i) c2 ->
  classify env false c1 restrict i = classify env false c2 restrict i.
Proof. intros H. unfold classify. by rewrite H. Qed.

Lemma tally_chmod_irrelevant env c1 c2 restrict insts : forall c,
  (forall i, i ∈ insts ->
     store_delete env (FileInstance.store_object i) (store_path i) c1
     = store_delete env (FileInstance.store_object i) (store_path i) c2) ->
  tally (classify env false c1 restrict) insts c
  = tally (classify env false c2 restrict) insts c.
Proof.
  unfold tally. induction insts as [|i l IH]; intros c H; [done|].
  simpl. rewrite (classify_chmod_irrelevant env c1 c2) by (apply H; left).
  apply IH. intros j Hj. apply H. by right.
Qed.

Lemma filter_ext_in {A} (P Q : A -> Prop)
    `{!forall x, Decision (P x)} `{!forall x, Decision (Q x)} (l : list A) :
  (forall x, x ∈ l -> P x ↔ Q x) -> filter P l = filter Q l.
Proof.
  induction l as [|x l IH]; intros Hext; [done|].
  rewrite !filter_cons, IH by (intros y Hy; apply Hext; by right).
  destruct (decide (P x)) as [Hp|Hp].
  - rewrite decide_True; [done|]. apply Hext; [left|done].
  - rewrite decide_False; [done|]. intros Hq. apply Hp, Hext; [left|done].
Qed.

Lemma pending_chmod_irrelevant env self c1 c2 restrict insts :
  (forall i, i ∈ insts ->
     store_delete env (FileInstance.store_object i) (store_path i) c1
     = store_delete env (FileInstance.store_object i) (store_path i) c2) ->
  pending_deletions env self c1 restrict insts
  = pending_deletions env self c2 restrict insts.
Proof.
  intros H. unfold pending_deletions. f_equal.
  apply filter_ext_in. intros i Hi. unfold succeeded. by rewrite (H i Hi).
Qed.

(** X18.  The two snapshots of [delete_instances] agree.  For a file whose
    name has no slash and stores that answer alike with and without
    [chmod_before] for its instances, the earlier snapshot and the standard
    mode of the later one without a store filter ask the same stores to
    remove the same paths, in the same order, and leave the same tables;
    when the commit goes through they also return the same counts and
    leave the same session. *)
Theorem X18_snapshots_agree env self w :
  event_fails self = false ->
  (forall i, i ∈ instances_of self (db w) ->
     store_delete env (FileInstance.store_object i) (store_path i) None
     = store_delete env (FileInstance.store_object i) (store_path i)
         (Some (need_chmod_of env))) ->
  db (snd (Old.delete_instances env self w))
  = db (snd (delete_instances env self "standard" None w))
  ∧ fst <$> store_deletes (new_calls w (snd (Old.delete_instances env self w)))
    = fst <$> store_deletes
                (new_calls w (snd (delete_instances env self "standard" None w)))
  ∧ (commit_fails env = false ->
     fst (Old.delete_instances env self w)
     = fst (delete_instances env self "standard" None w)
     ∧ session (snd (Old.delete_instances env self w))
       = session (snd (delete_instances env self "standard" None w))).
Proof.
  intros Hv Hsd.
  rewrite old_delete_instances_unfold, old_loop_exact by done.
  rewrite delete_instances_standard, loop_standard_exact by done.
  rewrite (tally_chmod_irrelevant env None (Some (need_chmod_of env))) by done.
  rewrite (pending_chmod_irrelevant env self None (Some (need_chmod_of env))) by done.
  unfold finish_old, finish_standard.
  destruct (commit_fails env); simpl.
  - split; [done|]. split; [|done].
    unfold new_calls. simpl. rewrite <- !app_assoc, !drop_app_length.
    rewrite !store_deletes_app, !effects_store_deletes. simpl.
    rewrite !app_nil_r, <- !list_fmap_compose. done.
  - split; [done|]. split; [|done].
    unfold new_calls. simpl. rewrite <- !app_assoc, !drop_app_length.
    rewrite !store_deletes_app, !effects_store_deletes. simpl.
    rewrite !app_nil_r, <- !list_fmap_compose. done.
Qed.

Lemma X18_witness :
  db (snd (Old.delete_instances (ex_env false) ex_file ex_world))
  = db (snd (delete_instances (ex_env false) ex_file "standard" None ex_world)).
Proof.
  destruct (X18_snapshots_agree (ex_env false) ex_file ex_world) as (H & _).
  - reflexivity.
  - intros i Hi. vm_compute in Hi.
    repeat (apply elem_of_cons in Hi as [->|Hi]; [reflexivity|]).
    by apply elem_of_nil in Hi.
  - exact H.
Defined.

(** ** The status of a transfer manager *)

(** X19.  [transfer_status] over the life of a manager.  A manager that
    has attempted and completed nothing is [INITIATED].  After a batch the
    status is never [INITIATED] again.  After a batch that returns it is
    [COMPLETED] when the run of every pair returned and [FAILED] otherwise.
    A batch that is left by an exception does not reach the assignment of
    [transfer_complete]: the status is then [FAILED], unless an earlier
    batch had completed, in which case it still reads [COMPLETED].  The
    empty batch makes no run, returns [True] and completes the manager. *)
Theorem X19_transfer_status_after_a_batch env paths s :
  (Rsync.transfer_attempted (Rsync.self s) = false ->
   Rsync.transfer_complete (Rsync.self s) = false ->
   fst (Rsync.transfer_status s) = Return Rsync.INITIATED)
  ∧ fst (Rsync.transfer_status (snd (Rsync.batch_transfer env paths s)))
    ≠ Return Rsync.INITIATED
  ∧ (forall b, fst (Rsync.batch_transfer env paths s) = Return b ->
       fst (Rsync.transfer_status (snd (Rsync.batch_transfer env paths s)))
       = Return (if b then Rsync.COMPLETED else Rsync.FAILED)
       ∧ (b = true
          ↔ Forall (pair_succeeds env (Rsync.hostname (Rsync.self s))) paths))
  ∧ (forall e, fst (Rsync.batch_transfer env paths s) = Raise e ->
       fst (Rsync.transfer_status (snd (Rsync.batch_transfer env paths s)))
       = Return (if Rsync.transfer_complete (Rsync.self s)
                 then Rsync.COMPLETED else Rsync.FAILED))
  ∧ (paths = [] ->
     fst (Rsync.batch_transfer env paths s) = Return true
     ∧ new_runs s (snd (Rsync.batch_transfer env paths s)) = []
     ∧ fst (Rsync.transfer_status (snd (Rsync.batch_transfer env paths s)))
       = Return Rsync.COMPLETED)
  ∧ snd (Rsync.transfer_status s) = s.
Proof.
  rewrite batch_transfer_exact. unfold Rsync.transfer_status. simpl.
  split; [|split; [|split; [|split; [|split]]]].
  - by intros -> ->.
  - by destruct (match batch_result env _ paths with Return b => b | Raise _ => _ end).
  - intros b Hb. rewrite Hb. split; [by destruct b|].
    rewrite <- batch_result_true, Hb. split; congruence.
  - intros e He. by rewrite He.
  - intros ->. simpl. unfold new_runs. simpl. by rewrite drop_app_length.
  - done.
Qed.

Lemma X19_witness :
  fst (Rsync.transfer_status ex_manager) = Return Rsync.INITIATED
  ∧ fst (Rsync.transfer_status (snd (Rsync.batch_transfer ex_rsync_env ex_paths ex_manager)))
    = Return Rsync.FAILED.
Proof.
  destruct (X19_transfer_status_after_a_batch ex_rsync_env ex_paths ex_manager)
    as (H1 & _ & _ & H4 & _).
  split.
  - apply H1; reflexivity.
  - apply (H4 (OtherException "AttributeError")). reflexivity.
Defined.

(** X20.  [valid] and the route of a transfer.  [valid] is true exactly
    when the manager's host is the local one, and reads the manager
    without changing it or running anything.  [transfer] does not consult
    it: for any manager it makes one strict run from the local to the
    remote path, directly when the manager is valid and over ssh to the
    manager's host when it is not, and leaves the flags of the manager as
    they are. *)
Theorem X20_transfer_does_not_consult_valid env local_path remote_path s :
  (fst (Rsync.valid env s) = Return true
   ↔ Rsync.hostname (Rsync.self s) = Rsync.gethostname env)
  ∧ (fst (Rsync.valid env s) = Return false
     ↔ Rsync.hostname (Rsync.self s) ≠ Rsync.gethostname env)
  ∧ snd (Rsync.valid env s) = s
  ∧ (∃ r, new_runs s (snd (Rsync.transfer env local_path remote_path s)) = [r]
          ∧ Rsync.run_source r = local_path
          ∧ Rsync.run_destination r = remote_path
          ∧ Rsync.run_strict r = true
          ∧ (fst (Rsync.valid env s) = Return true ->
             Rsync.run_destination_ssh r = None)
          ∧ (fst (Rsync.valid env s) = Return false ->
             Rsync.run_destination_ssh r = Some (Rsync.hostname (Rsync.self s))))
  ∧ Rsync.self (snd (Rsync.transfer env local_path remote_path s)) = Rsync.self s.
Proof.
  rewrite transfer_exact.
  unfold Rsync.valid, bind, Rsync.get_hostname, ret, new_runs, run_of. simpl.
  rewrite drop_app_length.
  destruct (decide (Rsync.hostname (Rsync.self s) = Rsync.gethostname env)) as [Heq|Hne];
    simpl.
  - split; [done|]. split; [split; [done|intros H; by destruct H]|]. split; [done|].
    split; [|done]. eexists. split; [done|]. simpl.
    rewrite decide_False by (intros H; by apply H). done.
  - split; [split; [done|intros H; by destruct Hne]|]. split; [done|]. split; [done|].
    split; [|done]. eexists. split; [done|]. simpl.
    rewrite decide_True by done. done.
Qed.

(** ** More on [infer_file_obsid] *)

(** The distinct values of a list all of whose elements are the same. *)
Lemma remove_dups_constant {A} `{EqDecision A} (l : list A) (a : A) :
  l ≠ [] -> (forall x, x ∈ l -> x = a) -> remove_dups l = [a].
Proof.
  intros Hne Hall.
  pose proof (NoDup_remove_dups l) as Hnd.
  assert (Hin : forall x, x ∈ remove_dups l -> x = a)
    by (intros x Hx; apply Hall; by apply elem_of_remove_dups).
  assert (Hex : ∃ x, x ∈ remove_dups l).
  { destruct l as [|x l]; [done|]. exists x. apply elem_of_remove_dups. left. }
  destruct (remove_dups l) as [|x [|y r]].
  - destruct Hex as [x Hx]. by apply elem_of_nil in Hx.
  - f_equal. apply Hin. left.
  - exfalso. apply NoDup_cons in Hnd as [Hx _]. apply Hx.
    rewrite (Hin x) by left. rewrite (Hin y) by (right; left). left.
Qed.

Lemma remove_dups_two {A} `{EqDecision A} (l : list A) (a b : A) :
  a ∈ l -> b ∈ l -> a ≠ b -> 2 ≤ length (remove_dups l).
Proof.
  intros Ha%elem_of_remove_dups Hb%elem_of_remove_dups Hab.
  destruct (remove_dups l) as [|x [|y r]]; simpl; [|exfalso|lia].
  - by apply elem_of_nil in Ha.
  - apply list_elem_of_singleton in Ha, Hb. congruence.
Qed.

(** X21.  The hera mode, for a name of four components or more whose
    first three hold no character that the LIKE of the engine reads
    specially (no [%], no [_], and no backslash when the engine escapes with
    it).  The answer is decided by the files of the catalog whose names
    start with these three components and a dot, letters being compared as
    the engine compares them (without regard to ASCII case when it folds
    case, exactly otherwise): with no such file the call raises; when these
    files all carry the same [obsid] value (NULL being one) that value is
    returned; when two of them differ the call raises.  The catalog is left
    as it was.  On an engine that does not fold case these files are the
    files whose names start with the three components and a dot. *)
Theorem X21_infer_hera_unique_obsid env parent_dirs name info w :
  config env !! "obsid_inference_mode" = Some "hera" ->
  4 ≤ length (split "."%char name) ->
  no_specials (like_backslash_escapes env)
    (join "." (take 3 (split "."%char name))) = true ->
  let sharing :=
    files_matching_prefix (like_folds_case env)
      (join "." (take 3 (split "."%char name))) (db w) in
  (sharing = [] ->
   infer_file_obsid env parent_dirs name info w
   = (Raise (ServerError msg_candidates [PyStr name; PyInt 0]), w))
  ∧ (forall o, sharing ≠ [] -> (forall f, f ∈ sharing -> File.obsid f = o) ->
       infer_file_obsid env parent_dirs name info w = (Return (InferredRow o), w))
  ∧ (forall f g, f ∈ sharing -> g ∈ sharing -> File.obsid f ≠ File.obsid g ->
       ∃ n, (2 <= n)%Z
            ∧ infer_file_obsid env parent_dirs name info w
              = (Raise (ServerError msg_candidates [PyStr name; PyInt n]), w))
  ∧ (like_folds_case env = false ->
     sharing
     = files_sharing_prefix (join "." (take 3 (split "."%char name))) (db w)).
Proof.
  intros Hm Hlen Hnw sharing.
  rewrite infer_hera_exact, query_rows_of_prefix by done. simpl. fold sharing.
  split; [|split; [|split]].
  - by intros ->.
  - intros o Hne Hall.
    rewrite (remove_dups_constant (File.obsid <$> sharing) o); [done| |].
    + by destruct sharing.
    + intros x (f & -> & Hf)%list_elem_of_fmap. by apply Hall.
  - intros f g Hf Hg Hfg.
    pose proof (remove_dups_two (File.obsid <$> sharing) (File.obsid f) (File.obsid g)
                  (list_elem_of_fmap_2 _ _ _ Hf) (list_elem_of_fmap_2 _ _ _ Hg) Hfg) as H2.
    destruct (remove_dups (File.obsid <$> sharing)) as [|x [|y r]]; simpl in H2; [lia..|].
    eexists. split; [|done]. simpl length. lia.
  - intros Hfold. unfold sharing. rewrite Hfold. apply files_matching_exact.
Qed.

Lemma X21_witness :
  infer_file_obsid ex_env_hera "" "zen.2458000.12345.xx.uv" ∅ ex_world_upper
  = (Raise (ServerError msg_candidates [PyStr "zen.2458000.12345.xx.uv"; PyInt 0]),
     ex_world_upper)
  ∧ infer_file_obsid ex_env_hera_sqlite "" "zen.2458000.12345.xx.uv" ∅ ex_world_upper
    = (Return (InferredRow (Some 9%Z)), ex_world_upper).
Proof.
  split.
  - destruct (X21_infer_hera_unique_obsid ex_env_hera "" "zen.2458000.12345.xx.uv" ∅
                ex_world_upper) as (H & _).
    + reflexivity.
    + vm_compute. lia.
    + reflexivity.
    + apply H. reflexivity.
  - destruct (X21_infer_hera_unique_obsid ex_env_hera_sqlite ""
                "zen.2458000.12345.xx.uv" ∅ ex_world_upper) as (_ & H & _).
    + reflexivity.
    + vm_compute. lia.
    + reflexivity.
    + apply H; [discriminate|].
      intros f Hf. vm_compute in Hf.
      apply list_elem_of_singleton in Hf. by subst.
Defined.

(** X22.  The modes of [infer_file_obsid].  Whatever the mode, the call
    changes nothing.  On a server whose configuration does not set
    [obsid_inference_mode], or sets it to [none], every call raises the
    [ServerError] that refuses to infer; a mode other than [none], [hera]
    and [_testing] raises the [ServerError] of a configuration problem.
    In the modes [hera] and [_testing] a name of fewer than four
    dot-separated components raises a [ServerError].  The mode [_testing]
    reads no catalog: on a name of four components or more it converts the
    second and third components, joined by a dot, and nothing else. *)
Theorem X22_infer_file_obsid_modes env parent_dirs name info w :
  snd (infer_file_obsid env parent_dirs name info w) = w
  ∧ (config env !! "obsid_inference_mode" = None
     ∨ config env !! "obsid_inference_mode" = Some "none" ->
     fst (infer_file_obsid env parent_dirs name info w)
     = Raise (ServerError msg_refusing [PyStr name]))
  ∧ (forall mode, config env !! "obsid_inference_mode" = Some mode ->
       mode ≠ "none" -> mode ≠ "hera" -> mode ≠ "_testing" ->
       fst (infer_file_obsid env parent_dirs name info w)
       = Raise (ServerError msg_unknown_mode [PyStr mode]))
  ∧ (forall mode, config env !! "obsid_inference_mode" = Some mode ->
       mode = "hera" ∨ mode = "_testing" ->
       length (split "."%char name) < 4 ->
       ∃ fmt, fst (infer_file_obsid env parent_dirs name info w)
              = Raise (ServerError fmt [PyStr name]))
  ∧ (config env !! "obsid_inference_mode" = Some "_testing" ->
     forall b0 b1 b2 b3 rest,
       split "."%char name = b0 :: b1 :: b2 :: b3 :: rest ->
       fst (infer_file_obsid env parent_dirs name info w)
       = match astropy_gps env (b1 +:+ "." +:+ b2) with
         | Return z => Return (InferredInt z)
         | Raise e => Raise e
         end).
Proof.
  split; [apply infer_file_obsid_pure|].
  split; [|split; [|split]].
  - intros H. rewrite infer_mode_none; [done|]. by destruct H as [-> | ->].
  - intros mode Hm H1 H2 H3. unfold infer_file_obsid. rewrite Hm. simpl.
    by rewrite !decide_False by done.
  - intros mode Hm [-> | ->] Hlen.
    + rewrite infer_hera_short_name by done. eauto.
    + unfold infer_file_obsid. rewrite Hm. simpl.
      rewrite decide_True by done. eauto.
  - intros Hm b0 b1 b2 b3 rest Hs.
    unfold infer_file_obsid. rewrite Hm, Hs. simpl.
    by destruct (astropy_gps env _).
Qed.

(** ** A policy change followed by a deletion request *)

Lemma delete_instances_committed env self restrict w :
  event_fails self = false ->
  session w = [] ->
  unique_keys (db w) ->
  commit_fails env = false ->
  removes_exactly_the_deleted env self (Some (need_chmod_of env)) restrict w
    (delete_instances env self "standard" restrict w).
Proof.
  intros Hv Hsess Hnd Hc.
  rewrite delete_instances_standard, loop_standard_exact by done.
  unfold finish_standard. rewrite Hc. by apply committed_outcome.
Qed.

Lemma with_policy_at_target inst policy rows :
  inst ∈ rows -> with_policy inst policy ∈ with_policy_at inst policy rows.
Proof.
  intros Hin. unfold with_policy_at. apply list_elem_of_fmap.
  exists inst. by rewrite decide_True.
Qed.

Lemma with_policy_at_others inst policy rows j :
  j ∈ rows -> j ≠ inst -> j ∈ with_policy_at inst policy rows.
Proof.
  intros Hin Hne. unfold with_policy_at. apply list_elem_of_fmap.
  exists j. by rewrite decide_False.
Qed.

(** What a policy change that goes through leaves behind. *)
Lemma set_one_committed env args w file_name policy_text restrict_name file inst :
  args !! "file_name" = Some (PyStr file_name) ->
  args !! "deletion_policy" = Some (PyStr policy_text) ->
  args !! "restrict_to_store" = PyStr <$> restrict_name ->
  lookup_file (db w) file_name = Some file ->
  event_fails file = false ->
  session w = [] ->
  unique_keys (db w) ->
  commit_fails env = false ->
  target_instance (db w) file restrict_name = Some inst ->
  inst ∈ instances_of file (db w)
  ∧ session (snd (set_one_file_deletion_policy env args w)) = []
  ∧ db_instances (db (snd (set_one_file_deletion_policy env args w)))
    = with_policy_at inst (policy_of_text policy_text) (db_instances (db w)).
Proof.
  intros Hf Hp Hr Hfile Hv Hsess Hnd Hc Ht.
  unfold target_instance in Ht.
  destruct (resolve_filter (db w) restrict_name) as [rs|] eqn:Hrs; [|done].
  simpl in Ht.
  rewrite (set_one_resolved env args w file_name policy_text restrict_name file rs)
    by done.
  rewrite Ht, Hc, Hsess. simpl.
  split; [by eapply first_instance_elem|]. split; [done|].
  apply set_policy_by_key; [done|].
  by eapply instances_of_elem, first_instance_elem.
Qed.

(** X23.  A policy change followed by a deletion request, each in a
    session of its own and with commits that go through, for a known file
    whose name has no slash in a catalog with unique instance keys.
    After [set_one_file_deletion_policy] has allowed its target to go,
    [delete_instances] in standard mode asks the store of the target to
    remove it, and the target's row is gone exactly when the store removed
    it.  After any other policy text the target's row, now [DISALLOWED],
    outlives the deletion request.  In both cases every other row that the
    policy protected before the two requests is still there after them. *)
Theorem X23_policy_change_then_delete
    env args w file_name policy_text restrict_name file inst :
  args !! "file_name" = Some (PyStr file_name) ->
  args !! "deletion_policy" = Some (PyStr policy_text) ->
  args !! "restrict_to_store" = PyStr <$> restrict_name ->
  lookup_file (db w) file_name = Some file ->
  event_fails file = false ->
  session w = [] ->
  unique_keys (db w) ->
  commit_fails env = false ->
  target_instance (db w) file restrict_name = Some inst ->
  let w1 := snd (set_one_file_deletion_policy env args w) in
  let out := delete_instances env file "standard" None w1 in
  (policy_text = "allowed" ->
   delete_call_of (Some (need_chmod_of env)) inst
     ∈ store_deletes (new_calls w1 (snd out))
   ∧ (with_policy inst ALLOWED ∉ db_instances (db (snd out))
      ↔ succeeded env (Some (need_chmod_of env)) inst))
  ∧ (policy_text ≠ "allowed" ->
     with_policy inst DISALLOWED ∈ db_instances (db (snd out)))
  ∧ (forall j, j ∈ db_instances (db w) -> j ≠ inst ->
       FileInstance.deletion_policy j ≠ ALLOWED ->
       j ∈ db_instances (db (snd out))).
Proof.
  intros Hf Hp Hr Hfile Hv Hsess Hnd Hc Ht w1 out.
  destruct (set_one_committed env args w file_name policy_text restrict_name file inst)
    as (Hin & Hsess1 & Hrows1); try done.
  fold w1 in Hsess1, Hrows1.
  assert (Hnd1 : unique_keys (db w1)).
  { unfold unique_keys. by rewrite Hrows1, with_policy_at_keys. }
  assert (Hin' : inst ∈ db_instances (db w)) by (by eapply instances_of_elem).
  assert (Hname : FileInstance.name inst = File.name file).
  { unfold instances_of in Hin. by apply list_elem_of_filter in Hin as [? _]. }
  pose proof (interlock_delete_instances env file "standard" None w1 Hsess1 Hnd1)
    as (Hkeep & _ & _).
  fold out in Hkeep.
  split; [|split].
  - intros ->.
    change (policy_of_text "allowed") with ALLOWED in Hrows1.
    assert (Hin1 : with_policy inst ALLOWED ∈ instances_of file (db w1)).
    { unfold instances_of. apply list_elem_of_filter. split; [done|].
      rewrite Hrows1. by apply with_policy_at_target. }
    destruct (delete_instances_committed env file None w1 Hv Hsess1 Hnd1 Hc)
      as (_ & Hrow & _ & Hcalls).
    fold out in Hrow, Hcalls. split.
    + rewrite Hcalls.
      change (delete_call_of (Some (need_chmod_of env)) inst)
        with (delete_call_of (Some (need_chmod_of env)) (with_policy inst ALLOWED)).
      apply list_elem_of_fmap_2, list_elem_of_filter. done.
    + by apply (Hrow (with_policy inst ALLOWED)).
  - intros Hne. apply Hkeep; [|done].
    rewrite Hrows1. unfold policy_of_text. rewrite decide_False by done.
    by apply with_policy_at_target.
  - intros j Hj Hji Hpol. apply Hkeep; [|done].
    rewrite Hrows1. by apply with_policy_at_others.
Qed.

Lemma X23_witness :
  with_policy (with_policy ex_allowed DISALLOWED) ALLOWED
  ∉ db_instances
      (db (snd (delete_instances (ex_env false) ex_file "standard" None
                  (snd (set_one_file_deletion_policy (ex_env false)
                          scenario_policy_args scenario_world))))).
Proof.
  destruct (X23_policy_change_then_delete (ex_env false) scenario_policy_args
              scenario_world "zen.12345.67890.uv" "allowed" None ex_file
              (with_policy ex_allowed DISALLOWED))
    as (H & _).
  - reflexivity.
  - reflexivity.
  - reflexivity.
  - reflexivity.
  - reflexivity.
  - reflexivity.
  - apply (bool_decide_unpack _). vm_compute. exact I.
  - reflexivity.
  - reflexivity.
  - destruct (H eq_refl) as [_ Hrow]. apply Hrow. reflexivity.
Defined.

(** ** The description of an instance *)

(** X24.  [FileInstance.to_dict] describes an instance under exactly six
    keys.  The policy it exports is a text that [parse_safe] reads back as
    [ALLOWED] only for an instance whose policy is [ALLOWED]: an export
    followed by an import never lifts the protection of an instance.  The
    answer of [locate_file_instance], when it returns, describes an
    instance of the catalog and agrees with the [to_dict] of that instance
    on the keys that the two share. *)
Theorem X24_instance_description (i : FileInstance.t) args w :
  dom (FileInstance_to_dict i)
  = ({["store_name"; "store_ssh_host"; "parent_dirs"; "name"; "deletion_policy";
       "full_path_on_store"]} : gset string)
  ∧ (∃ text,
       FileInstance_to_dict i !! "deletion_policy" = Some (PyStr text)
       ∧ fst (parse_safe text w)
         = Return (if decide (FileInstance.deletion_policy i = ALLOWED)
                   then ALLOWED else DISALLOWED))
  ∧ (forall d, fst (locate_file_instance args w) = Return d ->
       ∃ inst, inst ∈ db_instances (db w)
               ∧ forall k, k ∈ ["store_name"; "store_ssh_host"; "full_path_on_store"] ->
                   d !! k = FileInstance_to_dict inst !! k).
Proof.
  split; [|split].
  - unfold FileInstance_to_dict. rewrite !dom_insert_L, dom_empty_L. set_solver.
  - eexists. split; [done|].
    rewrite parse_safe_exact. simpl.
    unfold deletion_policy_text, textualize, policy_of_text.
    generalize (FileInstance.deletion_policy i). intros v.
    destruct (decide (v = DISALLOWED)) as [->|H0]; [done|].
    destruct (decide (v = ALLOWED)) as [->|H1]; [done|].
    by rewrite decide_False.
  - intros d. unfold locate_file_instance.
    destruct (required_arg_str_cases args "file_name" w) as [[fname H1]|(f & a & H1)].
    + erewrite bind_Return by done.
      erewrite bind_Return by apply File_query_get_exact.
      destruct (lookup_file (db w) fname) as [file|]; [|done].
      unfold bind, instances. simpl.
      destruct (instances_of file (db w)) as [|inst rest] eqn:Hinsts; [done|].
      simpl. intros [= <-]. exists inst. split.
      * apply (instances_of_elem file). rewrite Hinsts. left.
      * intros k Hk.
        repeat (apply elem_of_cons in Hk as [->|Hk]; [done|]).
        by apply elem_of_nil in Hk.
    + by erewrite bind_Raise by done.
Qed.

(** ** [set_one_file_deletion_policy] when it fails *)

Lemma optional_arg_str_cases args name w :
  (∃ o, optional_arg_str args name w = (Return o, w))
  ∨ (∃ fmt a, optional_arg_str args name w = (Raise (ServerError fmt a), w)).
Proof. unfold optional_arg_str. repeat case_match; eauto. Qed.

(** The store filter of [set_one_file_deletion_policy], which the function
    resolves in line. *)
Lemma inline_store_filter_cases (o : option string) w :
  (∃ rs, match o with
         | Some n => s <- Store_get_by_name n ;; ret (Some s)
         | None => ret None
         end w = (Return rs, w))
  ∨ (∃ fmt a, match o with
              | Some n => s <- Store_get_by_name n ;; ret (Some s)
              | None => ret None
              end w = (Raise (ServerError fmt a), w)).
Proof.
  destruct o as [n|]; [|left; by eexists].
  unfold bind. rewrite Store_get_by_name_exact.
  destruct (lookup_store (db w) n); [left|right]; eauto.
Qed.

(** X25.  Whatever the request and the catalog, a call of
    [set_one_file_deletion_policy] that raises leaves the tables as they
    were, and a call that returns returns the empty answer after a commit
    that went through.  A request for a file that the catalog does not
    know raises a [ServerError] before anything is parsed, logged or
    marked: the world is as before. *)
Theorem X25_set_policy_failure_leaves_tables env args w :
  (forall e, fst (set_one_file_deletion_policy env args w) = Raise e ->
     db (snd (set_one_file_deletion_policy env args w)) = db w)
  ∧ (forall d, fst (set_one_file_deletion_policy env args w) = Return d ->
       d = ∅ ∧ commit_fails env = false
       ∧ session (snd (set_one_file_deletion_policy env args w)) = [])
  ∧ (forall file_name,
       args !! "file_name" = Some (PyStr file_name) ->
       lookup_file (db w) file_name = None ->
       ∃ fmt a, set_one_file_deletion_policy env args w
                = (Raise (ServerError fmt a), w)).
Proof.
  unfold set_one_file_deletion_policy.
  destruct (required_arg_str_cases args "file_name" w) as [[fname H1]|(f1 & a1 & H1)];
    cycle 1.
  { erewrite bind_Raise by done. simpl. split; [done|]. split; [done|].
    intros file_name Hf. rewrite (required_arg_str_ok _ _ file_name) in H1 by done.
    done. }
  erewrite bind_Return by done.
  assert (Hname : forall file_name,
            args !! "file_name" = Some (PyStr file_name) -> file_name = fname).
  { intros file_name Hf. rewrite (required_arg_str_ok _ _ file_name) in H1 by done.
    congruence. }
  destruct (required_arg_str_cases args "deletion_policy" w)
    as [[text H2]|(f2 & a2 & H2)]; cycle 1.
  { erewrite bind_Raise by done. simpl. split; [done|]. split; [done|]. eauto. }
  erewrite bind_Return by done.
  destruct (optional_arg_str_cases args "restrict_to_store" w)
    as [[o H3]|(f3 & a3 & H3)]; cycle 1.
  { erewrite bind_Raise by done. simpl. split; [done|]. split; [done|]. eauto. }
  erewrite bind_Return by done.
  destruct (inline_store_filter_cases o w) as [[rs H4]|(f4 & a4 & H4)]; cycle 1.
  { erewrite bind_Raise by done. simpl. split; [done|]. split; [done|]. eauto. }
  erewrite bind_Return by done.
  erewrite bind_Return by apply File_query_get_exact.
  destruct (lookup_file (db w) fname) as [file|] eqn:Hfile; cycle 1.
  { simpl. split; [done|]. split; [done|]. eauto. }
  erewrite bind_Return by apply parse_safe_exact.
  erewrite bind_Return by done.
  split; [|split]; cycle 2.
  { intros file_name Hf Hnone. apply Hname in Hf as ->. congruence. }
  - destruct (first_instance rs _) as [inst|]; [|done].
    unfold make_generic_event, FileEvent_init.
    unfold bind, set_deletion_policy, session_add, session_push, set_session,
      try_except, session_commit, session_rollback, log_exception, emit, raise, ret.
    simpl. destruct (contains_char "/"%char (File.name file)); simpl; [done|].
    by destruct (commit_fails env).
  - destruct (first_instance rs _) as [inst|]; [|done].
    unfold make_generic_event, FileEvent_init.
    unfold bind, set_deletion_policy, session_add, session_push, set_session,
      try_except, session_commit, session_rollback, log_exception, emit, raise, ret.
    simpl. destruct (contains_char "/"%char (File.name file)); simpl; [done|].
    destruct (commit_fails env); simpl; [done|]. by intros d [= <-].
Qed.

(** ** A deletion request after a deletion request *)

Lemma standard_committed_exact env self restrict w :
  event_fails self = false ->
  commit_fails env = false ->
  session w = [] ->
  delete_instances env self "standard" restrict w
  = (Return (tally (classify env false (Some (need_chmod_of env)) restrict)
               (instances_of self (db w)) zero_counts),
     {| db := apply_ops
                (pending_deletions env self (Some (need_chmod_of env)) restrict
                   (instances_of self (db w)))
                (db w);
        session := [];
        trace := (trace w ++ (instances_of self (db w)
                                ≫= body_effects env false (Some (need_chmod_of env))
                                     restrict))
                 ++ [Commit] |}).
Proof.
  intros Hv Hc Hsess.
  rewrite delete_instances_standard, loop_standard_exact by done.
  unfold finish_standard. rewrite Hc. simpl. by rewrite Hsess.
Qed.

(** The instances that a file has left once the deletions of a loop have
    reached the tables. *)
Lemma instances_after_deletions env self chmod restrict d :
  unique_keys d ->
  instances_of self
    (apply_ops (pending_deletions env self chmod restrict (instances_of self d)) d)
  = filter (fun i => ¬ (attempted restrict i ∧ succeeded env chmod i))
      (instances_of self d).
Proof.
  intros Hnd. unfold pending_deletions. rewrite apply_deletions.
  unfold instances_of at 1. simpl.
  assert (HD : forall j,
            j ∈ filter (fun i => attempted restrict i ∧ succeeded env chmod i)
                  (instances_of self d)
            ↔ (attempted restrict j ∧ succeeded env chmod j)
              ∧ j ∈ instances_of self d)
    by (intros j; by rewrite list_elem_of_filter).
  revert HD.
  generalize (filter (fun i => attempted restrict i ∧ succeeded env chmod i)
                (instances_of self d)).
  intros D HD. unfold instances_of in *. rewrite !list_filter_filter.
  apply filter_ext_in. intros i Hi. split.
  - intros [Hname Hk]. split; [|done].
    intros Hd. apply Hk. apply list_elem_of_fmap_2, HD.
    split; [done|]. by apply list_elem_of_filter.
  - intros [Hnot Hname]. split; [done|].
    intros (j & Hk & Hj)%list_elem_of_fmap.
    apply HD in Hj as [Hdj Hj]. apply list_elem_of_filter in Hj as [_ Hj].
    assert (i = j) as <- by (eapply NoDup_fmap_eq; eauto).
    done.
Qed.

Lemma unique_keys_after_deletions env self chmod restrict d :
  unique_keys d ->
  unique_keys (apply_ops (pending_deletions env self chmod restrict
                            (instances_of self d)) d).
Proof.
  intros Hnd. unfold pending_deletions. rewrite apply_deletions.
  eapply unique_keys_sublist; [|exact Hnd]. simpl. apply sublist_filter.
Qed.

(** X26.  A second deletion request for the same file, for a file whose
    name has no slash, a clean session, unique instance keys and commits
    that go through.  After the first request the file has the instances
    it had, less those that the store removed.  The second request, whatever
    the stores answer this time, asks the stores again for exactly the
    instances whose removal failed in the first request, in the same order;
    when none had failed it makes no call on a store, counts no deletion
    and no error, and leaves the rows as the first request left them. *)
Theorem X26_second_request_retries_the_failures env env' self restrict w :
  event_fails self = false ->
  session w = [] ->
  unique_keys (db w) ->
  commit_fails env = false ->
  commit_fails env' = false ->
  let w1 := snd (delete_instances env self "standard" restrict w) in
  let out2 := delete_instances env' self "standard" restrict w1 in
  let failed :=
    filter (fun i => attempted restrict i
                     ∧ ¬ succeeded env (Some (need_chmod_of env)) i)
      (instances_of self (db w)) in
  instances_of self (db w1)
  = filter (fun i => ¬ (attempted restrict i
                        ∧ succeeded env (Some (need_chmod_of env)) i))
      (instances_of self (db w))
  ∧ store_deletes (new_calls w1 (snd out2))
    = delete_call_of (Some (need_chmod_of env')) <$> failed
  ∧ (failed = [] ->
     db_instances (db (snd out2)) = db_instances (db w1)
     ∧ ∃ c, fst out2 = Return c ∧ n_deleted c = 0%Z ∧ n_error c = 0%Z).
Proof.
  intros Hv Hsess Hnd Hc Hc' w1 out2 failed.
  assert (Hw1 : instances_of self (db w1)
                = filter (fun i => ¬ (attempted restrict i
                                      ∧ succeeded env (Some (need_chmod_of env)) i))
                    (instances_of self (db w))).
  { unfold w1. rewrite standard_committed_exact by done. simpl.
    by apply instances_after_deletions. }
  assert (Hsess1 : session w1 = []).
  { unfold w1. by rewrite standard_committed_exact by done. }
  assert (Hatt : filter (attempted restrict) (instances_of self (db w1)) = failed).
  { rewrite Hw1, list_filter_filter. unfold failed.
    apply list_filter_iff. intros i. tauto. }
  split; [done|].
  unfold out2. rewrite (standard_committed_exact env' self restrict w1) by done.
  simpl. split.
  - unfold new_calls. simpl. rewrite <- app_assoc, drop_app_length.
    rewrite store_deletes_app, effects_store_deletes, Hatt. simpl.
    by rewrite app_nil_r.
  - intros Hnone. rewrite Hnone in Hatt.
    assert (Hnil : forall (P : FileInstance.t -> Prop) `{!forall i, Decision (P i)},
              filter (fun i => attempted restrict i ∧ P i)
                (instances_of self (db w1)) = []).
    { intros P HP. apply filter_none. intros i Hi [Ha _].
      assert (Hin : i ∈ filter (attempted restrict) (instances_of self (db w1)))
        by (by apply list_elem_of_filter).
      rewrite Hatt in Hin. by apply elem_of_nil in Hin. }
    split.
    + unfold pending_deletions. by rewrite Hnil.
    + eexists. split; [done|].
      destruct (tally_counts env' false (Some (need_chmod_of env')) restrict
                  (instances_of self (db w1)) zero_counts) as (_ & -> & ->).
      rewrite !Hnil. done.
Qed.

Lemma X26_witness :
  store_deletes
    (new_calls
       (snd (delete_instances (ex_env false) ex_file "standard" None ex_world))
       (snd (delete_instances (ex_env false) ex_file "standard" None
               (snd (delete_instances (ex_env false) ex_file "standard" None ex_world)))))
  = [delete_call_of (Some (need_chmod_of (ex_env false))) ex_unreachable].
Proof.
  destruct (X26_second_request_retries_the_failures (ex_env false) (ex_env false)
              ex_file None ex_world) as (_ & H & _).
  - reflexivity.
  - reflexivity.
  - exact ex_world_unique_keys.
  - reflexivity.
  - reflexivity.
  - rewrite H. reflexivity.
Defined.
